(** * Markdown-to-PDF converter: a shallow embedding of [markdown_to_pdf.py]

    The development follows the source file top-down:

    - [PyStr] and [PosixPath]: the built-in [str] methods and the [os.path]
      functions the converter calls ([find], [in], slicing, [strip], [lower],
      [endswith], [basename], [dirname], [splitext]).
    - [Config]: configuration values, Python dictionaries with insertion
      order, and [_deep_merge] on them.
    - [Store]: the same dictionaries as objects in a store, to follow what
      [DEFAULT_CONFIG.copy()] and the in-place [_deep_merge] share.
    - [Converter]: exceptions, the interaction with the outside world
      (file system, Markdown renderer, wkhtmltopdf, logging) as a state and
      error monad over a trace of events, and the methods of
      [MarkdownToPDFConverter] and [main] in it.

    Python [str] is modelled by [string]: a sequence of characters with code
    points below 256.  Python integers are [Z]. *)

From Stdlib Require Import ZArith Ascii String Lia Bool.
From stdpp Require Import base tactics option list strings gmap.

Local Open Scope Z_scope.

(* ===================================================================== *)
(** * Built-in string operations *)
(* ===================================================================== *)

Module PyStr.

(** [len(s)] *)
Definition len (s : string) : Z := Z.of_nat (String.length s).

(** [s.startswith(p)] *)
Fixpoint startswith (s p : string) : bool :=
  match p, s with
  | EmptyString, _ => true
  | String _ _, EmptyString => false
  | String a p', String b s' => if decide (a = b) then startswith s' p' else false
  end.

(** The suffix [s[n:]] and the prefix [s[:n]] for a natural number [n]. *)
Fixpoint drop (n : nat) (s : string) : string :=
  match n, s with
  | O, _ => s
  | S _, EmptyString => EmptyString
  | S n', String _ s' => drop n' s'
  end.

Fixpoint take (n : nat) (s : string) : string :=
  match n, s with
  | O, _ => EmptyString
  | S _, EmptyString => EmptyString
  | S n', String c s' => String c (take n' s')
  end.

(** Python's normalisation of a slice bound: a negative bound counts from
    the end, and the result is clamped to [0, len(s)]. *)
Definition clamp (s : string) (i : Z) : nat :=
  let i' := if i <? 0 then i + len s else i in
  Z.to_nat (Z.min (Z.max i' 0) (len s)).

(** [s[lo:hi]] *)
Definition slice (s : string) (lo hi : Z) : string :=
  let l := clamp s lo in
  let h := clamp s hi in
  take (h - l) (drop l s).

(** [s[lo:]] *)
Definition slice_from (s : string) (lo : Z) : string := drop (clamp s lo) s.

(** [s[:hi]] *)
Definition slice_to (s : string) (hi : Z) : string := take (clamp s hi) s.

(** [sub in s] *)
Fixpoint contains (sub s : string) : bool :=
  startswith s sub ||
  match s with
  | EmptyString => false
  | String _ s' => contains sub s'
  end.

(** The left-to-right scan of [s.find(sub, start)]: [s] is what remains of
    the subject from position [pos] on. *)
Fixpoint find_at (sub s : string) (pos : nat) : Z :=
  if startswith s sub then Z.of_nat pos
  else match s with
       | EmptyString => -1
       | String _ s' => find_at sub s' (S pos)
       end.

(** [s.find(sub, start)]: the lowest index at or after [start] where [sub]
    occurs, [-1] when there is none or [start] is past the end. *)
Definition find (s sub : string) (start : Z) : Z :=
  let start' := if start <? 0 then Z.max (start + len s) 0 else start in
  if len s <? start' then -1
  else find_at sub (drop (Z.to_nat start') s) (Z.to_nat start').

(** The scan of [s.rfind(sub)]: the highest index where [sub] occurs. *)
Fixpoint rfind_at (sub s : string) (pos : nat) : Z :=
  match s with
  | EmptyString => if startswith s sub then Z.of_nat pos else -1
  | String _ s' =>
      let r := rfind_at sub s' (S pos) in
      if 0 <=? r then r
      else if startswith s sub then Z.of_nat pos else -1
  end.

Definition rfind (s sub : string) : Z := rfind_at sub s 0.

(** [c.isspace()] for a character with a code point below 256. *)
Definition isspace (c : ascii) : bool :=
  let n := nat_of_ascii c in
  ((9 <=? n) && (n <=? 13) || (28 <=? n) && (n <=? 32)
   || (n =? 133) || (n =? 160))%nat.

Fixpoint lstrip (s : string) : string :=
  match s with
  | EmptyString => EmptyString
  | String c s' => if isspace c then lstrip s' else s
  end.

Fixpoint rstrip (s : string) : string :=
  match s with
  | EmptyString => EmptyString
  | String c s' =>
      match rstrip s' with
      | EmptyString => if isspace c then EmptyString else String c EmptyString
      | r => String c r
      end
  end.

(** [s.strip()] *)
Definition strip (s : string) : string := rstrip (lstrip s).

(** [s.rstrip(c)] for a one-character argument. *)
Fixpoint rstrip_char (c : ascii) (s : string) : string :=
  match s with
  | EmptyString => EmptyString
  | String a s' =>
      match rstrip_char c s' with
      | EmptyString => if decide (a = c) then EmptyString else String a EmptyString
      | r => String a r
      end
  end.

(** [c.lower()] for a character with a code point below 256: the ASCII
    capitals and the Latin-1 capitals 192-222, without the sign 215. *)
Definition lower_char (c : ascii) : ascii :=
  let n := nat_of_ascii c in
  if ((65 <=? n) && (n <=? 90)
      || (192 <=? n) && (n <=? 222) && negb (n =? 215))%nat
  then ascii_of_nat (n + 32) else c.

(** [s.lower()] *)
Fixpoint lower (s : string) : string :=
  match s with
  | EmptyString => EmptyString
  | String c s' => String (lower_char c) (lower s')
  end.

(** [s.endswith(suffix)] *)
Definition endswith (s suffix : string) : bool :=
  (String.length suffix <=? String.length s)%nat
  && bool_decide (drop (String.length s - String.length suffix) s = suffix).

(** [s.endswith((a, b, ...))] with a tuple of suffixes. *)
Definition endswith_any (s : string) (suffixes : list string) : bool :=
  existsb (endswith s) suffixes.

(** [c * n] for a character. *)
Fixpoint repeat_char (c : ascii) (n : nat) : string :=
  match n with
  | O => EmptyString
  | S n' => String c (repeat_char c n')
  end.

End PyStr.

(* ===================================================================== *)
(** * [os.path] on a POSIX system ([posixpath], [genericpath]) *)
(* ===================================================================== *)

Module PosixPath.
Import PyStr.

(** [basename(p)]: [i = p.rfind('/') + 1; return p[i:]] *)
Definition basename (p : string) : string :=
  let i := rfind p "/" + 1 in
  slice_from p i.

(** [dirname(p)]: the head up to the last slash, with trailing slashes
    removed unless the head consists of slashes only. *)
Definition dirname (p : string) : string :=
  let i := rfind p "/" + 1 in
  let head := slice_to p i in
  if negb (bool_decide (head = EmptyString))
     && negb (bool_decide (head = repeat_char "/" (String.length head)))
  then rstrip_char "/" head
  else head.

(** The loop of [genericpath._splitext] that skips the leading dots of the
    file name; [n] bounds the iterations by [dotIndex - filenameIndex]. *)
Fixpoint splitext_scan (p : string) (filenameIndex dotIndex : Z) (n : nat)
  : string * string :=
  match n with
  | O => (p, EmptyString)
  | S n' =>
      if filenameIndex <? dotIndex then
        if negb (bool_decide (slice p filenameIndex (filenameIndex + 1) = "."%string))
        then (slice_to p dotIndex, slice_from p dotIndex)
        else splitext_scan p (filenameIndex + 1) dotIndex n'
      else (p, EmptyString)
  end.

(** [splitext(p)] *)
Definition splitext (p : string) : string * string :=
  let sepIndex := rfind p "/" in
  let dotIndex := rfind p "." in
  if sepIndex <? dotIndex then
    splitext_scan p (sepIndex + 1) dotIndex (Z.to_nat (dotIndex - (sepIndex + 1)))
  else (p, EmptyString).

(** [join(a, b)] for a relative [b]. *)
Definition join (a b : string) : string :=
  if startswith b "/" then b
  else if bool_decide (a = EmptyString) || endswith a "/" then (a +:+ b)
  else (a +:+ "/" +:+ b).

End PosixPath.

Import PyStr PosixPath.

(* ===================================================================== *)
(** * Configuration values and dictionaries *)
(* ===================================================================== *)

Module Config.

(** What [yaml.safe_load] and the literal [DEFAULT_CONFIG] are made of.  A
    dictionary keeps its items in insertion order, as Python's [dict]
    does; its keys are strings ([Dict[str, Any]] in the source). *)
#[warnings="-register-all"]
Inductive value : Type :=
| VNone
| VBool (b : bool)
| VInt (z : Z)
| VStr (s : string)
| VList (l : list value)
| VDict (d : list (string * value)).

Abbreviation dict := (list (string * value)).

(** [isinstance(v, dict)] *)
Definition is_dict (v : value) : bool :=
  match v with VDict _ => true | _ => false end.

Section Dict.
Context {V : Type}.

(** [d.get(k)]: [None] stands for an absent key. *)
Fixpoint dict_get (d : list (string * V)) (k : string) : option V :=
  match d with
  | [] => None
  | (k', v) :: d' => if decide (k' = k) then Some v else dict_get d' k
  end.

(** [k in d] *)
Definition dict_has (d : list (string * V)) (k : string) : bool :=
  match dict_get d k with Some _ => true | None => false end.

(** [d[k] = v]: an existing key keeps its position, a new key goes to
    the end. *)
Fixpoint dict_set (d : list (string * V)) (k : string) (v : V)
  : list (string * V) :=
  match d with
  | [] => [(k, v)]
  | (k', v') :: d' =>
      if decide (k' = k) then (k, v) :: d' else (k', v') :: dict_set d' k v
  end.

(** [d.update(other)] for a dictionary [other]. *)
Definition dict_update (d other : list (string * V)) : list (string * V) :=
  foldl (fun acc kv => dict_set acc kv.1 kv.2) d other.

Definition keys (d : list (string * V)) : list string := d.*1.
End Dict.

(** [_deep_merge(base, update)], as a function of the contents of the two
    dictionaries to the contents of [base] when it returns.  The loop over
    [update.items()] is the inner [fix]; [merge_into] takes the update
    first because the recursion is on it. *)
Fixpoint merge_into (update : value) (base : dict) {struct update} : dict :=
  match update with
  | VDict items =>
      (fix loop (items : dict) (base : dict) {struct items} : dict :=
         match items with
         | [] => base
         | (key, value) :: rest =>
             loop rest
               match dict_get base key, value with
               | Some (VDict b), VDict _ =>
                   dict_set base key (VDict (merge_into value b))
               | _, _ => dict_set base key value
               end
         end) items base
  | _ => base
  end.

Definition _deep_merge (base update : dict) : dict :=
  merge_into (VDict update) base.

(** One iteration of the loop of [_deep_merge]. *)
Definition merge_item (base : dict) (key : string) (value : value) : dict :=
  match dict_get base key, value with
  | Some (VDict b), VDict u => dict_set base key (VDict (_deep_merge b u))
  | _, _ => dict_set base key value
  end.

(** How deep the dictionaries of a value nest: the depth [_deep_merge]
    recurses to on it. *)
Fixpoint depth (v : value) : nat :=
  match v with
  | VDict d =>
      S ((fix deepest (d : dict) : nat :=
            match d with
            | [] => O
            | (_, x) :: d' => Nat.max (depth x) (deepest d')
            end) d)
  | _ => O
  end.

(** [DEFAULT_CONFIG]; the style sheets are abbreviated to their first
    rule, their text plays no role below. *)
Definition DEFAULT_CONFIG : dict :=
  [ ("pdf_options"%string,
      VDict [ ("page-size"%string, VStr "A4");
              ("margin-top"%string, VStr "20mm");
              ("margin-right"%string, VStr "20mm");
              ("margin-bottom"%string, VStr "20mm");
              ("margin-left"%string, VStr "20mm");
              ("encoding"%string, VStr "UTF-8");
              ("quiet"%string, VStr "") ]);
    ("css_styles"%string,
      VDict [ ("base"%string, VStr "body { font-family: 'Arial', sans-serif; }");
              ("header"%string, VStr "header { padding-bottom: 10mm; }");
              ("footer"%string, VStr "footer { position: fixed; }") ]);
    ("metadata"%string,
      VDict [ ("creator"%string, VStr "Markdown to PDF Converter");
              ("producer"%string, VStr "Python pdfkit/wkhtmltopdf") ]) ].

End Config.

Import Config.

(* ===================================================================== *)
(** * Exceptions *)
(* ===================================================================== *)

Module PyExc.

(** The exception classes of the source (lines 87-105) and the built-in
    ones its handlers name or its calls raise. *)
Inductive pyclass : Type :=
| BaseException
| Exception
| KeyboardInterrupt
| SystemExit
| GeneratorExit
| OSError
| ValueError
| UnicodeDecodeError
| LookupError
| KeyError
| TypeError
| AttributeError
| RuntimeError
| RecursionError
| ConversionError
| ConfigurationError
| DependencyError
| InputValidationError.

Global Instance pyclass_eq_dec : EqDecision pyclass.
Proof. solve_decision. Defined.

(** The base class in each [class C(B)] statement. *)
Definition base_class (c : pyclass) : option pyclass :=
  match c with
  | BaseException => None
  | Exception | KeyboardInterrupt | SystemExit | GeneratorExit => Some BaseException
  | OSError | ValueError | LookupError | TypeError | AttributeError
  | RuntimeError | ConversionError => Some Exception
  | UnicodeDecodeError => Some ValueError
  | KeyError => Some LookupError
  | RecursionError => Some RuntimeError
  | ConfigurationError | DependencyError | InputValidationError => Some ConversionError
  end.

(** [issubclass(c, d)], walking up at most [n] base classes. *)
Fixpoint issubclass_fuel (n : nat) (c d : pyclass) : bool :=
  bool_decide (c = d) ||
  match n, base_class c with
  | S n', Some b => issubclass_fuel n' b d
  | _, _ => false
  end.

Definition issubclass (c d : pyclass) : bool := issubclass_fuel 4 c d.

(** A raised exception: its class and the text [str(e)]. *)
Record exn : Type := Exn { exn_class : pyclass; exn_str : string }.

Definition isinstance (e : exn) (c : pyclass) : bool :=
  issubclass (exn_class e) c.

(** [str(e)] of an exception of the source raised as [C(message)]: the
    constructors pass [(message, error_code)] on to [Exception], and the
    text of an exception with two arguments is the text of that tuple.
    The quoting is that of a message without quotes and escapes. *)
Definition str_of_args (message : string) : string :=
  "('" +:+ message +:+ "', None)".

(** [C(message)] for a class [C] of the source. *)
Definition new_error (c : pyclass) (message : string) : exn :=
  Exn c (str_of_args message).

(** A call returns a value or raises. *)
Inductive outcome (A : Type) : Type :=
| Ok (a : A)
| Raised (e : exn).
Global Arguments Ok {A} a.
Global Arguments Raised {A} e.

Definition is_ok {A} (r : outcome A) : bool :=
  match r with Ok _ => true | Raised _ => false end.

End PyExc.

Import PyExc.

(* ===================================================================== *)
(** * Dictionaries as objects *)
(* ===================================================================== *)

Module Store.

(** A dictionary is an object: a value that is a dictionary is a reference
    to it, and two references to one object see each other's updates.
    The store is the list of the dictionary objects allocated so far, a
    reference is an index into it.  Lists and scalars are never updated by
    the converter and stay values. *)
Definition loc : Type := nat.

#[warnings="-register-all"]
Inductive oval : Type :=
| ONone
| OBool (b : bool)
| OInt (z : Z)
| OStr (s : string)
| OList (l : list oval)
| ORef (l : loc).

Abbreviation odict := (list (string * oval)).
Abbreviation heap := (list (list (string * oval))).

(** A new dictionary object with the items [d]. *)
Definition alloc (h : heap) (d : odict) : heap * loc :=
  (h ++ [d], length h).

(** The objects a literal, or a document read by [yaml.safe_load], builds:
    one new dictionary object per dictionary in it. *)
Fixpoint build (v : value) (h : heap) {struct v} : oval * heap :=
  match v with
  | VNone => (ONone, h)
  | VBool b => (OBool b, h)
  | VInt z => (OInt z, h)
  | VStr s => (OStr s, h)
  | VList l =>
      let '(l', h') :=
        (fix elements (l : list value) (h : heap) : list oval * heap :=
           match l with
           | [] => ([], h)
           | x :: xs =>
               let '(x', h1) := build x h in
               let '(xs', h2) := elements xs h1 in
               (x' :: xs', h2)
           end) l h in
      (OList l', h')
  | VDict d =>
      let '(d', h') :=
        (fix items (d : dict) (h : heap) : odict * heap :=
           match d with
           | [] => ([], h)
           | (k, x) :: xs =>
               let '(x', h1) := build x h in
               let '(xs', h2) := items xs h1 in
               ((k, x') :: xs', h2)
           end) d h in
      let '(h'', l) := alloc h' d' in
      (ORef l, h'')
  end.

(** The contents reachable from a value, as a value without references;
    [fuel] bounds the depth. *)
Fixpoint read (fuel : nat) (h : heap) (v : oval) : option value :=
  match fuel with
  | O => None
  | S fuel' =>
      match v with
      | ONone => Some VNone
      | OBool b => Some (VBool b)
      | OInt z => Some (VInt z)
      | OStr s => Some (VStr s)
      | OList l => VList <$> mapM (read fuel' h) l
      | ORef r =>
          d ← h !! r;
          VDict <$> mapM (fun kv : string * oval =>
                            pair kv.1 <$> read fuel' h kv.2) d
      end
  end.

(** [d.copy()]: a new object with the same items; the values of the items
    are shared with [d]. *)
Definition copy (h : heap) (d : loc) : option (heap * loc) :=
  items ← h !! d; Some (alloc h items).

(** [_deep_merge(base, update)] on the objects (lines 149-154).  [base]
    is updated in place and returned, so the result is the new store.
    [fuel] is the depth of recursion the interpreter allows: [None] is
    [RecursionError].  The loop runs over the items [update] has when it
    starts.

    [merge_step] is the body of the loop for one item; [rec] is the
    recursive call.  [base[key] = _deep_merge(base[key], value)] stores
    the reference the call returns, which is [base[key]] itself. *)
Definition merge_step (rec : heap → loc → loc → option heap) (base : loc)
    (acc : option heap) (item : string * oval) : option heap :=
  h ← acc;
  b ← h !! base;
  match dict_get b item.1, item.2 with
  | Some (ORef bl), ORef ul =>
      h' ← rec h bl ul;
      b' ← h' !! base;
      Some (<[base := dict_set b' item.1 (ORef bl)]> h')
  | _, _ => Some (<[base := dict_set b item.1 item.2]> h)
  end.

Fixpoint _deep_merge (fuel : nat) (h : heap) (base update : loc) : option heap :=
  match fuel with
  | O => None
  | S fuel' =>
      items ← h !! update;
      foldl (merge_step (_deep_merge fuel') base) (Some h) items
  end.

(** [owns h v t F]: in the store [h] the value [v] has the contents [t],
    and the dictionary objects it reaches are those of [F], each reached
    by one path only. *)
Inductive owns (h : heap) : oval → value → gset loc → Prop :=
| owns_none : owns h ONone VNone ∅
| owns_bool b : owns h (OBool b) (VBool b) ∅
| owns_int z : owns h (OInt z) (VInt z) ∅
| owns_str s : owns h (OStr s) (VStr s) ∅
| owns_list l ts F : owns_elements h l ts F → owns h (OList l) (VList ts) F
| owns_dict r items d F :
    h !! r = Some items → owns_items h items d F → r ∉ F →
    owns h (ORef r) (VDict d) ({[r]} ∪ F)
with owns_elements (h : heap) : list oval → list value → gset loc → Prop :=
| owns_elements_nil : owns_elements h [] [] ∅
| owns_elements_cons v t F l ts G :
    owns h v t F → owns_elements h l ts G → F ## G →
    owns_elements h (v :: l) (t :: ts) (F ∪ G)
with owns_items (h : heap) : odict → dict → gset loc → Prop :=
| owns_items_nil : owns_items h [] [] ∅
| owns_items_cons k v t F items d G :
    owns h v t F → owns_items h items d G → F ## G →
    owns_items h ((k, v) :: items) ((k, t) :: d) (F ∪ G).

Scheme owns_mut := Induction for owns Sort Prop
  with owns_elements_mut := Induction for owns_elements Sort Prop
  with owns_items_mut := Induction for owns_items Sort Prop.

(** Truth value of a value, as in [x or y]. *)
Definition truthy (h : heap) (v : oval) : bool :=
  match v with
  | ONone => false
  | OBool b => b
  | OInt z => negb (z =? 0)
  | OStr s => negb (bool_decide (s = EmptyString))
  | OList l => negb (bool_decide (l = []))
  | ORef r => match h !! r with Some [] => false | _ => true end
  end.

(** [v[key]] for a string [key]. *)
Definition getitem (h : heap) (v : oval) (key : string) : outcome oval :=
  match v with
  | ORef r =>
      match h !! r ≫= (fun d => dict_get d key) with
      | Some x => Ok x
      | None => Raised (Exn KeyError ("'" +:+ key +:+ "'"))
      end
  | OStr _ => Raised (Exn TypeError "string indices must be integers")
  | OList _ => Raised (Exn TypeError "list indices must be integers or slices, not str")
  | _ => Raised (Exn TypeError "object is not subscriptable")
  end.

(** [v.get(key, default)] *)
Definition get (h : heap) (v : oval) (key : string) (default : oval) : outcome oval :=
  match v with
  | ORef r =>
      match h !! r ≫= (fun d => dict_get d key) with
      | Some x => Ok x
      | None => Ok default
      end
  | _ => Raised (Exn AttributeError "object has no attribute 'get'")
  end.

End Store.

Import Store.

(* ===================================================================== *)
(** * The converter *)
(* ===================================================================== *)

Module Converter.

(** ** The outside world *)

Inductive level : Type := DEBUG | INFO | WARNING | ERROR | CRITICAL.

(** What a path names, if anything. *)
Inductive file_kind : Type := RegularFile | Directory | OtherFile.

(** The command line, as [parse_args] returns it. *)
Record args : Type := Args {
  input : string;
  output : string;
  config_path : option string;
  verbose : bool;
  log : option string
}.

(** What the converter does to the world, in order, each call with what
    it returned. *)
Inductive event : Type :=
| EvLog (lvl : level) (msg : string)
| EvIsFile (path : string) (r : bool)
| EvIsDir (path : string) (r : bool)
| EvOpen (path mode encoding : string) (r : outcome unit)
| EvRead (path encoding : string) (r : outcome string)
| EvWrite (path content : string) (r : outcome unit)
| EvSafeLoad (path : string) (r : outcome value)
| EvMarkdown (text : string) (extensions : list string) (output_format : string)
             (r : outcome string)
| EvTemporaryDirectory (r : outcome string)
| EvCleanup (dir : string)
| EvFromFile (src out : string) (options : odict) (r : outcome unit)
| EvFromString (html out : string) (r : outcome unit)
| EvStrftime (format : string) (r : string)
| EvParseArgs (r : outcome args)
| EvFileHandler (path : string) (r : outcome unit)
| EvBasicConfig (lvl : level) (handlers : nat).

(** The state: the dictionary objects and the events so far.  The module
    constant [DEFAULT_CONFIG] is the object at [DEFAULT_CONFIG_ref] of the
    store the module starts with, [initial_world]. *)
Record world : Type := World { objects : heap; trace : list event }.

Definition initial_world : world :=
  World (build (VDict DEFAULT_CONFIG) []).2 [].

Definition DEFAULT_CONFIG_ref : loc := 3%nat.

(** The collaborators the converter calls: each answers from the events
    so far, so that two calls with the same arguments may differ.
    [template] is the text of the f-string of [_generate_html_document]
    around its interpolated values. *)
Record environment : Type := Environment {
  os_stat : list event → string → option file_kind;
  open_ : list event → string → string → string → outcome unit;
  file_read : list event → string → string → outcome string;
  file_write : list event → string → string → outcome unit;
  yaml_safe_load : list event → string → outcome value;
  markdown_markdown : list event → string → list string → string → outcome string;
  tempfile_TemporaryDirectory : list event → outcome string;
  pdfkit_from_file : list event → string → string → odict → outcome unit;
  pdfkit_from_string : list event → string → string → outcome unit;
  time_strftime : list event → string → string;
  argparse_parse_args : list event → outcome args;
  logging_FileHandler : list event → string → outcome unit;
  recursion_limit : nat;
  template : string → list oval → string → string → string
}.

(** ** The monad: state and exceptions *)

Definition M (A : Type) : Type := world → outcome A * world.

Global Instance M_ret : MRet M := fun A a w => (Ok a, w).

Global Instance M_bind : MBind M := fun A B f m w =>
  match m w with
  | (Ok a, w') => f a w'
  | (Raised e, w') => (Raised e, w')
  end.

(** [raise e] *)
Definition raise {A} (e : exn) : M A := fun w => (Raised e, w).

(** [try: body  except C1 as e: h1  except C2 as e: h2 ...]: the first
    clause whose class the exception is an instance of handles it; an
    exception of no clause, or raised by a handler, goes on. *)
Definition try_except {A} (body : M A) (handlers : list (pyclass * (exn → M A)))
  : M A :=
  fun w =>
    match body w with
    | (Ok a, w') => (Ok a, w')
    | (Raised e, w') =>
        match List.find (fun h : pyclass * (exn → M A) => isinstance e h.1) handlers with
        | Some h => h.2 e w'
        | None => (Raised e, w')
        end
    end.

Definition emit (ev : event) : M unit :=
  fun w => (Ok tt, World (objects w) (trace w ++ [ev])).

(** A call that cannot raise, and one that can. *)
Definition ask {A} (oracle : list event → A) (ev : A → event) : M A :=
  fun w => let r := oracle (trace w) in
           (Ok r, World (objects w) (trace w ++ [ev r])).

Definition call {A} (oracle : list event → outcome A) (ev : outcome A → event)
  : M A :=
  fun w => let r := oracle (trace w) in
           (r, World (objects w) (trace w ++ [ev r])).

(** Reading and updating the store. *)
Definition lift {A} (f : heap → outcome A) : M A :=
  fun w => (f (objects w), w).

Definition logger (lvl : level) (msg : string) : M unit := emit (EvLog lvl msg).

Section Methods.
Context (E : environment).

(** [with tempfile.TemporaryDirectory() as temp_dir: body]: the
    directory is removed when the block is left, by return or by an
    exception, which then goes on. *)
Definition leaving {A} (temp_dir : string) (block : M A) : M A :=
  fun w =>
    let '(r, w') := block w in
    (r, World (objects w') (trace w' ++ [EvCleanup temp_dir])).

Definition with_TemporaryDirectory {A} (body : string → M A) : M A :=
  temp_dir ← call (tempfile_TemporaryDirectory E) EvTemporaryDirectory;
  leaving temp_dir (body temp_dir).

Record converter : Type := Converter { config : loc }.

(** [d.copy()] on a dictionary object. *)
Definition dict_copy (d : loc) : M loc :=
  fun w =>
    match copy (objects w) d with
    | Some (h, l) => (Ok l, World h (trace w))
    | None => (Raised (Exn RuntimeError "no such object"), w)
    end.

(** The call [self._deep_merge(base, update)], which returns [base];
    [update.items()] needs a dictionary. *)
Definition self_deep_merge (base : loc) (update : oval) : M loc :=
  match update with
  | ORef u =>
      fun w =>
        match Store._deep_merge (recursion_limit E) (objects w) base u with
        | Some h => (Ok base, World h (trace w))
        | None =>
            (Raised (Exn RecursionError "maximum recursion depth exceeded"), w)
        end
  | _ => raise (Exn AttributeError "object has no attribute 'items'")
  end.

(** [yaml.safe_load(f) or {}]: the document as new objects, or a new
    empty dictionary when it is false. *)
Definition or_empty (doc : value) : M oval :=
  fun w =>
    let '(v, h) := build doc (objects w) in
    if truthy h v then (Ok v, World h (trace w))
    else let '(h', l) := alloc h [] in (Ok (ORef l), World h' (trace w)).

Definition safe_load_or_empty (path : string) : M oval :=
  doc ← call (fun t => yaml_safe_load E t path) (EvSafeLoad path);
  or_empty doc.

(** [_load_config] (lines 121-138) *)
Definition _load_config (config_path : option string) : M loc :=
  config ← dict_copy DEFAULT_CONFIG_ref;
  match config_path with
  | Some path =>
      if bool_decide (path = EmptyString) then mret config
      else
        try_except
          (call (fun t => open_ E t path "r" "utf-8") (EvOpen path "r" "utf-8");;
           user_config ← safe_load_or_empty path;
           self_deep_merge config user_config)
          [ (Exception, fun e =>
               raise (new_error ConfigurationError
                        ("Failed to load config file: " +:+ exn_str e))) ]
  | None => mret config
  end.

(** [_validate_dependencies] (lines 156-169) *)
Definition wkhtmltopdf_not_found : string :=
  "wkhtmltopdf not found. Please install it and ensure it's in your PATH.
On Ubuntu/Debian: sudo apt-get install wkhtmltopdf
On macOS: brew install wkhtmltopdf
Windows: Download from https://wkhtmltopdf.org/".

Definition _validate_dependencies : M unit :=
  try_except
    (call (fun t => pdfkit_from_string E t "<html></html>" "/dev/null")
          (EvFromString "<html></html>" "/dev/null"))
    [ (OSError, fun e =>
         raise (new_error DependencyError wkhtmltopdf_not_found)) ].

(** [__init__] (lines 112-119) *)
Definition __init__ (config_path : option string) : M converter :=
  config ← _load_config config_path;
  _validate_dependencies;;
  mret (Converter config).

(** [os.path.isfile(path)] and [os.path.isdir(path)] *)
Definition os_path_isfile (t : list event) (path : string) : bool :=
  match os_stat E t path with Some RegularFile => true | _ => false end.

Definition os_path_isdir (t : list event) (path : string) : bool :=
  match os_stat E t path with Some Directory => true | _ => false end.

(** [_validate_inputs] (lines 171-186) *)
Definition output_dir_of (output_pdf : string) : string :=
  let d := dirname output_pdf in
  if bool_decide (d = EmptyString) then "." else d.

Definition _validate_inputs (markdown_file output_pdf : string) : M unit :=
  isfile ← ask (fun t => os_path_isfile t markdown_file) (EvIsFile markdown_file);
  if negb isfile then
    raise (new_error InputValidationError
             ("Input file does not exist: " +:+ markdown_file))
  else
    let output_dir := output_dir_of output_pdf in
    isdir ← ask (fun t => os_path_isdir t output_dir) (EvIsDir output_dir);
    if negb isdir then
      raise (new_error InputValidationError
               ("Output directory does not exist: " +:+ output_dir))
    else if negb (endswith_any (lower markdown_file) [".md"; ".markdown"]) then
      logger WARNING ("Input file '" +:+ markdown_file
                      +:+ "' does not have a standard Markdown extension")
    else mret tt.

(** [_read_markdown] (lines 188-208): [with open(...) as f:], the log
    line, [f.read()]. *)
Definition read_with (markdown_file encoding : string) (note : M unit) : M string :=
  call (fun t => open_ E t markdown_file "r" encoding)
       (EvOpen markdown_file "r" encoding);;
  note;;
  call (fun t => file_read E t markdown_file encoding)
       (EvRead markdown_file encoding).

Definition read_utf8 (markdown_file : string) : M string :=
  read_with markdown_file "utf-8"
    (logger INFO ("Reading Markdown file: " +:+ markdown_file)).

Definition read_latin1 (markdown_file : string) : M string :=
  read_with markdown_file "latin-1"
    (logger WARNING ("Read with UTF-8 failed, falling back to latin-1 for "
                     +:+ markdown_file)).

Definition read_failed (markdown_file : string) (e : exn) : exn :=
  new_error ConversionError
    ("Failed to read file '" +:+ markdown_file +:+ "': " +:+ exn_str e).

Definition _read_markdown (markdown_file : string) : M string :=
  try_except (read_utf8 markdown_file)
    [ (UnicodeDecodeError, fun _ =>
         try_except (read_latin1 markdown_file)
           [ (Exception, fun e => raise (read_failed markdown_file e)) ]);
      (Exception, fun e => raise (read_failed markdown_file e)) ].

(** [_convert_to_html] (lines 210-232) *)
Definition extensions : list string :=
  ["extra"; "codehilite"; "toc"; "meta"; "admonition"; "sane_lists";
   "smarty"; "wikilinks"].

Definition _convert_to_html (markdown_text : string) : M string :=
  try_except
    (logger INFO "Converting Markdown to HTML";;
     call (fun t => markdown_markdown E t markdown_text extensions "html5")
          (EvMarkdown markdown_text extensions "html5"))
    [ (Exception, fun e =>
         raise (new_error ConversionError
                  ("Markdown to HTML conversion failed: " +:+ exn_str e))) ].

(** [self.config[key]] *)
Definition config_item (self : converter) (key : string) : M oval :=
  lift (fun h => getitem h (ORef (config self)) key).

(** [_generate_html_document] (lines 234-290): the values the f-string
    interpolates, in its order, and [template] around them. *)
Definition _generate_html_document (self : converter)
    (html_content title : string) : M string :=
  let title := if bool_decide (title = EmptyString) then "Document" else title in
  css ← config_item self "css_styles";
  base ← lift (fun h => getitem h css "base");
  header ← lift (fun h => get h css "header" (OStr ""));
  footer ← lift (fun h => get h css "footer" (OStr ""));
  pdf_options ← config_item self "pdf_options";
  page_size ← lift (fun h => get h pdf_options "page-size" (OStr "A4"));
  pdf_options ← config_item self "pdf_options";
  top ← lift (fun h => get h pdf_options "margin-top" (OStr "20mm"));
  pdf_options ← config_item self "pdf_options";
  right ← lift (fun h => get h pdf_options "margin-right" (OStr "20mm"));
  pdf_options ← config_item self "pdf_options";
  bottom ← lift (fun h => get h pdf_options "margin-bottom" (OStr "20mm"));
  pdf_options ← config_item self "pdf_options";
  left ← lift (fun h => get h pdf_options "margin-left" (OStr "20mm"));
  now ← ask (fun t => time_strftime E t "%Y-%m-%d %H:%M") (EvStrftime "%Y-%m-%d %H:%M");
  mret (template E title
          [base; header; footer; page_size; top; right; bottom; left]
          html_content now).

(** One element of the sequence that [options.update(seq)] takes: a
    pair of a key and a value, as a list of two, a string of two
    characters, or a dictionary of two keys.  The keys of [options] are
    strings here, as the source declares them; a pair with another key
    is refused like a key that cannot be hashed. *)
Definition update_pair (h : heap) (acc : outcome odict) (pair : oval)
  : outcome odict :=
  match acc with
  | Raised e => Raised e
  | Ok options =>
      let wrong_length :=
        Raised (Exn ValueError "dictionary update sequence element has the wrong length") in
      match pair with
      | OList [OStr k; v] => Ok (dict_set options k v)
      | OList [_; _] => Raised (Exn TypeError "unhashable or not a string")
      | OList _ => wrong_length
      | OStr (String a (String b EmptyString)) =>
          Ok (dict_set options (String a EmptyString) (OStr (String b EmptyString)))
      | OStr _ => wrong_length
      | ORef r =>
          match h !! r with
          | Some [(k1, _); (k2, _)] => Ok (dict_set options k1 (OStr k2))
          | _ => wrong_length
          end
      | _ => Raised (Exn TypeError "cannot convert dictionary update sequence element to a sequence")
      end
  end.

(** [options.update(other)] *)
Definition update_from (h : heap) (options : odict) (other : oval) : outcome odict :=
  match other with
  | ORef m =>
      match h !! m with
      | Some items => Ok (dict_update options items)
      | None => Raised (Exn RuntimeError "no such object")
      end
  | OStr s =>
      if bool_decide (s = EmptyString) then Ok options
      else Raised (Exn ValueError "dictionary update sequence element #0 has length 1; 2 is required")
  | OList l => foldl (update_pair h) (Ok options) l
  | _ => Raised (Exn TypeError "object is not iterable")
  end.

(** [options = self.config['pdf_options'].copy()] and
    [options.update(self.config['metadata'])] (lines 299-300).  Only a
    dictionary has both [copy] and [update]. *)
Definition full_options (h : heap) (self : converter) : outcome odict :=
  match getitem h (ORef (config self)) "pdf_options" with
  | Ok (ORef p) =>
      match h !! p with
      | Some options =>
          match getitem h (ORef (config self)) "metadata" with
          | Ok metadata => update_from h options metadata
          | Raised e => Raised e
          end
      | None => Raised (Exn RuntimeError "no such object")
      end
  | Ok (OList _) => Raised (Exn AttributeError "'list' object has no attribute 'update'")
  | Ok _ => Raised (Exn AttributeError "object has no attribute 'copy'")
  | Raised e => Raised e
  end.

(** The options of the second attempt (lines 322-326). *)
Definition retry_options_of (options : odict) : odict :=
  [ ("quiet"%string, OStr "");
    ("page-size"%string, default (OStr "A4") (dict_get options "page-size"));
    ("encoding"%string, OStr "UTF-8") ].

(** [_convert_to_pdf] (lines 292-330) *)
Definition from_file (src out : string) (options : odict) : M unit :=
  call (fun t => pdfkit_from_file E t src out options) (EvFromFile src out options).

Definition pdf_failed (e : exn) : exn :=
  new_error ConversionError ("PDF generation failed: " +:+ exn_str e).

Definition _convert_to_pdf (self : converter) (html_content output_pdf : string)
  : M unit :=
  options ← lift (fun h => full_options h self);
  with_TemporaryDirectory (fun temp_dir =>
    let temp_html := join temp_dir "temp.html" in
    try_except
      (call (fun t => open_ E t temp_html "w" "utf-8") (EvOpen temp_html "w" "utf-8");;
       call (fun t => file_write E t temp_html html_content)
            (EvWrite temp_html html_content);;
       logger INFO ("Generating PDF: " +:+ output_pdf);;
       try_except
         (from_file temp_html output_pdf options)
         [ (Exception, fun first_error =>
              logger WARNING ("First PDF generation attempt failed: "
                              +:+ exn_str first_error);;
              logger INFO "Retrying with simplified options...";;
              let retry_options := retry_options_of options in
              from_file temp_html output_pdf retry_options) ])
      [ (Exception, fun e => raise (pdf_failed e)) ]).

(** The title [convert] passes on (lines 347-354). *)
Definition convert_title (markdown_file html_content : string) : string :=
  let title := (splitext (basename markdown_file)).1 in
  if contains "<h1>" html_content then
    let h1_start := find html_content "<h1>" 0 + 4 in
    let h1_end := find html_content "</h1>" h1_start in
    if (3 <? h1_start) && (h1_start <? h1_end)
    then strip (slice html_content h1_start h1_end)
    else title
  else title.

(** [convert] (lines 332-370) *)
Definition convert_body (self : converter) (markdown_file output_pdf : string)
  : M bool :=
  _validate_inputs markdown_file output_pdf;;
  markdown_content ← _read_markdown markdown_file;
  html_content ← _convert_to_html markdown_content;
  let title := convert_title markdown_file html_content in
  full_html ← _generate_html_document self html_content title;
  _convert_to_pdf self full_html output_pdf;;
  logger INFO ("Successfully created PDF: " +:+ output_pdf);;
  mret true.

Definition unexpected (e : exn) : exn :=
  new_error ConversionError ("Unexpected error: " +:+ exn_str e).

Definition convert (self : converter) (markdown_file output_pdf : string) : M bool :=
  try_except (convert_body self markdown_file output_pdf)
    [ (ConversionError, fun e =>
         logger ERROR ("Conversion failed: " +:+ exn_str e);;
         raise e);
      (Exception, fun e =>
         logger ERROR ("Unexpected error during conversion: " +:+ exn_str e);;
         raise (unexpected e)) ].

(** [setup_logging] (lines 372-389) *)
Definition setup_logging (verbose : bool) (log_file : option string) : M unit :=
  let lvl := if verbose then DEBUG else INFO in
  match log_file with
  | Some path =>
      if bool_decide (path = EmptyString) then emit (EvBasicConfig lvl 1)
      else
        call (fun t => logging_FileHandler E t path) (EvFileHandler path);;
        emit (EvBasicConfig lvl 2)
  | None => emit (EvBasicConfig lvl 1)
  end.

(** [main] (lines 409-432): the value it returns is the exit status that
    [sys.exit(main())] gives the process. *)
Definition main_body : M Z :=
  a ← call (argparse_parse_args E) EvParseArgs;
  setup_logging (verbose a) (log a);;
  logger INFO ("Starting conversion: " +:+ input a +:+ " -> " +:+ output a);;
  converter ← __init__ (config_path a);
  convert converter (input a) (output a);;
  logger INFO "Conversion completed successfully";;
  mret 0.

Definition main : M Z :=
  try_except main_body
    [ (ConversionError, fun _ => mret 1);
      (KeyboardInterrupt, fun _ =>
         logger INFO "Conversion cancelled by user";; mret 2);
      (Exception, fun e =>
         logger CRITICAL ("Unexpected error: " +:+ exn_str e);; mret 3) ].

End Methods.

End Converter.

Import Converter.

(* ===================================================================== *)
(** * What the trace says about files and attempts *)
(* ===================================================================== *)

Module Observe.

(** The calls of [pdfkit.from_file] in a trace: the options of each and
    how it ended. *)
Definition attempts (t : list event) : list (odict * outcome unit) :=
  omap (fun ev => match ev with
                  | EvFromFile _ _ options r => Some (options, r)
                  | _ => None
                  end) t.

(** The number of times a file was opened for reading with [encoding]. *)
Definition is_open_with (encoding : string) (ev : event) : bool :=
  match ev with
  | EvOpen _ mode enc _ =>
      bool_decide (mode = "r"%string) && bool_decide (enc = encoding)
  | _ => false
  end.

Definition opens (encoding : string) (t : list event) : nat :=
  length (List.filter (is_open_with encoding) t).

(** [dir] as a prefix of the paths inside it. *)
Definition dir_prefix (dir : string) : string :=
  if bool_decide (dir = EmptyString) || endswith dir "/" then dir
  else dir +:+ "/".

Definition inside (dir path : string) : bool :=
  bool_decide (path = dir) || startswith path (dir_prefix dir).

(** The temporary directories and the files written that exist after a
    trace: [TemporaryDirectory()] makes a directory, opening a file for
    writing makes the file, and the clean-up of a directory removes it
    with all that is inside. *)
Definition paths_step (paths : list string) (ev : event) : list string :=
  match ev with
  | EvTemporaryDirectory (Ok dir) => dir :: paths
  | EvOpen path mode _ (Ok _) =>
      if bool_decide (mode = "w"%string) then path :: paths else paths
  | EvCleanup dir => List.filter (fun p => negb (inside dir p)) paths
  | _ => paths
  end.

Definition paths (t : list event) : list string := foldl paths_step [] t.

(** What the attempts [tried] of one call of [_convert_to_pdf] with the
    full options [options] and the result [r] must be: none, when the
    call fails before the first; one with the full options, which
    returned, or raised what is no [Exception] and goes on as it is; or
    two, the first with the full options raising an [Exception], the
    second with the reduced options deciding the result. *)
Definition retry_protocol (options : odict) (r : outcome unit)
    (tried : list (odict * outcome unit)) : Prop :=
  match tried with
  | [] => is_ok r = false
  | [(o1, r1)] =>
      o1 = options ∧
      (r1 = Ok tt ∧ r = Ok tt
       ∨ ∃ e1, r1 = Raised e1 ∧ isinstance e1 Exception = false ∧ r = Raised e1)
  | [(o1, r1); (o2, r2)] =>
      o1 = options ∧ o2 = retry_options_of options ∧
      (∃ e1, r1 = Raised e1 ∧ isinstance e1 Exception = true) ∧
      match r2 with
      | Ok _ => r = Ok tt
      | Raised e2 =>
          r = Raised (if isinstance e2 Exception then pdf_failed e2 else e2)
      end
  | _ => False
  end.

End Observe.

Import Observe.

(* ===================================================================== *)
(** * A scripted environment *)
(* ===================================================================== *)

Module Scenario.

(** An environment given by the answers of the collaborators: what the
    paths name, the text of the input under each encoding, the user
    configuration, the rendered HTML, and how the first and the later
    runs of wkhtmltopdf on a file end. *)
Record script : Type := Script {
  files : list (string * file_kind);
  utf8_text : outcome string;
  latin1_text : outcome string;
  user_config : outcome value;
  rendered : outcome string;
  first_render : outcome unit;
  second_render : outcome unit;
  command_line : outcome args
}.

Definition is_from_file (ev : event) : bool :=
  match ev with EvFromFile _ _ _ _ => true | _ => false end.

Definition env_of (s : script) : environment := {|
  os_stat := fun _ path => dict_get (files s) path;
  open_ := fun _ path mode _ =>
    if bool_decide (mode = "r"%string) then
      match dict_get (files s) path with
      | None => Raised (Exn OSError "No such file or directory")
      | Some _ => Ok tt
      end
    else Ok tt;
  file_read := fun _ _ encoding =>
    if bool_decide (encoding = "utf-8"%string) then utf8_text s else latin1_text s;
  file_write := fun _ _ _ => Ok tt;
  yaml_safe_load := fun _ _ => user_config s;
  markdown_markdown := fun _ _ _ _ => rendered s;
  tempfile_TemporaryDirectory := fun _ => Ok "/tmp/tmpk3v9"%string;
  pdfkit_from_file := fun t _ _ _ =>
    if existsb is_from_file t then second_render s else first_render s;
  pdfkit_from_string := fun _ _ _ => Ok tt;
  time_strftime := fun _ _ => "2024-01-01 12:00"%string;
  argparse_parse_args := fun _ => command_line s;
  logging_FileHandler := fun _ _ => Ok tt;
  recursion_limit := 1000;
  template := fun title _ html_content _ =>
    "<title>" +:+ title +:+ "</title>" +:+ html_content
|}.

Definition decode_error : exn :=
  Exn UnicodeDecodeError "'utf-8' codec can't decode byte 0xe9".

Definition render_error : exn :=
  Exn OSError "wkhtmltopdf reported an error".

(** [markdown_to_pdf.py notes.txt out.pdf] in a directory with
    [notes.txt]: the text is not UTF-8, and the first run of wkhtmltopdf
    fails. *)
Definition hard_day : script := {|
  files := [("notes.txt"%string, RegularFile); ("."%string, Directory)];
  utf8_text := Raised decode_error;
  latin1_text := Ok "# Hello"%string;
  user_config := Ok VNone;
  rendered := Ok "<h1>Hello</h1>"%string;
  first_render := Raised render_error;
  second_render := Ok tt;
  command_line := Ok (Args "notes.txt" "out.pdf" None false None)
|}.

(** The same with a configuration file that sets the page size. *)
Definition letter_items : dict :=
  [("pdf_options"%string, VDict [("page-size"%string, VStr "Letter")])].

Definition letter : value := VDict letter_items.

Definition with_letter : script := {|
  files := [("notes.md"%string, RegularFile); ("."%string, Directory);
            ("letter.yaml"%string, RegularFile)];
  utf8_text := Ok "# Hello"%string;
  latin1_text := Ok "# Hello"%string;
  user_config := Ok letter;
  rendered := Ok "<h1>Hello</h1>"%string;
  first_render := Ok tt;
  second_render := Ok tt;
  command_line := Ok (Args "notes.md" "out.pdf" (Some "letter.yaml"%string) false None)
|}.

(** The Markdown renderer fails. *)
Definition broken_markdown : script := {|
  files := [("notes.md"%string, RegularFile); ("."%string, Directory)];
  utf8_text := Ok "# Hello"%string;
  latin1_text := Ok "# Hello"%string;
  user_config := Ok VNone;
  rendered := Raised (Exn ValueError "unknown extension");
  first_render := Ok tt;
  second_render := Ok tt;
  command_line := Ok (Args "notes.md" "out.pdf" None false None)
|}.

(** The configuration file puts a string where the style sheets are: the
    templating fails with a [TypeError]. *)
Definition bad_styles : script := {|
  files := [("notes.md"%string, RegularFile); ("."%string, Directory);
            ("styles.yaml"%string, RegularFile)];
  utf8_text := Ok "# Hello"%string;
  latin1_text := Ok "# Hello"%string;
  user_config := Ok (VDict [("css_styles"%string, VStr "body { color: red }")]);
  rendered := Ok "<h1>Hello</h1>"%string;
  first_render := Ok tt;
  second_render := Ok tt;
  command_line :=
    Ok (Args "notes.md" "out.pdf" (Some "styles.yaml"%string) false None)
|}.

(** The converter whose configuration is the default dictionary. *)
Definition plain : converter := Converter DEFAULT_CONFIG_ref.

(** The state of [hard_day] after the reading under UTF-8. *)
Definition after_utf8 : world :=
  World (objects initial_world)
    [ EvOpen "notes.txt" "r" "utf-8" (Ok tt);
      EvLog INFO "Reading Markdown file: notes.txt";
      EvRead "notes.txt" "utf-8" (Raised decode_error) ].

(** The sections of [DEFAULT_CONFIG] that make the options, and the
    options of the first attempt under the default configuration. *)
Definition default_pdf_options : dict :=
  [ ("page-size"%string, VStr "A4");
    ("margin-top"%string, VStr "20mm");
    ("margin-right"%string, VStr "20mm");
    ("margin-bottom"%string, VStr "20mm");
    ("margin-left"%string, VStr "20mm");
    ("encoding"%string, VStr "UTF-8");
    ("quiet"%string, VStr "") ].

Definition default_options : odict :=
  [ ("page-size"%string, OStr "A4");
    ("margin-top"%string, OStr "20mm");
    ("margin-right"%string, OStr "20mm");
    ("margin-bottom"%string, OStr "20mm");
    ("margin-left"%string, OStr "20mm");
    ("encoding"%string, OStr "UTF-8");
    ("quiet"%string, OStr "");
    ("creator"%string, OStr "Markdown to PDF Converter");
    ("producer"%string, OStr "Python pdfkit/wkhtmltopdf") ].

(** A user configuration: a nested dictionary, a list in the place of a
    dictionary, and a new key. *)
Definition override : dict :=
  [ ("pdf_options"%string,
      VDict [("page-size"%string, VStr "Letter"); ("zoom"%string, VInt 2)]);
    ("metadata"%string, VList [VStr "none"]);
    ("toc"%string, VBool true) ].

(** The heading that the [toc] extension renders for [# Hello]; the
    character 34 is the double quote. *)
Definition h1_with_id : string :=
  "<h1 id=" +:+ String (ascii_of_nat 34) ("hello" +:+ String (ascii_of_nat 34) ">Hello</h1>").

End Scenario.

Import Scenario.

(* ===================================================================== *)
(** * Notions for the store and the trace *)
(* ===================================================================== *)

Module Notions.

Local Open Scope nat_scope.

Section ValueInduction.
Context (P : value → Prop).
Context (Hnone : P VNone) (Hbool : ∀ b, P (VBool b)) (Hint : ∀ z, P (VInt z))
        (Hstr : ∀ s, P (VStr s))
        (Hlist : ∀ l, Forall P l → P (VList l))
        (Hdict : ∀ d : dict, Forall (fun kv => P kv.2) d → P (VDict d)).

(** Induction on a value, with the hypothesis for the elements of a
    list and for the values of a dictionary. *)
Fixpoint value_nested_ind (v : value) : P v :=
  match v with
  | VNone => Hnone
  | VBool b => Hbool b
  | VInt z => Hint z
  | VStr s => Hstr s
  | VList l =>
      Hlist l ((fix elements (l : list value) : Forall P l :=
                  match l with
                  | [] => Forall_nil_2 P
                  | x :: xs =>
                      Forall_cons_2 P x xs (value_nested_ind x) (elements xs)
                  end) l)
  | VDict d =>
      Hdict d ((fix items (d : dict) : Forall (fun kv => P kv.2) d :=
                  match d with
                  | [] => Forall_nil_2 _
                  | kv :: xs =>
                      Forall_cons_2 (fun kv => P kv.2) kv xs
                        (value_nested_ind kv.2) (items xs)
                  end) d)
  end.
End ValueInduction.

(** The two loops of [build], by name. *)
Definition build_elements : list value → heap → list oval * heap :=
  fix elements (l : list value) (h : heap) : list oval * heap :=
    match l with
    | [] => ([], h)
    | x :: xs =>
        let '(x', h1) := build x h in
        let '(xs', h2) := elements xs h1 in
        (x' :: xs', h2)
    end.

Definition build_items : dict → heap → odict * heap :=
  fix items (d : dict) (h : heap) : odict * heap :=
    match d with
    | [] => ([], h)
    | (k, x) :: xs =>
        let '(x', h1) := build x h in
        let '(xs', h2) := items xs h1 in
        ((k, x') :: xs', h2)
    end.

(** [build] adds objects to the store, and the value it returns owns the
    contents it was built from, in new objects only. *)
Definition builds (v : value) : Prop :=
  ∀ h, ∃ ext F,
    (build v h).2 = h ++ ext
    ∧ owns (h ++ ext) (build v h).1 v F
    ∧ ∀ l, l ∈ F → length h ≤ l.

(** What a merge [rec] of the objects must do for updates that nest no
    deeper than [n]: for a base and an update that own their contents
    and share no object, it returns; afterwards the base owns the merge
    of the two contents, in objects of the two, and the other objects of
    the store are as before. *)
Definition merges (n : nat) (rec : heap → loc → loc → option heap) : Prop :=
  ∀ h b u B U Fb Fu,
    owns h (ORef b) (VDict B) Fb → owns h (ORef u) (VDict U) Fu → Fb ## Fu →
    depth (VDict U) ≤ n →
    ∃ h' F', rec h b u = Some h'
      ∧ owns h' (ORef b) (VDict (Config._deep_merge B U)) F'
      ∧ F' ⊆ Fb ∪ Fu
      ∧ (∀ l, l ∉ Fb ∪ Fu → h' !! l = h !! l).

(** The keys of [update] that [base] lacks, in the order of [update]. *)
Definition new_keys {V W : Type} (base : list (string * V))
    (update : list (string * W)) : list string :=
  List.filter (fun k => negb (dict_has base k)) (keys update).

(** The keys of every dictionary of a value are distinct, as they are in
    a [dict]; the elements of a list are not looked at, [_deep_merge]
    does not look at them either. *)
Fixpoint distinct_keys (v : value) : Prop :=
  match v with
  | VDict d =>
      NoDup (keys d)
      ∧ (fix items (d : dict) : Prop :=
           match d with
           | [] => True
           | (_, x) :: d' => distinct_keys x ∧ items d'
           end) d
  | _ => True
  end.

(** The truth value of a document, as in [yaml.safe_load(f) or {}]. *)
Definition value_truthy (v : value) : bool :=
  match v with
  | VNone => false
  | VBool b => b
  | VInt z => negb (z =? 0)%Z
  | VStr s => negb (bool_decide (s = EmptyString))
  | VList l => negb (bool_decide (l = []))
  | VDict d => negb (bool_decide (d = []))
  end.

(** A computation that leaves the dictionary objects as they are and
    adds only events of the kind [P]. *)
Definition only (P : event → Prop) {A} (m : M A) : Prop :=
  ∀ w, objects (m w).2 = objects w
       ∧ ∃ evs, trace (m w).2 = trace w ++ evs ∧ Forall P evs.

(** What a conversion of [markdown_file] to [output_pdf] may do: look
    at the input and at the directory of the output, read the input,
    render, ask the time, write [temp.html] in a temporary directory, run
    wkhtmltopdf on it with the output path, and log. *)
Definition conversion_event (markdown_file output_pdf : string) (ev : event) : Prop :=
  match ev with
  | EvLog _ _ => True
  | EvIsFile path _ => path = markdown_file
  | EvIsDir path _ => path = output_dir_of output_pdf
  | EvOpen path mode _ _ =>
      path = markdown_file ∧ mode = "r"%string
      ∨ mode = "w"%string ∧ ∃ dir, path = join dir "temp.html"
  | EvRead path _ _ => path = markdown_file
  | EvWrite path _ _ => ∃ dir, path = join dir "temp.html"
  | EvMarkdown _ exts output_format _ =>
      exts = extensions ∧ output_format = "html5"%string
  | EvTemporaryDirectory _ | EvCleanup _ => True
  | EvFromFile src out _ _ => (∃ dir, src = join dir "temp.html") ∧ out = output_pdf
  | EvStrftime _ _ => True
  | EvSafeLoad _ _ | EvFromString _ _ _ | EvParseArgs _ | EvFileHandler _ _
  | EvBasicConfig _ _ => False
  end.

(** What the construction of a converter may do: open and load the
    configuration file and try wkhtmltopdf.  It does not log. *)
Definition init_event (ev : event) : Prop :=
  match ev with
  | EvOpen _ mode _ _ => mode = "r"%string
  | EvSafeLoad _ _ => True
  | EvFromString _ _ _ => True
  | _ => False
  end.

End Notions.

Import Notions.

(* ===================================================================== *)
(** * More scripted environments *)
(* ===================================================================== *)

Module Cases.

(** A configuration file whose document is empty, and one whose
    document is a text, not a mapping. *)
Definition empty_config : script := {|
  files := [("notes.md"%string, RegularFile); ("."%string, Directory);
            ("empty.yaml"%string, RegularFile)];
  utf8_text := Ok "# Hello"%string;
  latin1_text := Ok "# Hello"%string;
  user_config := Ok VNone;
  rendered := Ok "<h1>Hello</h1>"%string;
  first_render := Ok tt;
  second_render := Ok tt;
  command_line := Ok (Args "notes.md" "out.pdf" (Some "empty.yaml"%string) false None)
|}.

Definition text_config : script := {|
  files := [("notes.md"%string, RegularFile); ("."%string, Directory);
            ("text.yaml"%string, RegularFile)];
  utf8_text := Ok "# Hello"%string;
  latin1_text := Ok "# Hello"%string;
  user_config := Ok (VStr "page-size Letter");
  rendered := Ok "<h1>Hello</h1>"%string;
  first_render := Ok tt;
  second_render := Ok tt;
  command_line := Ok (Args "notes.md" "out.pdf" (Some "text.yaml"%string) false None)
|}.

(** The configuration file named on the command line does not exist. *)
Definition missing_config : script := {|
  files := [("notes.md"%string, RegularFile); ("."%string, Directory)];
  utf8_text := Ok "# Hello"%string;
  latin1_text := Ok "# Hello"%string;
  user_config := Ok VNone;
  rendered := Ok "<h1>Hello</h1>"%string;
  first_render := Ok tt;
  second_render := Ok tt;
  command_line :=
    Ok (Args "notes.md" "out.pdf" (Some "missing.yaml"%string) false None)
|}.

(** An input whose extension is in capitals. *)
Definition capitals : script := {|
  files := [("README.MD"%string, RegularFile); ("."%string, Directory)];
  utf8_text := Ok "# Hello"%string;
  latin1_text := Ok "# Hello"%string;
  user_config := Ok VNone;
  rendered := Ok "<h1>Hello</h1>"%string;
  first_render := Ok tt;
  second_render := Ok tt;
  command_line := Ok (Args "README.MD" "out.pdf" None false None)
|}.

(** [markdown_to_pdf.py --version]: [parse_args] prints the version and
    exits. *)
Definition version_only : script := {|
  files := [];
  utf8_text := Ok EmptyString;
  latin1_text := Ok EmptyString;
  user_config := Ok VNone;
  rendered := Ok EmptyString;
  first_render := Ok tt;
  second_render := Ok tt;
  command_line := Raised (Exn SystemExit "0")
|}.

(** An environment without wkhtmltopdf, and one where the log file of
    the command line [a] cannot be opened. *)
Definition without_wkhtmltopdf (E : environment) : environment := {|
  os_stat := os_stat E;
  open_ := open_ E;
  file_read := file_read E;
  file_write := file_write E;
  yaml_safe_load := yaml_safe_load E;
  markdown_markdown := markdown_markdown E;
  tempfile_TemporaryDirectory := tempfile_TemporaryDirectory E;
  pdfkit_from_file := pdfkit_from_file E;
  pdfkit_from_string := fun _ _ _ =>
    Raised (Exn OSError "No wkhtmltopdf executable found");
  time_strftime := time_strftime E;
  argparse_parse_args := argparse_parse_args E;
  logging_FileHandler := logging_FileHandler E;
  recursion_limit := recursion_limit E;
  template := template E
|}.

Definition without_log_file (E : environment) (a : args) : environment := {|
  os_stat := os_stat E;
  open_ := open_ E;
  file_read := file_read E;
  file_write := file_write E;
  yaml_safe_load := yaml_safe_load E;
  markdown_markdown := markdown_markdown E;
  tempfile_TemporaryDirectory := tempfile_TemporaryDirectory E;
  pdfkit_from_file := pdfkit_from_file E;
  pdfkit_from_string := pdfkit_from_string E;
  time_strftime := time_strftime E;
  argparse_parse_args := fun _ => Ok a;
  logging_FileHandler := fun _ _ => Raised (Exn OSError "Permission denied");
  recursion_limit := recursion_limit E;
  template := template E
|}.

End Cases.

Import Cases.

(* ===================================================================== *)
(** * Facts about the string operations *)
(* ===================================================================== *)

Section PyStrFacts.

Lemma str_app_nil_l (s : string) : EmptyString +:+ s = s.
Proof. reflexivity. Qed.

Lemma str_app_cons (c : ascii) (a b : string) :
  String c a +:+ b = String c (a +:+ b).
Proof. reflexivity. Qed.

Lemma str_length_app (a b : string) :
  String.length (a +:+ b) = (String.length a + String.length b)%nat.
Proof.
  induction a as [|c a IH]; [done |].
  rewrite str_app_cons. simpl. by rewrite IH.
Qed.

Lemma str_app_assoc (a b c : string) : (a +:+ b) +:+ c = a +:+ (b +:+ c).
Proof.
  induction a as [|x a IH]; [done |].
  rewrite !str_app_cons. by rewrite IH.
Qed.

Lemma str_drop_app (a b : string) : drop (String.length a) (a +:+ b) = b.
Proof.
  induction a as [|c a IH]; [by destruct b |].
  rewrite str_app_cons. simpl. done.
Qed.

Lemma str_take_app (a b : string) : take (String.length a) (a +:+ b) = a.
Proof.
  induction a as [|c a IH]; [by destruct b |].
  rewrite str_app_cons. simpl. by rewrite IH.
Qed.

Lemma startswith_app (p r : string) : startswith (p +:+ r) p = true.
Proof.
  induction p as [|c p IH]; [by destruct r |].
  rewrite str_app_cons. simpl. by rewrite decide_True.
Qed.

(** A prefix no longer than [x] that starts [x +:+ y] starts [x]. *)
Lemma startswith_app_l (p x y : string) :
  startswith (x +:+ y) p = true →
  (String.length p ≤ String.length x)%nat →
  startswith x p = true.
Proof.
  revert x. induction p as [|c p IH]; intros x Hs Hl; [by destruct x |].
  destruct x as [|d x]; [simpl in Hl; lia |].
  rewrite str_app_cons in Hs. simpl in *.
  case_decide; [| done]. apply IH; [done | lia].
Qed.

Lemma contains_cons (sub : string) (c : ascii) (s : string) :
  contains sub (String c s) = startswith (String c s) sub || contains sub s.
Proof. done. Qed.

Lemma contains_nil (sub : string) :
  contains sub EmptyString = startswith EmptyString sub.
Proof. simpl. by rewrite orb_false_r. Qed.

Lemma find_at_eq (sub s : string) (pos : nat) :
  find_at sub s pos =
  if startswith s sub then Z.of_nat pos
  else match s with
       | EmptyString => -1
       | String _ s' => find_at sub s' (S pos)
       end.
Proof. by destruct s. Qed.

Lemma rfind_at_cons (sub : string) (c : ascii) (s : string) (pos : nat) :
  rfind_at sub (String c s) pos =
  if 0 <=? rfind_at sub s (S pos) then rfind_at sub s (S pos)
  else if startswith (String c s) sub then Z.of_nat pos else -1.
Proof. done. Qed.

(** [sub in s] and [s.find(sub)] agree. *)
Lemma find_at_not_found (sub s : string) (pos : nat) :
  contains sub s = false → find_at sub s pos = -1.
Proof.
  revert pos. induction s as [|c s IH]; intros pos H; rewrite find_at_eq.
  - rewrite contains_nil in H. by rewrite H.
  - rewrite contains_cons in H. apply orb_false_iff in H as [H1 H2].
    rewrite H1. by apply IH.
Qed.

Lemma find_at_found (sub s : string) (pos : nat) :
  contains sub s = true → Z.of_nat pos ≤ find_at sub s pos.
Proof.
  revert pos. induction s as [|c s IH]; intros pos H; rewrite find_at_eq.
  - rewrite contains_nil in H. rewrite H. lia.
  - rewrite contains_cons in H.
    destruct (startswith (String c s) sub) eqn:Hs; [lia |].
    simpl in H. specialize (IH (S pos) H). lia.
Qed.

Lemma find_at_here (sub rest : string) (pos : nat) :
  find_at sub (sub +:+ rest) pos = Z.of_nat pos.
Proof. by rewrite find_at_eq, startswith_app. Qed.

(** The first occurrence: when [sub] does not start inside [pre], the scan
    of [pre +:+ sub +:+ rest] stops after [pre].  [sub] is given as its
    characters but the last, [sub0], and the last, [c]: an occurrence that
    starts inside [pre] lies within [pre +:+ sub0]. *)
Lemma find_at_first (sub0 : string) (c : ascii) (pre rest : string) (pos : nat) :
  let sub := sub0 +:+ String c EmptyString in
  contains sub (pre +:+ sub0) = false →
  find_at sub (pre +:+ sub +:+ rest) pos = Z.of_nat (pos + String.length pre).
Proof.
  intros sub. revert pos. induction pre as [|a pre IH]; intros pos H.
  - rewrite str_app_nil_l, find_at_here. simpl. lia.
  - rewrite str_app_cons in *. rewrite contains_cons in H.
    apply orb_false_iff in H as [H1 H2].
    rewrite find_at_eq.
    destruct (startswith (String a (pre +:+ sub +:+ rest)) sub) eqn:Hs.
    + exfalso.
      assert (startswith (String a (pre +:+ sub0)) sub = true) as Hc; [| congruence].
      apply (startswith_app_l sub (String a (pre +:+ sub0)) (String c rest)).
      * rewrite str_app_cons, str_app_assoc. unfold sub in Hs.
        rewrite str_app_assoc in Hs. exact Hs.
      * unfold sub. simpl. rewrite !str_length_app. simpl. lia.
    + rewrite IH; [| done]. simpl. lia.
Qed.

Lemma clamp_id (s : string) (i : nat) :
  (i ≤ String.length s)%nat → clamp s (Z.of_nat i) = i.
Proof.
  intros H. unfold clamp, len.
  destruct (Z.of_nat i <? 0) eqn:Hneg; lia.
Qed.

Lemma find_from (s sub : string) (start : nat) :
  (start ≤ String.length s)%nat →
  find s sub (Z.of_nat start) = find_at sub (drop start s) start.
Proof.
  intros H. unfold find, len.
  destruct (Z.of_nat start <? 0) eqn:Hneg; [lia |].
  destruct (Z.of_nat (String.length s) <? Z.of_nat start) eqn:Hlt; [lia |].
  by rewrite Nat2Z.id.
Qed.

Lemma rfind_at_not_found (sub s : string) (pos : nat) :
  contains sub s = false → rfind_at sub s pos = -1.
Proof.
  revert pos. induction s as [|c s IH]; intros pos H.
  - rewrite contains_nil in H. by destruct sub.
  - rewrite contains_cons in H. apply orb_false_iff in H as [H1 H2].
    rewrite rfind_at_cons, (IH _ H2), H1. done.
Qed.

End PyStrFacts.

(* ===================================================================== *)
(** * The title of the document *)
(* ===================================================================== *)

Section TitleFacts.

Lemma startswith_split (s p : string) :
  startswith s p = true → ∃ rest, s = p +:+ rest.
Proof.
  revert s. induction p as [|c p IH]; intros s H; [by exists s |].
  destruct s as [|d s]; [done |]. simpl in H.
  case_decide as Hcd; [| done]. subst d.
  destruct (IH s H) as [rest ->]. by exists rest.
Qed.

Lemma contains_split (sub s : string) :
  contains sub s = true → ∃ pre rest, s = pre +:+ sub +:+ rest.
Proof.
  induction s as [|c s IH]; intros H.
  - rewrite contains_nil in H. apply startswith_split in H as [rest ->].
    by exists EmptyString, rest.
  - rewrite contains_cons in H. apply orb_true_iff in H as [H | H].
    + apply startswith_split in H as [rest ->]. by exists EmptyString, rest.
    + destruct (IH H) as (pre & rest & ->). by exists (String c pre), rest.
Qed.

Lemma contains_app_here (sub pre rest : string) :
  contains sub (pre +:+ sub +:+ rest) = true.
Proof.
  induction pre as [|a pre IH].
  - rewrite str_app_nil_l. destruct (sub +:+ rest) eqn:Heq.
    + rewrite contains_nil, <- Heq. apply startswith_app.
    + rewrite contains_cons, <- Heq, startswith_app. done.
  - rewrite str_app_cons, contains_cons, IH. apply orb_true_r.
Qed.

(** No literal [<h1>]: every [<h1] goes on with something else than [>],
    as it does when the heading has attributes. *)
Lemma no_plain_h1 (html_content : string) :
  contains "<h1>" html_content = false
  ↔ ∀ pre rest, html_content = pre +:+ "<h1" +:+ rest → startswith rest ">" = false.
Proof.
  split.
  - intros H pre rest ->. destruct (startswith rest ">") eqn:Hs; [| done].
    apply startswith_split in Hs as [rest' ->].
    change (pre +:+ "<h1" +:+ ">" +:+ rest') with (pre +:+ "<h1>" +:+ rest') in H.
    by rewrite contains_app_here in H.
  - intros H. destruct (contains "<h1>" html_content) eqn:Hc; [| done].
    apply contains_split in Hc as (pre & rest & ->).
    specialize (H pre (">" +:+ rest) eq_refl).
    by rewrite (startswith_app ">" rest) in H.
Qed.

Lemma slice_middle (a b c : string) :
  slice (a +:+ b +:+ c) (Z.of_nat (String.length a))
        (Z.of_nat (String.length a + String.length b)) = b.
Proof.
  unfold slice. rewrite !clamp_id by (rewrite !str_length_app; lia).
  rewrite str_drop_app.
  replace (String.length a + String.length b - String.length a)%nat
    with (String.length b) by lia.
  apply str_take_app.
Qed.

(** [h1_start] and the search for the closing tag, for a document whose
    first [<h1>] comes after [pre]. *)
Lemma h1_start_first (pre rest : string) :
  contains "<h1>" (pre +:+ "<h1") = false →
  find (pre +:+ "<h1>" +:+ rest) "<h1>" 0 + 4 = Z.of_nat (String.length pre + 4).
Proof.
  intros Hpre. change 0 with (Z.of_nat 0) at 1. rewrite find_from by lia.
  change (drop 0 ?s) with s.
  rewrite (find_at_first "<h1" ">" pre _ 0 Hpre). lia.
Qed.

Lemma find_after_h1 (pre rest sub : string) :
  find (pre +:+ "<h1>" +:+ rest) sub (Z.of_nat (String.length pre + 4))
  = find_at sub rest (String.length pre + 4).
Proof.
  rewrite <- str_app_assoc.
  assert (String.length (pre +:+ "<h1>") = (String.length pre + 4)%nat) as Hl
    by (by rewrite str_length_app).
  rewrite find_from by (rewrite str_length_app, Hl; lia).
  by rewrite <- Hl, str_drop_app.
Qed.

Lemma convert_title_at_h1 (markdown_file pre rest : string) :
  contains "<h1>" (pre +:+ "<h1") = false →
  convert_title markdown_file (pre +:+ "<h1>" +:+ rest)
  = let h1_start := Z.of_nat (String.length pre + 4) in
    let h1_end := find_at "</h1>" rest (String.length pre + 4) in
    if h1_start <? h1_end
    then strip (slice (pre +:+ "<h1>" +:+ rest) h1_start h1_end)
    else (splitext (basename markdown_file)).1.
Proof.
  intros Hpre. unfold convert_title.
  rewrite contains_app_here, (h1_start_first pre rest Hpre), find_after_h1.
  rewrite (proj2 (Z.ltb_lt 3 _)) by lia. done.
Qed.

Lemma title_first_h1 (markdown_file pre t post : string) :
  contains "<h1>" (pre +:+ "<h1") = false →
  contains "</h1>" (t +:+ "</h1") = false →
  t ≠ EmptyString →
  convert_title markdown_file (pre +:+ "<h1>" +:+ t +:+ "</h1>" +:+ post) = strip t.
Proof.
  intros Hpre Ht Hne.
  assert (0 < String.length t)%nat as Hlen by (destruct t; [done | simpl; lia]).
  rewrite (convert_title_at_h1 _ _ _ Hpre). cbv zeta.
  rewrite (find_at_first "</h1" ">" t post _ Ht).
  rewrite (proj2 (Z.ltb_lt _ _)) by lia.
  rewrite <- str_app_assoc.
  replace (String.length pre + 4)%nat with (String.length (pre +:+ "<h1>"))
    by (by rewrite str_length_app).
  by rewrite slice_middle.
Qed.

Lemma title_unclosed_h1 (markdown_file pre rest : string) :
  contains "<h1>" (pre +:+ "<h1") = false →
  contains "</h1>" rest = false →
  convert_title markdown_file (pre +:+ "<h1>" +:+ rest)
  = (splitext (basename markdown_file)).1.
Proof.
  intros Hpre Hrest. rewrite (convert_title_at_h1 _ _ _ Hpre). cbv zeta.
  rewrite (find_at_not_found _ _ _ Hrest).
  by rewrite (proj2 (Z.ltb_ge _ (-1))) by lia.
Qed.

(** An empty heading: the closing tag is found at [h1_start], not after
    it, and the base name stays. *)
Lemma title_empty_h1 (markdown_file pre post : string) :
  contains "<h1>" (pre +:+ "<h1") = false →
  convert_title markdown_file (pre +:+ "<h1>" +:+ "</h1>" +:+ post)
  = (splitext (basename markdown_file)).1.
Proof.
  intros Hpre. rewrite (convert_title_at_h1 _ _ _ Hpre). cbv zeta.
  rewrite find_at_here. by rewrite Z.ltb_irrefl.
Qed.

(** C2.  A document whose first [<h1>] is closed by [</h1>] after a
    non-empty text [t] has the title [t.strip()]: [pre] is what comes
    before the first [<h1>] (no [<h1>] starts inside it) and [t] what
    comes before the next [</h1>].  A document without [<h1>] has the base
    name of the input file without its extension as title. *)
Theorem title_extraction :
  (∀ markdown_file pre t post,
     contains "<h1>" (pre +:+ "<h1") = false →
     contains "</h1>" (t +:+ "</h1") = false →
     t ≠ EmptyString →
     convert_title markdown_file (pre +:+ "<h1>" +:+ t +:+ "</h1>" +:+ post)
     = strip t)
  ∧ (∀ markdown_file html_content,
       contains "<h1>" html_content = false →
       convert_title markdown_file html_content
       = (splitext (basename markdown_file)).1).
Proof.
  split.
  - apply title_first_h1.
  - intros markdown_file html_content H. unfold convert_title. by rewrite H.
Qed.

(** C9.  Only the literal [<h1>] counts.  When every [<h1] of the
    document goes on with something else than [>] (attributes), the title
    is the base name of the input file; so it is when the first [<h1>] is
    followed by no [</h1>]; and the heading [<h1 id=...>Hello</h1>] that
    the [toc] extension renders leaves the title of [notes.md] at
    [notes]. *)
Theorem title_needs_plain_h1 :
  (∀ markdown_file html_content,
     (∀ pre rest, html_content = pre +:+ "<h1" +:+ rest →
                  startswith rest ">" = false) →
     convert_title markdown_file html_content
     = (splitext (basename markdown_file)).1)
  ∧ (∀ markdown_file pre rest,
       contains "<h1>" (pre +:+ "<h1") = false →
       contains "</h1>" rest = false →
       convert_title markdown_file (pre +:+ "<h1>" +:+ rest)
       = (splitext (basename markdown_file)).1)
  ∧ convert_title "notes.md" h1_with_id = "notes"%string.
Proof.
  split; [| split].
  - intros markdown_file html_content H%no_plain_h1.
    unfold convert_title. by rewrite H.
  - apply title_unclosed_h1.
  - vm_compute. reflexivity.
Qed.

End TitleFacts.

Lemma title_extraction_witness :
  convert_title "notes.md" ("<p>intro</p>" +:+ "<h1>" +:+ " Title " +:+ "</h1>" +:+ "<p>text</p>")
  = strip " Title "
  ∧ convert_title "docs/notes.md" "<p>no heading</p>"
    = (splitext (basename "docs/notes.md")).1.
Proof.
  split.
  - apply (proj1 title_extraction); [reflexivity | reflexivity | discriminate].
  - apply (proj2 title_extraction). reflexivity.
Defined.

Lemma title_needs_plain_h1_witness :
  convert_title "notes.md" h1_with_id = (splitext (basename "notes.md")).1
  ∧ convert_title "notes.md" ("<p>a</p>" +:+ "<h1>" +:+ "Hello")
    = (splitext (basename "notes.md")).1.
Proof.
  split.
  - apply (proj1 title_needs_plain_h1). apply no_plain_h1. reflexivity.
  - apply (proj1 (proj2 title_needs_plain_h1)); reflexivity.
Defined.

(* ===================================================================== *)
(** * Dictionaries and the deep merge *)
(* ===================================================================== *)

Section DictFacts.
Context {V : Type}.
Implicit Types (d : list (string * V)) (k : string) (v : V).

Lemma dict_get_set_eq d k v : dict_get (dict_set d k v) k = Some v.
Proof.
  induction d as [|[k' v'] d IH]; simpl.
  - by rewrite decide_True.
  - destruct (decide (k' = k)) as [->|Hne]; simpl.
    + by rewrite decide_True.
    + by rewrite decide_False.
Qed.

Lemma dict_get_set_ne d k k' v :
  k ≠ k' → dict_get (dict_set d k v) k' = dict_get d k'.
Proof.
  intros Hne. induction d as [|[k0 v0] d IH]; simpl.
  - by rewrite decide_False.
  - destruct (decide (k0 = k)) as [->|Hne0]; simpl.
    + by rewrite !decide_False.
    + destruct (decide (k0 = k')); [done | apply IH].
Qed.

Lemma dict_get_None d k : dict_get d k = None ↔ k ∉ keys d.
Proof.
  unfold keys. induction d as [|[k0 v0] d IH]; simpl.
  - split; [intros _; apply not_elem_of_nil | done].
  - rewrite not_elem_of_cons. destruct (decide (k0 = k)) as [->|Hne].
    + split; [done | intros [? _]; done].
    + rewrite IH. split; [intros H; split; [congruence | done] | by intros [_ H]].
Qed.

(** An assignment keeps the order of the keys and puts a new key last. *)
Lemma keys_dict_set d k v :
  keys (dict_set d k v) = if dict_has d k then keys d else keys d ++ [k].
Proof.
  unfold keys, dict_has. induction d as [|[k0 v0] d IH]; [done |].
  cbn [dict_set dict_get].
  destruct (decide (k0 = k)) as [->|Hne]; [done |].
  rewrite !fmap_cons, IH. by destruct (dict_get d k).
Qed.
End DictFacts.

Section DeepMergeFacts.

Lemma _deep_merge_nil (base : dict) : Config._deep_merge base [] = base.
Proof. done. Qed.

(** The loop of [_deep_merge], one item at a time. *)
Lemma _deep_merge_cons (base : dict) (key : string) (value : value) (rest : dict) :
  Config._deep_merge base ((key, value) :: rest)
  = Config._deep_merge (merge_item base key value) rest.
Proof.
  unfold Config._deep_merge, merge_item. simpl.
  destruct (dict_get base key) as [[]|]; try done.
  by destruct value.
Qed.

Lemma merge_item_other (base : dict) (key k : string) (value : value) :
  key ≠ k → dict_get (merge_item base key value) k = dict_get base k.
Proof.
  intros Hne. unfold merge_item.
  destruct (dict_get base key) as [[]|]; try destruct value;
    by rewrite dict_get_set_ne.
Qed.

Lemma _deep_merge_absent (base update : dict) (k : string) :
  dict_get update k = None →
  dict_get (Config._deep_merge base update) k = dict_get base k.
Proof.
  revert base. induction update as [|[k0 v0] rest IH]; intros base H; [done |].
  rewrite _deep_merge_cons. simpl in H.
  destruct (decide (k0 = k)) as [|Hne]; [done |].
  rewrite IH by done. by apply merge_item_other.
Qed.

Lemma _deep_merge_present (base update : dict) (k : string) (v : value) :
  NoDup (keys update) →
  dict_get update k = Some v →
  dict_get (Config._deep_merge base update) k = dict_get (merge_item base k v) k.
Proof.
  revert base. induction update as [|[k0 v0] rest IH]; intros base Hnd H; [done |].
  rewrite _deep_merge_cons. simpl in H.
  apply NoDup_cons in Hnd as [Hnotin Hnd].
  destruct (decide (k0 = k)) as [->|Hne].
  - injection H as ->. apply _deep_merge_absent. by apply dict_get_None.
  - rewrite IH by done. unfold merge_item at 1 3.
    rewrite (merge_item_other base k0 k v0 Hne).
    destruct (dict_get base k) as [[]|]; try destruct v;
      by rewrite !dict_get_set_eq.
Qed.

(** The keys of the result: those of [base] in their order, then the new
    keys of [update] in theirs. *)
Lemma merge_item_keys (base : dict) (key : string) (value : value) :
  keys (merge_item base key value)
  = if dict_has base key then keys base else keys base ++ [key].
Proof.
  unfold merge_item.
  destruct (dict_get base key) as [[]|] eqn:Hg; try destruct value;
    by rewrite keys_dict_set.
Qed.

(** C1.  For a base [B] and an override [O] (a dictionary: its keys are
    distinct), the merged dictionary has, under every key of [B] that [O]
    lacks, the value of [B]; under a key where both hold dictionaries, the
    merge of the two; and under every other key of [O], the value of [O],
    whatever [B] held there (also a list or a string). *)
Theorem deep_merge_spec (base update : dict) :
  NoDup (keys update) →
  (∀ k, dict_get update k = None →
        dict_get (Config._deep_merge base update) k = dict_get base k)
  ∧ (∀ k b u, dict_get base k = Some (VDict b) →
              dict_get update k = Some (VDict u) →
              dict_get (Config._deep_merge base update) k
              = Some (VDict (Config._deep_merge b u)))
  ∧ (∀ k v, dict_get update k = Some v →
            (is_dict v = false ∨ ∀ b, dict_get base k ≠ Some (VDict b)) →
            dict_get (Config._deep_merge base update) k = Some v).
Proof.
  intros Hnd. split; [| split].
  - intros k. apply _deep_merge_absent.
  - intros k b u Hb Hu. rewrite (_deep_merge_present _ _ _ _ Hnd Hu).
    unfold merge_item. rewrite Hb. apply dict_get_set_eq.
  - intros k v Hu Hnot. rewrite (_deep_merge_present _ _ _ _ Hnd Hu).
    unfold merge_item.
    destruct (dict_get base k) as [[]|] eqn:Hb; try apply dict_get_set_eq.
    destruct v; try apply dict_get_set_eq.
    destruct Hnot as [Hd | Hb']; [done | by destruct (Hb' d)].
Qed.

End DeepMergeFacts.

Lemma deep_merge_spec_witness :
  dict_get (Config._deep_merge DEFAULT_CONFIG override) "css_styles"
  = dict_get DEFAULT_CONFIG "css_styles"
  ∧ dict_get (Config._deep_merge DEFAULT_CONFIG override) "pdf_options"
    = Some (VDict (Config._deep_merge default_pdf_options
                     [("page-size"%string, VStr "Letter"); ("zoom"%string, VInt 2)]))
  ∧ dict_get (Config._deep_merge DEFAULT_CONFIG override) "metadata"
    = Some (VList [VStr "none"]).
Proof.
  assert (NoDup (keys override)) as Hnd
    by (apply (bool_decide_unpack _); vm_compute; exact I).
  destruct (deep_merge_spec DEFAULT_CONFIG override Hnd) as (H1 & H2 & H3).
  split; [| split].
  - apply H1. reflexivity.
  - apply H2; reflexivity.
  - apply H3; [reflexivity | by left].
Defined.

(* ===================================================================== *)
(** * Running the converter *)
(* ===================================================================== *)

Section MonadFacts.
Context {A B : Type}.

Lemma bind_ok (m : M A) (f : A → M B) (w w' : world) (a : A) :
  m w = (Ok a, w') → (m ≫= f) w = f a w'.
Proof. intros H. unfold mbind, M_bind. by rewrite H. Qed.

Lemma bind_raised (m : M A) (f : A → M B) (w w' : world) (e : exn) :
  m w = (Raised e, w') → (m ≫= f) w = (Raised e, w').
Proof. intros H. unfold mbind, M_bind. by rewrite H. Qed.

Lemma bind_inv_ok (m : M A) (f : A → M B) (w w' : world) (b : B) :
  (m ≫= f) w = (Ok b, w') →
  ∃ a w1, m w = (Ok a, w1) ∧ f a w1 = (Ok b, w').
Proof.
  unfold mbind, M_bind. destruct (m w) as [[a|e] w1]; [eauto | done].
Qed.
End MonadFacts.

#[local] Arguments endswith_any : simpl never.
#[local] Arguments join : simpl never.
#[local] Arguments output_dir_of : simpl never.
#[local] Arguments retry_options_of : simpl never.
#[local] Arguments convert_title : simpl never.
#[local] Arguments new_error : simpl never.
#[local] Arguments isinstance : simpl never.

(** Unfold the monad, then split on what a collaborator answers and on the
    class of what it raises. *)
Ltac run :=
  unfold with_TemporaryDirectory, leaving, try_except, call, ask,
    from_file, logger, emit, lift, mbind, M_bind, mret, M_ret, raise; simpl.

Ltac branch :=
  match goal with
  | |- context [match ?o with Ok _ => _ | Raised _ => _ end] =>
      let H := fresh "Hcall" in destruct o eqn:H; simpl
  | |- context [if isinstance ?e ?c then _ else _] =>
      let H := fresh "Hinst" in destruct (isinstance e c) eqn:H; simpl
  end.

Ltac tidy :=
  repeat match goal with
    | u : unit |- _ => destruct u
    | H : isinstance _ _ = _ |- _ => rewrite H
    end.

(* ===================================================================== *)
(** * Validation of the paths *)
(* ===================================================================== *)

Section ValidateFacts.
Context (E : environment).

Lemma slice_to_0 (s : string) : slice_to s 0 = EmptyString.
Proof.
  unfold slice_to, clamp, len. simpl.
  replace (Z.to_nat (0 `min` Z.of_nat (String.length s))) with 0%nat by lia.
  by destruct s.
Qed.

Lemma dirname_bare (p : string) : contains "/" p = false → dirname p = EmptyString.
Proof.
  intros H. unfold dirname, rfind.
  rewrite (rfind_at_not_found "/" p 0 H).
  change (-1 + 1) with 0. by rewrite slice_to_0.
Qed.

Lemma output_dir_bare (output_pdf : string) :
  contains "/" output_pdf = false → output_dir_of output_pdf = ".".
Proof. intros H. unfold output_dir_of. by rewrite dirname_bare. Qed.

Lemma isfile_stat (t : list event) (path : string) :
  os_stat E t path = None → os_path_isfile E t path = false.
Proof. intros H. unfold os_path_isfile. by rewrite H. Qed.

Lemma isdir_stat (t : list event) (path : string) :
  os_stat E t path = None → os_path_isdir E t path = false.
Proof. intros H. unfold os_path_isdir. by rewrite H. Qed.

(** The three ways [_validate_inputs] ends. *)
Lemma _validate_inputs_no_file (markdown_file output_pdf : string) (w : world) :
  os_path_isfile E (trace w) markdown_file = false →
  _validate_inputs E markdown_file output_pdf w
  = (Raised (new_error InputValidationError
               ("Input file does not exist: " +:+ markdown_file)),
     World (objects w) (trace w ++ [EvIsFile markdown_file false])).
Proof. intros H. unfold _validate_inputs. run. by rewrite H. Qed.

Lemma _validate_inputs_no_dir (markdown_file output_pdf : string) (w : world) :
  os_path_isfile E (trace w) markdown_file = true →
  os_path_isdir E (trace w ++ [EvIsFile markdown_file true])
    (output_dir_of output_pdf) = false →
  _validate_inputs E markdown_file output_pdf w
  = (Raised (new_error InputValidationError
               ("Output directory does not exist: " +:+ output_dir_of output_pdf)),
     World (objects w)
       ((trace w ++ [EvIsFile markdown_file true])
          ++ [EvIsDir (output_dir_of output_pdf) false])).
Proof.
  intros H1 H2. unfold _validate_inputs. run.
  rewrite H1. simpl. by rewrite H2.
Qed.

Lemma _validate_inputs_ok (markdown_file output_pdf : string) (w : world) :
  os_path_isfile E (trace w) markdown_file = true →
  os_path_isdir E (trace w ++ [EvIsFile markdown_file true])
    (output_dir_of output_pdf) = true →
  _validate_inputs E markdown_file output_pdf w
  = (Ok tt,
     World (objects w)
       (((trace w ++ [EvIsFile markdown_file true])
           ++ [EvIsDir (output_dir_of output_pdf) true])
          ++ (if endswith_any (lower markdown_file) [".md"; ".markdown"] then []
              else [EvLog WARNING
                      ("Input file '" +:+ markdown_file
                       +:+ "' does not have a standard Markdown extension")]))).
Proof.
  intros H1 H2. unfold _validate_inputs. run. rewrite H1. simpl.
  rewrite H2. simpl.
  destruct (endswith_any _ _); simpl; [| done].
  by rewrite app_nil_r; destruct w.
Qed.

(** An error of validation leaves [convert] as it is. *)
Lemma convert_validation_error (self : converter) (markdown_file output_pdf : string)
    (w w' : world) (msg : string) :
  _validate_inputs E markdown_file output_pdf w
  = (Raised (new_error InputValidationError msg), w') →
  ∃ w'', convert E self markdown_file output_pdf w
         = (Raised (new_error InputValidationError msg), w'').
Proof.
  intros H. unfold convert, convert_body, try_except.
  rewrite (bind_raised _ _ _ _ _ H). simpl. run. eauto.
Qed.

(** C5.  [convert] ends with an [InputValidationError] when the input
    path names nothing, and when the directory of the output path names
    nothing; [t1] is the trace after the check of the input.  With both in
    place, an input name that ends in neither [.md] nor [.markdown] only
    adds a warning to the log: [_validate_inputs] returns. *)
Theorem input_validation (self : converter) (markdown_file output_pdf : string)
    (w : world) :
  let t1 := trace w ++ [EvIsFile markdown_file
                          (os_path_isfile E (trace w) markdown_file)] in
  (os_stat E (trace w) markdown_file = None →
   ∃ msg w', convert E self markdown_file output_pdf w
             = (Raised (new_error InputValidationError msg), w'))
  ∧ (os_stat E t1 (output_dir_of output_pdf) = None →
     ∃ msg w', convert E self markdown_file output_pdf w
               = (Raised (new_error InputValidationError msg), w'))
  ∧ (os_path_isfile E (trace w) markdown_file = true →
     os_path_isdir E t1 (output_dir_of output_pdf) = true →
     endswith_any (lower markdown_file) [".md"; ".markdown"] = false →
     ∃ msg, _validate_inputs E markdown_file output_pdf w
            = (Ok tt,
               World (objects w)
                 (t1 ++ [EvIsDir (output_dir_of output_pdf) true;
                         EvLog WARNING msg]))).
Proof.
  intros t1. split; [| split].
  - intros H%isfile_stat. eexists.
    eapply convert_validation_error, _validate_inputs_no_file, H.
  - intros H%isdir_stat. subst t1.
    destruct (os_path_isfile E (trace w) markdown_file) eqn:Hf.
    + eexists. eapply convert_validation_error, _validate_inputs_no_dir; done.
    + eexists. eapply convert_validation_error, _validate_inputs_no_file, Hf.
  - intros Hf Hd Hext. subst t1. rewrite Hf in *.
    rewrite (_validate_inputs_ok _ _ _ Hf Hd), Hext.
    eexists. by rewrite <- (assoc_L (++)).
Qed.

(** C10.  An output path without a slash has the directory [.]: with the
    input a file and [.] a directory, [_validate_inputs] returns and
    raises nothing. *)
Theorem bare_output_filename (markdown_file output_pdf : string) (w : world) :
  contains "/" output_pdf = false →
  output_dir_of output_pdf = "."
  ∧ (os_path_isfile E (trace w) markdown_file = true →
     os_path_isdir E (trace w ++ [EvIsFile markdown_file true]) "." = true →
     (_validate_inputs E markdown_file output_pdf w).1 = Ok tt).
Proof.
  intros H%output_dir_bare. split; [done |].
  intros Hf Hd. rewrite <- H in Hd.
  by rewrite (_validate_inputs_ok _ _ _ Hf Hd).
Qed.
End ValidateFacts.

Lemma input_validation_witness :
  (∃ msg w', convert (env_of hard_day) plain "missing.md" "out.pdf" initial_world
             = (Raised (new_error InputValidationError msg), w'))
  ∧ (∃ msg w', convert (env_of hard_day) plain "notes.txt" "build/out.pdf" initial_world
               = (Raised (new_error InputValidationError msg), w'))
  ∧ (∃ msg, _validate_inputs (env_of hard_day) "notes.txt" "out.pdf" initial_world
            = (Ok tt,
               World (objects initial_world)
                 [EvIsFile "notes.txt" true; EvIsDir "." true; EvLog WARNING msg])).
Proof.
  split; [| split].
  - apply (proj1 (input_validation (env_of hard_day) plain "missing.md" "out.pdf"
                    initial_world)).
    reflexivity.
  - apply (proj1 (proj2 (input_validation (env_of hard_day) plain "notes.txt"
                           "build/out.pdf" initial_world))).
    reflexivity.
  - apply (proj2 (proj2 (input_validation (env_of hard_day) plain "notes.txt"
                           "out.pdf" initial_world))); reflexivity.
Defined.

Lemma bare_output_filename_witness :
  output_dir_of "out.pdf" = "."%string
  ∧ (_validate_inputs (env_of hard_day) "notes.txt" "out.pdf" initial_world).1 = Ok tt.
Proof.
  destruct (bare_output_filename (env_of hard_day) "notes.txt" "out.pdf"
              initial_world eq_refl) as [Hdir Hok].
  split; [exact Hdir | apply Hok; reflexivity].
Defined.

(* ===================================================================== *)
(** * Reading the input *)
(* ===================================================================== *)

Section ReadFacts.
Context (E : environment).

Lemma opens_app (encoding : string) (t1 t2 : list event) :
  opens encoding (t1 ++ t2) = (opens encoding t1 + opens encoding t2)%nat.
Proof. unfold opens. by rewrite List.filter_app, length_app. Qed.

(** One [with open(...)] block opens the file once, with its encoding. *)
Lemma read_with_opens (markdown_file encoding : string) (lvl : level) (msg : string)
    (w : world) (enc : string) :
  opens enc (trace (read_with E markdown_file encoding (logger lvl msg) w).2)
  = (opens enc (trace w) + if bool_decide (encoding = enc) then 1 else 0)%nat.
Proof.
  unfold read_with. run.
  destruct (open_ E (trace w) markdown_file "r" encoding) eqn:Ho; simpl.
  - rewrite !opens_app. unfold opens at 2 3 4. simpl.
    case_bool_decide; simpl; lia.
  - rewrite !opens_app. unfold opens at 2. simpl.
    case_bool_decide; simpl; lia.
Qed.

(** C6.  When the reading under UTF-8 ends with a [UnicodeDecodeError],
    [_read_markdown] reads once more, under latin-1, and ends as that
    reading does: with its text, or, when it raises an [Exception], with
    the [ConversionError] that wraps it.  The file is opened under latin-1
    exactly once. *)
Theorem encoding_fallback (markdown_file : string) (w w1 : world) (e : exn) :
  read_utf8 E markdown_file w = (Raised e, w1) →
  isinstance e UnicodeDecodeError = true →
  _read_markdown E markdown_file w
  = (match (read_latin1 E markdown_file w1).1 with
     | Ok text => Ok text
     | Raised e2 =>
         Raised (if isinstance e2 Exception
                 then read_failed markdown_file e2 else e2)
     end,
     (read_latin1 E markdown_file w1).2)
  ∧ opens "latin-1" (trace (_read_markdown E markdown_file w).2)
    = S (opens "latin-1" (trace w)).
Proof.
  intros H1 Hude.
  assert (_read_markdown E markdown_file w
          = (match (read_latin1 E markdown_file w1).1 with
             | Ok text => Ok text
             | Raised e2 =>
                 Raised (if isinstance e2 Exception
                         then read_failed markdown_file e2 else e2)
             end,
             (read_latin1 E markdown_file w1).2)) as Heq.
  { unfold _read_markdown. unfold try_except at 1. rewrite H1.
    simpl. rewrite Hude. simpl. unfold try_except.
    destruct (read_latin1 E markdown_file w1) as [[text|e2] w2]; [done |].
    simpl. by destruct (isinstance e2 Exception). }
  split; [done |].
  rewrite Heq. simpl. unfold read_latin1. rewrite read_with_opens.
  pose proof (read_with_opens markdown_file "utf-8" INFO
                ("Reading Markdown file: " +:+ markdown_file) w "latin-1") as Hu.
  unfold read_utf8 in H1. rewrite H1 in Hu. simpl in Hu. rewrite Hu.
  rewrite bool_decide_true by done. lia.
Qed.

(** Without a decoding error there is no second reading. *)
Lemma _read_markdown_first_ok (markdown_file : string) (w w1 : world) (text : string) :
  read_utf8 E markdown_file w = (Ok text, w1) →
  _read_markdown E markdown_file w = (Ok text, w1).
Proof. intros H. unfold _read_markdown, try_except. by rewrite H. Qed.

Lemma _read_markdown_other_error (markdown_file : string) (w w1 : world) (e : exn) :
  read_utf8 E markdown_file w = (Raised e, w1) →
  isinstance e UnicodeDecodeError = false →
  _read_markdown E markdown_file w
  = (Raised (if isinstance e Exception then read_failed markdown_file e else e), w1).
Proof.
  intros H Hude. unfold _read_markdown, try_except. rewrite H. simpl.
  rewrite Hude. simpl. by destruct (isinstance e Exception).
Qed.
End ReadFacts.

Lemma encoding_fallback_witness :
  _read_markdown (env_of hard_day) "notes.txt" initial_world
  = (match (read_latin1 (env_of hard_day) "notes.txt" after_utf8).1 with
     | Ok text => Ok text
     | Raised e2 =>
         Raised (if isinstance e2 Exception
                 then read_failed "notes.txt" e2 else e2)
     end,
     (read_latin1 (env_of hard_day) "notes.txt" after_utf8).2)
  ∧ opens "latin-1" (trace (_read_markdown (env_of hard_day) "notes.txt" initial_world).2)
    = S (opens "latin-1" (trace initial_world)).
Proof.
  apply (encoding_fallback (env_of hard_day) "notes.txt" initial_world after_utf8
           decode_error); vm_compute; reflexivity.
Defined.

(* ===================================================================== *)
(** * Rendering the PDF *)
(* ===================================================================== *)

Section PdfFacts.
Context (E : environment).

Lemma paths_app (t1 t2 : list event) :
  paths (t1 ++ t2) = foldl paths_step (paths t1) t2.
Proof. unfold paths. by rewrite foldl_app. Qed.

Lemma inside_self (dir : string) : inside dir dir = true.
Proof. unfold inside. by rewrite bool_decide_true. Qed.

Lemma startswith_join (dir name : string) :
  startswith name "/" = false →
  startswith (join dir name) (dir_prefix dir) = true.
Proof.
  intros H. unfold join, dir_prefix. rewrite H.
  destruct (bool_decide (dir = EmptyString) || endswith dir "/").
  - apply startswith_app.
  - rewrite <- str_app_assoc. apply startswith_app.
Qed.

Lemma inside_temp_html (dir : string) : inside dir (join dir "temp.html") = true.
Proof.
  unfold inside. rewrite startswith_join by done. apply orb_true_r.
Qed.

Lemma filter_filter_same {A} (f : A → bool) (l : list A) :
  List.filter f (List.filter f l) = List.filter f l.
Proof.
  induction l as [|x l IH]; [done |]. simpl.
  destruct (f x) eqn:Hx; simpl; [by rewrite Hx, IH | done].
Qed.

(** C4.  With the full options [options] (the [pdf_options] section
    updated with [metadata]), the calls of [pdfkit.from_file] that
    [_convert_to_pdf] makes follow [retry_protocol]: the first has the full
    options; a second is made exactly when the first raised an
    [Exception], and has the options [quiet], [page-size] and [encoding]
    only; when the second raises an [Exception] too, the result is the
    [ConversionError] that carries its text. *)
Theorem pdf_render_retry (self : converter) (html_content output_pdf : string)
    (w : world) (options : odict) :
  full_options (objects w) self = Ok options →
  keys (retry_options_of options) = ["quiet"; "page-size"; "encoding"]%string
  ∧ dict_get (retry_options_of options) "page-size"
    = Some (default (OStr "A4") (dict_get options "page-size"))
  ∧ ∃ evs,
      trace (_convert_to_pdf E self html_content output_pdf w).2 = trace w ++ evs
      ∧ retry_protocol options
          (_convert_to_pdf E self html_content output_pdf w).1 (attempts evs).
Proof.
  intros Hfull. split; [done |]. split; [done |].
  unfold _convert_to_pdf, retry_protocol. run. rewrite Hfull. simpl.
  repeat branch.
  all: eexists; (split; [rewrite <- ?(assoc_L (++)); reflexivity |]).
  all: simpl; try congruence; tidy.
  all: try (by repeat split; eauto).
  all: try (by split; [done | right; eauto]).
Qed.

(** C8.  [_convert_to_pdf] leaves no temporary directory behind.  Either
    it makes none (the options or [TemporaryDirectory()] fail), or its
    events are the making of [dir], a body that makes and removes no
    directory and writes no file but [dir/temp.html], and the clean-up of
    [dir] as the last event, whatever the result is; the paths that exist
    afterwards are those that existed before, outside [dir]. *)
Theorem temporary_directory_cleanup (self : converter)
    (html_content output_pdf : string) (w : world) :
  let t := trace (_convert_to_pdf E self html_content output_pdf w).2 in
  (t = trace w ∧ paths t = paths (trace w))
  ∨ (∃ e, t = trace w ++ [EvTemporaryDirectory (Raised e)]
          ∧ paths t = paths (trace w))
  ∨ (∃ dir body,
       t = trace w ++ [EvTemporaryDirectory (Ok dir)] ++ body ++ [EvCleanup dir]
       ∧ Forall (fun ev => match ev with
                           | EvTemporaryDirectory _ | EvCleanup _ => False
                           | EvOpen path mode _ _ =>
                               mode = "w"%string → path = join dir "temp.html"
                           | _ => True
                           end) body
       ∧ paths t = List.filter (fun p => negb (inside dir p)) (paths (trace w))).
Proof.
  unfold _convert_to_pdf. run.
  destruct (full_options (objects w) self) as [options|e]; simpl;
    [| by left].
  destruct (tempfile_TemporaryDirectory E (trace w)) as [dir|e] eqn:Hdir; simpl.
  2: { right; left. exists e. split; [done |]. by rewrite paths_app. }
  right; right. exists dir.
  repeat branch.
  all: rewrite <- !(assoc_L (++)); simpl.
  all: match goal with
       | |- ∃ body, _ ++ _ :: ?l = _ ∧ _ => exists (removelast l)
       end.
  all: simpl; split; [reflexivity |].
  all: split; [repeat constructor; done |].
  all: rewrite !paths_app; simpl;
    rewrite ?inside_self, ?inside_temp_html; simpl;
    try apply filter_filter_same; done.
Qed.
End PdfFacts.

Lemma pdf_render_retry_witness :
  keys (retry_options_of default_options) = ["quiet"; "page-size"; "encoding"]%string
  ∧ dict_get (retry_options_of default_options) "page-size"
    = Some (default (OStr "A4") (dict_get default_options "page-size"))
  ∧ ∃ evs,
      trace (_convert_to_pdf (env_of hard_day) plain "<html></html>" "out.pdf"
               initial_world).2 = trace initial_world ++ evs
      ∧ retry_protocol default_options
          (_convert_to_pdf (env_of hard_day) plain "<html></html>" "out.pdf"
             initial_world).1 (attempts evs).
Proof.
  apply (pdf_render_retry (env_of hard_day) plain "<html></html>" "out.pdf"
           initial_world default_options).
  reflexivity.
Defined.

(* ===================================================================== *)
(** * The exit status *)
(* ===================================================================== *)

Section MainFacts.
Context (E : environment).

Lemma isinstance_new_error (c : pyclass) (message : string) (d : pyclass) :
  isinstance (new_error c message) d = issubclass c d.
Proof. done. Qed.

(** The classes of the source are conversion errors, and a conversion
    error is an [Exception] and no [KeyboardInterrupt]. *)
Lemma conversion_error_classes :
  issubclass ConfigurationError ConversionError = true
  ∧ issubclass DependencyError ConversionError = true
  ∧ issubclass InputValidationError ConversionError = true
  ∧ ∀ c, issubclass c ConversionError = true →
         issubclass c Exception = true ∧ issubclass c KeyboardInterrupt = false.
Proof. repeat split; try done; by destruct c. Qed.

(** What [convert] raises is a conversion error, unless it is no
    [Exception] at all. *)
Lemma convert_raises (self : converter) (markdown_file output_pdf : string)
    (w : world) :
  match (convert E self markdown_file output_pdf w).1 with
  | Ok b => b = true
  | Raised e => isinstance e Exception = true → isinstance e ConversionError = true
  end.
Proof.
  unfold convert, try_except.
  destruct (convert_body E self markdown_file output_pdf w) as [[b|e] w1] eqn:Hb.
  - simpl. unfold convert_body in Hb.
    repeat (apply bind_inv_ok in Hb as (? & ? & _ & Hb)).
    by injection Hb as <- _.
  - simpl. destruct (isinstance e ConversionError) eqn:Hc; simpl.
    + run. done.
    + destruct (isinstance e Exception) eqn:He; simpl.
      * run. done.
      * congruence.
Qed.

Lemma main_body_ok (w w' : world) (code : Z) :
  main_body E w = (Ok code, w') → code = 0.
Proof.
  intros Hb. unfold main_body in Hb.
  repeat (apply bind_inv_ok in Hb as (? & ? & _ & Hb)).
  by injection Hb as <- _.
Qed.

(** C7.  [main] returns 0 when its body returns; when the body raises,
    it returns 1 for a [ConversionError] (the classes of the source are
    its subclasses), 2 for a [KeyboardInterrupt] and 3 for any other
    [Exception]; what is no [Exception] goes on to the interpreter.
    [convert] raises no [Exception] that is not a [ConversionError]; so an
    [Exception] raised in [convert], of whatever class, gives the exit
    status 1. *)
Theorem exit_codes (w : world) :
  (match (main_body E w).1 with
   | Ok _ => (main E w).1 = Ok 0
   | Raised e =>
       (main E w).1 =
       if isinstance e ConversionError then Ok 1
       else if isinstance e KeyboardInterrupt then Ok 2
       else if isinstance e Exception then Ok 3
       else Raised e
   end)
  ∧ (∀ self markdown_file output_pdf w0,
       match (convert E self markdown_file output_pdf w0).1 with
       | Ok _ => True
       | Raised e =>
           isinstance e Exception = true → isinstance e ConversionError = true
       end)
  ∧ (∀ a w1 w2 self w3 e w4,
       call (argparse_parse_args E) EvParseArgs w = (Ok a, w1) →
       (setup_logging E (verbose a) (log a);;
        logger INFO ("Starting conversion: " +:+ input a +:+ " -> " +:+ output a)) w1
       = (Ok tt, w2) →
       __init__ E (config_path a) w2 = (Ok self, w3) →
       convert E self (input a) (output a) w3 = (Raised e, w4) →
       isinstance e Exception = true →
       (main E w).1 = Ok 1).
Proof.
  split; [| split].
  - unfold main, try_except.
    destruct (main_body E w) as [[code|e] w'] eqn:Hb; simpl.
    + by rewrite (main_body_ok _ _ _ Hb).
    + destruct (isinstance e ConversionError); simpl; [done |].
      destruct (isinstance e KeyboardInterrupt); simpl; [done |].
      by destruct (isinstance e Exception).
  - intros self markdown_file output_pdf w0.
    pose proof (convert_raises self markdown_file output_pdf w0) as H.
    by destruct (convert E self markdown_file output_pdf w0).1.
  - intros a w1 w2 self w3 e w4 Hargs Hlog Hinit Hconv He.
    pose proof (convert_raises self (input a) (output a) w3) as Hc.
    rewrite Hconv in Hc. simpl in Hc. specialize (Hc He).
    assert (main_body E w = (Raised e, w4)) as Hb.
    { unfold main_body. rewrite (bind_ok _ _ _ _ _ Hargs).
      unfold mbind, M_bind in Hlog |- *.
      destruct (setup_logging E (verbose a) (log a) w1) as [[[]|?] ?];
        [| done].
      rewrite Hlog, Hinit, Hconv. done. }
    unfold main, try_except. rewrite Hb. simpl. by rewrite Hc.
Qed.
End MainFacts.

Lemma exit_codes_witness :
  (main (env_of bad_styles) initial_world).1 = Ok 1.
Proof.
  pose (E := env_of bad_styles).
  pose (a := Args "notes.md" "out.pdf" (Some "styles.yaml"%string) false None).
  pose (w1 := (call (argparse_parse_args E) EvParseArgs initial_world).2).
  pose (w2 := ((setup_logging E (verbose a) (log a);;
                logger INFO ("Starting conversion: " +:+ input a +:+ " -> "
                             +:+ output a)) w1).2).
  pose (w3 := (__init__ E (config_path a) w2).2).
  pose (w4 := (convert E (Converter 4%nat) (input a) (output a) w3).2).
  apply (proj2 (proj2 (exit_codes E initial_world)) a w1 w2 (Converter 4%nat) w3
           (unexpected (Exn TypeError "string indices must be integers")) w4);
    vm_compute; reflexivity.
Defined.

(* ===================================================================== *)
(** * The default configuration as a shared object *)
(* ===================================================================== *)

Section StoreFacts.
Context (E : environment).

(** Without a configuration file, [_load_config] only adds the copy: the
    objects there were stay as they were. *)
Lemma _load_config_no_file (w : world) (items : odict) :
  objects w !! DEFAULT_CONFIG_ref = Some items →
  _load_config E None w
  = (Ok (length (objects w)), World (objects w ++ [items]) (trace w)).
Proof.
  intros H. unfold _load_config, dict_copy, copy. run.
  by rewrite H.
Qed.

(** C3.  The configuration is not independent of earlier runs.  After
    [_load_config] with a file that sets [pdf_options.page-size] to
    [Letter], the object [DEFAULT_CONFIG] itself holds [Letter] where it
    held [A4]: [copy()] made a new outer dictionary whose sections are the
    objects of [DEFAULT_CONFIG], and [_deep_merge] updated one of them in
    place.  A second [_load_config], without any file, then returns a
    configuration with [Letter]. *)
Theorem load_config_changes_DEFAULT_CONFIG :
  let first := _load_config (env_of with_letter) (Some "letter.yaml"%string)
                 initial_world in
  let second := _load_config (env_of with_letter) None first.2 in
  read 3 (objects initial_world) (ORef DEFAULT_CONFIG_ref)
  = Some (VDict DEFAULT_CONFIG)
  ∧ read 3 (objects first.2) (ORef DEFAULT_CONFIG_ref)
    = Some (VDict (Config._deep_merge DEFAULT_CONFIG letter_items))
  ∧ (∃ config, second.1 = Ok config
               ∧ read 3 (objects second.2) (ORef config)
                 = Some (VDict (Config._deep_merge DEFAULT_CONFIG letter_items)))
  ∧ dict_get (Config._deep_merge default_pdf_options
                [("page-size"%string, VStr "Letter")]) "page-size"
    = Some (VStr "Letter")
  ∧ dict_get default_pdf_options "page-size" = Some (VStr "A4").
Proof.
  cbv zeta. split; [| split; [| split; [| split]]].
  - vm_compute. reflexivity.
  - vm_compute. reflexivity.
  - eexists. split; vm_compute; reflexivity.
  - vm_compute. reflexivity.
  - vm_compute. reflexivity.
Qed.

End StoreFacts.

(* ===================================================================== *)
(** * The merge of the objects and the merge of the contents *)
(* ===================================================================== *)

Section OwnsFacts.
Local Open Scope nat_scope.
Implicit Types (h : heap) (F G : gset loc).

(** What a value owns is all that its contents depend on. *)
Lemma owns_frame h h' v t F :
  owns h v t F → (∀ l, l ∈ F → h' !! l = h !! l) → owns h' v t F.
Proof.
  intros H. revert h'.
  induction H using owns_mut with
    (P0 := fun l ts F _ => ∀ h', (∀ r, r ∈ F → h' !! r = h !! r) →
                                 owns_elements h' l ts F)
    (P1 := fun items d F _ => ∀ h', (∀ r, r ∈ F → h' !! r = h !! r) →
                                    owns_items h' items d F);
    intros h' Hh'; try by constructor.
  - constructor. by apply IHowns.
  - econstructor; [| apply IHowns; intros; apply Hh'; set_solver | done].
    rewrite Hh' by set_solver. done.
  - constructor; [apply IHowns | apply IHowns0 | done];
      intros; apply Hh'; set_solver.
  - constructor; [apply IHowns | apply IHowns0 | done];
      intros; apply Hh'; set_solver.
Qed.

Lemma owns_items_frame h h' items d F :
  owns_items h items d F → (∀ l, l ∈ F → h' !! l = h !! l) →
  owns_items h' items d F.
Proof.
  induction 1 as [|k v t F items d G Hv Hitems IH Hdisj]; intros Hh';
    constructor; try done.
  - eapply owns_frame; [done |]. intros; apply Hh'; set_solver.
  - apply IH. intros; apply Hh'; set_solver.
Qed.

(** A reference owns a dictionary, and nothing else does. *)
Lemma owns_ref_inv h r t F :
  owns h (ORef r) t F →
  ∃ items d G, t = VDict d ∧ F = {[r]} ∪ G ∧ h !! r = Some items
               ∧ owns_items h items d G ∧ r ∉ G.
Proof. inversion 1; subst. eauto 10. Qed.

Lemma owns_dict_inv h v d F :
  owns h v (VDict d) F → ∃ r, v = ORef r.
Proof. inversion 1; subst. eauto. Qed.

(** The item under a key, and the place it leaves when it is replaced:
    [G] is what the other items own. *)
Lemma owns_items_hole h items d F k :
  owns_items h items d F →
  ∃ G, G ⊆ F
    ∧ (∀ v, dict_get items k = Some v →
            ∃ t Fv, dict_get d k = Some t ∧ owns h v t Fv ∧ Fv ⊆ F ∧ Fv ## G)
    ∧ (dict_get items k = None → dict_get d k = None)
    ∧ (∀ h' v' t' Fv',
         (∀ l, l ∈ G → h' !! l = h !! l) → owns h' v' t' Fv' → Fv' ## G →
         owns_items h' (dict_set items k v') (dict_set d k t') (Fv' ∪ G)).
Proof.
  induction 1 as [|k0 v0 t0 F0 items d F' Hv0 Hitems IH Hdisj].
  - exists ∅. split; [done |]. split; [done |]. split; [done |].
    intros h' v' t' Fv' _ Hv' _. simpl.
    replace (Fv' ∪ ∅) with (Fv' ∪ (∅ : gset loc)) by done.
    constructor; [done | constructor | set_solver].
  - destruct IH as (G & HG & Hget & Hnone & Hset). simpl.
    destruct (decide (k0 = k)) as [->|Hne].
    + exists F'. split; [set_solver |]. split; [| split; [done |]].
      * intros v [= <-]. exists t0, F0. split; [done |]. split; [done |].
        split; [set_solver | done].
      * intros h' v' t' Fv' Hh' Hv' Hd. constructor; [done | | done].
        by eapply owns_items_frame.
    + exists (F0 ∪ G). split; [set_solver |]. split; [| split; [done |]].
      * intros v Hv. destruct (Hget v Hv) as (t & Fv & ? & ? & ? & ?).
        exists t, Fv. split; [done |]. split; [done |]. set_solver.
      * intros h' v' t' Fv' Hh' Hv' Hd.
        replace (Fv' ∪ (F0 ∪ G)) with (F0 ∪ (Fv' ∪ G)) by set_solver.
        constructor.
        -- eapply owns_frame; [done |]. intros; apply Hh'; set_solver.
        -- apply Hset; [intros; apply Hh'; set_solver | done | set_solver].
        -- set_solver.
Qed.
End OwnsFacts.

Section MergeRefinement.
Local Open Scope nat_scope.
Implicit Types (h : heap) (F G : gset loc).

(** The depth of the items of a dictionary. *)
Lemma depth_cons k t (d : dict) :
  depth (VDict ((k, t) :: d)) = S (Nat.max (depth t) (Nat.pred (depth (VDict d)))).
Proof. done. Qed.

Lemma merge_item_owned (B : dict) k t :
  merge_item B k t =
  match dict_get B k, t with
  | Some (VDict b), VDict u => dict_set B k (VDict (Config._deep_merge b u))
  | _, _ => dict_set B k t
  end.
Proof. done. Qed.

(** An assignment [base[key] = value] of a value that shares nothing
    with [base]. *)
Lemma assign_owned h b bitems B Fb k v t Fv :
  h !! b = Some bitems → owns_items h bitems B Fb → b ∉ Fb →
  owns h v t Fv → b ∉ Fv → Fb ## Fv →
  ∃ F2, owns_items (<[b := dict_set bitems k v]> h)
          (dict_set bitems k v) (dict_set B k t) F2
        ∧ b ∉ F2 ∧ F2 ⊆ Fb ∪ Fv.
Proof.
  intros Hb HB HbFb Hv HbFv Hdisj.
  destruct (owns_items_hole h bitems B Fb k HB) as (Gb & HGb & _ & _ & Hset).
  exists (Fv ∪ Gb). split; [| set_solver].
  apply Hset.
  - intros l Hl. apply list_lookup_insert_ne. set_solver.
  - eapply owns_frame; [exact Hv |].
    intros l Hl. apply list_lookup_insert_ne. set_solver.
  - set_solver.
Qed.

(** One item of the loop. *)
Lemma merge_step_owned n rec h b bitems B Fb k v t Fv :
  merges n rec →
  h !! b = Some bitems → owns_items h bitems B Fb → b ∉ Fb →
  owns h v t Fv → b ∉ Fv → Fb ## Fv → depth t ≤ n →
  ∃ h2 bitems2 F2,
    merge_step rec b (Some h) (k, v) = Some h2
    ∧ h2 !! b = Some bitems2
    ∧ owns_items h2 bitems2 (merge_item B k t) F2
    ∧ b ∉ F2 ∧ F2 ⊆ Fb ∪ Fv
    ∧ (∀ l, l ∉ {[b]} ∪ Fb ∪ Fv → h2 !! l = h !! l).
Proof.
  intros Hrec Hb HB HbFb Hv HbFv Hdisj Hdt.
  assert (b < length h) as Hlen by (by eapply lookup_lt_Some).
  (* the assignment of [v] itself *)
  assert (∃ h2 bitems2 F2,
             Some (<[b := dict_set bitems k v]> h) = Some h2
             ∧ h2 !! b = Some bitems2
             ∧ owns_items h2 bitems2 (dict_set B k t) F2
             ∧ b ∉ F2 ∧ F2 ⊆ Fb ∪ Fv
             ∧ (∀ l, l ∉ {[b]} ∪ Fb ∪ Fv → h2 !! l = h !! l)) as Hassign.
  { destruct (assign_owned h b bitems B Fb k v t Fv) as (F2 & ? & ? & ?);
      try done.
    eexists _, _, F2. split; [reflexivity |].
    split; [by apply list_lookup_insert_eq |].
    repeat split; try done.
    intros l Hl. apply list_lookup_insert_ne. set_solver. }
  unfold merge_step. cbn [mbind option_bind fst snd]. rewrite Hb.
  cbn [mbind option_bind]. rewrite merge_item_owned.
  destruct (owns_items_hole h bitems B Fb k HB) as (Gb & HGb & Hget & Hnone & Hset).
  destruct (dict_get bitems k) as [vb|] eqn:Hgk.
  2: { rewrite (Hnone eq_refl). by destruct v. }
  destruct (Hget vb eq_refl) as (tb & Fvb & HgB & Hvb & HFvb & HFvbG).
  rewrite HgB.
  destruct Hvb as [| | | | |bl blitems Bk Gk Hbl HBk HblGk];
    try exact Hassign; try (by destruct v).
  destruct Hv as [| | | | |ul ulitems Uk Gu Hul HUk HulGu];
    try exact Hassign.
  assert (owns h (ORef bl) (VDict Bk) ({[bl]} ∪ Gk)) as Hbown
    by (by econstructor).
  assert (owns h (ORef ul) (VDict Uk) ({[ul]} ∪ Gu)) as Huown
    by (by econstructor).
  destruct (Hrec h bl ul Bk Uk _ _ Hbown Huown)
    as (h1 & F1 & Hcall & Hown1 & HF1 & Hframe1); [set_solver | done |].
  rewrite Hcall. cbn [mbind option_bind].
  assert (h1 !! b = Some bitems) as Hb1.
  { rewrite Hframe1; [done | set_solver]. }
  rewrite Hb1. cbn [mbind option_bind].
  assert (b < length h1) as Hlen1 by (by eapply lookup_lt_Some).
  eexists _, _, (F1 ∪ Gb). split; [reflexivity |].
  split; [by apply list_lookup_insert_eq |].
  split.
  { apply Hset.
    - intros l Hl. rewrite list_lookup_insert_ne by set_solver.
      apply Hframe1. set_solver.
    - eapply owns_frame; [exact Hown1 |].
      intros l Hl. apply list_lookup_insert_ne. set_solver.
    - set_solver. }
  split; [set_solver |]. split; [set_solver |].
  intros l Hl. rewrite list_lookup_insert_ne by set_solver.
  apply Hframe1. set_solver.
Qed.

Lemma merge_loop n rec b :
  merges n rec →
  ∀ uitems U Fi h bitems B Fb,
    owns_items h uitems U Fi →
    depth (VDict U) ≤ S n →
    h !! b = Some bitems → owns_items h bitems B Fb → b ∉ Fb → b ∉ Fi → Fb ## Fi →
    ∃ h' bitems' F',
      foldl (merge_step rec b) (Some h) uitems = Some h'
      ∧ h' !! b = Some bitems'
      ∧ owns_items h' bitems' (Config._deep_merge B U) F'
      ∧ b ∉ F' ∧ F' ⊆ Fb ∪ Fi
      ∧ (∀ l, l ∉ {[b]} ∪ Fb ∪ Fi → h' !! l = h !! l).
Proof.
  intros Hrec. induction uitems as [|[k v] uitems IH];
    intros U Fi h bitems B Fb Hitems Hdepth Hb HB HbFb HbFi HFbFi.
  - inversion Hitems; subst.
    exists h, bitems, Fb. repeat split; try done. set_solver.
  - inversion Hitems as [|? ? t Fv ? U' G Hv Hrest Hdisj]; subst.
    rewrite _deep_merge_cons. cbn [foldl].
    rewrite depth_cons in Hdepth.
    assert (depth t ≤ n) as Hdt by lia.
    assert (depth (VDict U') ≤ S n) as HdU by (simpl in *; lia).
    assert (b ∉ Fv) as HbFv by set_solver.
    assert (b ∉ G) as HbG by set_solver.
    assert (Fb ## Fv) as HFbFv by set_solver.
    assert (Fb ## G) as HFbG by set_solver.
    destruct (merge_step_owned n rec h b bitems B Fb k v t Fv
                Hrec Hb HB HbFb Hv HbFv HFbFv Hdt)
      as (h2 & bitems2 & F2 & Hstep & Hb2 & HB2 & HbF2 & HF2 & Hframe2).
    rewrite Hstep.
    assert (owns_items h2 uitems U' G) as Hrest2.
    { eapply owns_items_frame; [exact Hrest |].
      intros l Hl. apply Hframe2. set_solver. }
    assert (F2 ## G) as HF2G by set_solver.
    destruct (IH U' G h2 bitems2 (merge_item B k t) F2
                Hrest2 HdU Hb2 HB2 HbF2 HbG HF2G)
      as (h' & bitems' & F' & Hfold & Hb' & HB' & HbF' & HF' & Hframe').
    exists h', bitems', F'.
    split; [done |]. split; [done |]. split; [done |]. split; [done |].
    split; [clear -HF' HF2; set_solver |].
    intros l Hl. rewrite Hframe' by (clear -Hl HF2; set_solver).
    apply Hframe2. clear -Hl. set_solver.
Qed.

(** [_deep_merge] on the objects computes [_deep_merge] on the contents. *)
Lemma _deep_merge_merges (fuel : nat) : merges fuel (Store._deep_merge fuel).
Proof.
  induction fuel as [|fuel IH];
    intros h b u B U Fb Fu Hbown Huown Hdisj Hdepth.
  - simpl in Hdepth. lia.
  - destruct (owns_ref_inv _ _ _ _ Hbown)
      as (bitems & B' & Gb & [= <-] & -> & Hb & HB & HbGb).
    destruct (owns_ref_inv _ _ _ _ Huown)
      as (uitems & U' & Gu & [= <-] & -> & Hu & HU & HuGu).
    cbn [Store._deep_merge]. rewrite Hu. cbn [mbind option_bind].
    assert (b ∉ Gu) as HbGu by set_solver.
    assert (Gb ## Gu) as HGbGu by set_solver.
    destruct (merge_loop fuel (Store._deep_merge fuel) b IH uitems U Gu h bitems B Gb
                HU Hdepth Hb HB HbGb HbGu HGbGu)
      as (h' & bitems' & F' & Hfold & Hb' & HB' & HbF' & HF' & Hframe').
    exists h', ({[b]} ∪ F'). split; [done |].
    split; [by econstructor |]. split; [set_solver |].
    intros l Hl. apply Hframe'. set_solver.
Qed.
End MergeRefinement.

Section BuildFacts.
Local Open Scope nat_scope.
Implicit Types (h : heap) (F G : gset loc).

Lemma build_list l h :
  build (VList l) h = (OList (build_elements l h).1, (build_elements l h).2).
Proof. simpl. fold build_elements. by destruct (build_elements l h). Qed.

Lemma build_dict d h :
  build (VDict d) h
  = (ORef (length (build_items d h).2),
     (build_items d h).2 ++ [(build_items d h).1]).
Proof. simpl. fold build_items. by destruct (build_items d h). Qed.

(** What a value owns lies in the store. *)
Lemma owns_bound h v t F l : owns h v t F → l ∈ F → l < length h.
Proof.
  intros H. revert l.
  induction H using owns_mut with
    (P0 := fun _ _ F _ => ∀ l, l ∈ F → l < length h)
    (P1 := fun _ _ F _ => ∀ l, l ∈ F → l < length h);
    intros l' Hl; try set_solver.
  apply elem_of_union in Hl as [Hl%elem_of_singleton | Hl]; [| by apply IHowns].
  subst. by eapply lookup_lt_Some.
Qed.

(** New objects change nothing for a value of the store before. *)
Lemma owns_extend h ext v t F : owns h v t F → owns (h ++ ext) v t F.
Proof.
  intros H. eapply owns_frame; [exact H |].
  intros l Hl. apply lookup_app_l. by eapply owns_bound.
Qed.

Lemma build_owns (v : value) : builds v.
Proof.
  induction v as [| | | |l IH|d IH] using value_nested_ind; intros h;
    try (exists [], ∅; rewrite app_nil_r; repeat split; [constructor | set_solver]).
  - rewrite build_list. cbn [fst snd].
    assert (∃ ext F, (build_elements l h).2 = h ++ ext
              ∧ owns_elements (h ++ ext) (build_elements l h).1 l F
              ∧ ∀ r, r ∈ F → length h ≤ r) as (ext & F & Hh & Ho & HF).
    { clear -IH. revert h. induction IH as [|x xs Hx _ IHxs]; intros h.
      - exists [], ∅. rewrite app_nil_r. repeat split; [constructor | set_solver].
      - simpl. destruct (Hx h) as (e1 & F1 & Hh1 & Ho1 & HF1).
        destruct (build x h) as [x' h1]. cbn [fst snd] in *. subst h1.
        destruct (IHxs (h ++ e1)) as (e2 & F2 & Hh2 & Ho2 & HF2).
        destruct (build_elements xs (h ++ e1)) as [xs' h2]. cbn [fst snd] in *.
        subst h2. exists (e1 ++ e2), (F1 ∪ F2).
        rewrite (assoc_L (++)). split; [done |]. split.
        + constructor; [by apply owns_extend | done |].
          apply elem_of_disjoint. intros r Hr1 Hr2.
          pose proof (owns_bound _ _ _ _ _ Ho1 Hr1).
          specialize (HF2 r Hr2). lia.
        + intros r [Hr | Hr]%elem_of_union; [by apply HF1 |].
          specialize (HF2 r Hr). rewrite length_app in HF2. lia. }
    exists ext, F. rewrite Hh. split; [done |]. split; [by constructor | done].
  - rewrite build_dict. cbn [fst snd].
    assert (∃ ext F, (build_items d h).2 = h ++ ext
              ∧ owns_items (h ++ ext) (build_items d h).1 d F
              ∧ ∀ r, r ∈ F → length h ≤ r) as (ext & F & Hh & Ho & HF).
    { clear -IH. revert h. induction IH as [|[k x] xs Hx _ IHxs]; intros h.
      - exists [], ∅. rewrite app_nil_r. repeat split; [constructor | set_solver].
      - simpl. destruct (Hx h) as (e1 & F1 & Hh1 & Ho1 & HF1).
        cbn [snd] in *.
        destruct (build x h) as [x' h1]. cbn [fst snd] in *. subst h1.
        destruct (IHxs (h ++ e1)) as (e2 & F2 & Hh2 & Ho2 & HF2).
        destruct (build_items xs (h ++ e1)) as [xs' h2]. cbn [fst snd] in *.
        subst h2. exists (e1 ++ e2), (F1 ∪ F2).
        rewrite (assoc_L (++)). split; [done |]. split.
        + constructor; [by apply owns_extend | done |].
          apply elem_of_disjoint. intros r Hr1 Hr2.
          pose proof (owns_bound _ _ _ _ _ Ho1 Hr1).
          specialize (HF2 r Hr2). lia.
        + intros r [Hr | Hr]%elem_of_union; [by apply HF1 |].
          specialize (HF2 r Hr). rewrite length_app in HF2. lia. }
    rewrite Hh. exists (ext ++ [(build_items d h).1]), ({[length (h ++ ext)]} ∪ F).
    rewrite (assoc_L (++)). split; [done |]. split.
    + econstructor.
      * apply list_lookup_middle. done.
      * eapply owns_items_frame; [exact Ho |].
        intros r Hr. apply lookup_app_l.
        clear -Ho Hr. revert r Hr.
        induction Ho as [|k v t F1 items d' G Hv _ IHo _]; intros r Hr; [set_solver |].
        apply elem_of_union in Hr as [Hr | Hr]; [by eapply owns_bound | by apply IHo].
      * intros Hin.
        assert (length (h ++ ext) < length (h ++ ext)); [| lia].
        clear -Ho Hin. revert Hin. generalize (length (h ++ ext)) at 1 2 as r.
        induction Ho as [|k v t F1 items d' G Hv _ IHo _]; intros r Hr; [set_solver |].
        apply elem_of_union in Hr as [Hr | Hr]; [by eapply owns_bound | by apply IHo].
    + intros r [Hr%elem_of_singleton | Hr]%elem_of_union; [| by apply HF].
      subst. rewrite length_app. lia.
Qed.
End BuildFacts.

Section ReadOwned.
Local Open Scope nat_scope.
Implicit Types (h : heap) (F G : gset loc).

Lemma read_S fuel h v :
  read (S fuel) h v =
  match v with
  | ONone => Some VNone
  | OBool b => Some (VBool b)
  | OInt z => Some (VInt z)
  | OStr s => Some (VStr s)
  | OList l => VList <$> mapM (read fuel h) l
  | ORef r =>
      d ← h !! r;
      VDict <$> mapM (fun kv : string * oval => pair kv.1 <$> read fuel h kv.2) d
  end.
Proof. done. Qed.

(** The contents a value owns are what [read] returns, with fuel enough
    for the nesting. *)
Lemma owns_read h v t F :
  owns h v t F → ∃ n, ∀ fuel, n ≤ fuel → read fuel h v = Some t.
Proof.
  induction 1 using owns_mut with
    (P0 := fun l ts _ _ => ∃ n, ∀ fuel, n ≤ fuel → mapM (read fuel h) l = Some ts)
    (P1 := fun items d _ _ =>
             ∃ n, ∀ fuel, n ≤ fuel →
                  mapM (fun kv : string * oval => pair kv.1 <$> read fuel h kv.2) items
                  = Some d);
    try (exists 1; intros [|fuel] Hf; [lia | done]).
  - destruct IHowns as [n Hn]. exists (S n). intros [|fuel] Hf; [lia |].
    rewrite read_S, Hn by lia. done.
  - destruct IHowns as [m Hm]. exists (S m). intros [|fuel] Hf; [lia |].
    rewrite read_S, e. simpl. rewrite Hm by lia. done.
  - destruct IHowns as [n1 Hn1], IHowns0 as [n2 Hn2]. exists (n1 `max` n2).
    intros fuel Hf. simpl. rewrite Hn1, Hn2 by lia. done.
  - destruct IHowns as [n1 Hn1], IHowns0 as [n2 Hn2]. exists (n1 `max` n2).
    intros fuel Hf. simpl. rewrite Hn1 by lia. simpl. rewrite Hn2 by lia. done.
Qed.
End ReadOwned.

Section LoadConfig.
Local Open Scope nat_scope.
Context (E : environment).
Implicit Types (h : heap) (F G : gset loc).

Lemma owns_items_bound h items d F l :
  owns_items h items d F → l ∈ F → l < length h.
Proof.
  induction 1 as [|k v t F1 items d' G Hv _ IHo _]; intros Hl; [set_solver |].
  apply elem_of_union in Hl as [Hl | Hl]; [by eapply owns_bound | by apply IHo].
Qed.

(** The user configuration as [_load_config] hands it to [_deep_merge]:
    the document as new objects, a dictionary with the items of the
    document. *)
Lemma or_empty_owned (U : dict) (w : world) :
  ∃ u ext Fu,
    or_empty (VDict U) w = (Ok (ORef u), World (objects w ++ ext) (trace w))
    ∧ owns (objects w ++ ext) (ORef u) (VDict U) Fu
    ∧ ∀ l, l ∈ Fu → length (objects w) ≤ l.
Proof.
  destruct (build_owns (VDict U) (objects w)) as (ext & Fu & Hh & Ho & HFu).
  unfold or_empty. rewrite build_dict in *. cbn [fst snd] in *.
  set (u := length (build_items U (objects w)).2) in *.
  set (h2 := (build_items U (objects w)).2 ++ [(build_items U (objects w)).1]) in *.
  unfold truthy. rewrite Hh.
  destruct (owns_ref_inv _ _ _ _ Ho) as (uitems & U' & Gu & [= <-] & -> & Hu & HU & HuGu).
  rewrite Hu. destruct uitems as [|item uitems].
  - inversion HU; subst. unfold alloc.
    exists (length (objects w ++ ext)), (ext ++ [[]]), {[length (objects w ++ ext)]}.
    rewrite (assoc_L (++)). split; [done |]. split.
    + replace ({[length (objects w ++ ext)]} : gset loc)
        with ({[length (objects w ++ ext)]} ∪ ∅ : gset loc) by set_solver.
      econstructor; [by apply list_lookup_middle | constructor | set_solver].
    + intros l Hl%elem_of_singleton. subst. rewrite length_app. lia.
  - exists u, ext, ({[u]} ∪ Gu). split; [done |]. split; [| done].
    by econstructor.
Qed.

Lemma _load_config_merged (path : string) (w : world) (D U : dict) (F : gset loc) :
  path ≠ EmptyString →
  owns (objects w) (ORef DEFAULT_CONFIG_ref) (VDict D) F →
  open_ E (trace w) path "r" "utf-8" = Ok tt →
  yaml_safe_load E (trace w ++ [EvOpen path "r" "utf-8" (Ok tt)]) path = Ok (VDict U) →
  depth (VDict U) ≤ recursion_limit E →
  ∃ w' F',
    _load_config E (Some path) w = (Ok (length (objects w)), w')
    ∧ trace w' = trace w ++ [EvOpen path "r" "utf-8" (Ok tt);
                             EvSafeLoad path (Ok (VDict U))]
    ∧ owns (objects w') (ORef (length (objects w)))
        (VDict (Config._deep_merge D U)) F'
    ∧ objects w' !! DEFAULT_CONFIG_ref = objects w !! DEFAULT_CONFIG_ref.
Proof.
  intros Hpath HD Hopen Hyaml Hdepth.
  destruct (owns_ref_inv _ _ _ _ HD) as (ditems & D' & G & [= <-] & -> & Hd & HDi & HdG).
  set (h := objects w) in *. set (c := length h).
  unfold _load_config. rewrite bool_decide_false by done.
  unfold dict_copy, copy, alloc, try_except, safe_load_or_empty, call,
    mbind, M_bind, option_bind.
  fold h. rewrite Hd. cbn [objects trace]. rewrite Hopen.
  cbn [objects trace]. rewrite Hyaml.
  match goal with |- context [or_empty (VDict U) ?w1] =>
    destruct (or_empty_owned U w1) as (u & ext & Fu & Hor & Hu & HFu); rewrite Hor
  end.
  cbn [objects trace self_deep_merge] in *. fold c in HFu |- *.
  assert (DEFAULT_CONFIG_ref < c) as Hlt by (by eapply lookup_lt_Some).
  assert (owns ((h ++ [ditems]) ++ ext) (ORef c) (VDict D) ({[c]} ∪ G)) as Hc.
  { econstructor.
    - rewrite <- (assoc_L (++)). by apply list_lookup_middle.
    - rewrite <- (assoc_L (++)). by apply owns_items_frame with h;
        [| intros l Hl; apply lookup_app_l; by eapply owns_items_bound].
    - intros Hin. pose proof (owns_items_bound _ _ _ _ _ HDi Hin). lia. }
  assert (({[c]} ∪ G) ## Fu) as Hdisj.
  { apply elem_of_disjoint. intros l [Hl%elem_of_singleton | Hl]%elem_of_union Hl2;
      specialize (HFu l Hl2); rewrite length_app in HFu; simpl in HFu.
    - subst. unfold c in HFu. lia.
    - pose proof (owns_items_bound _ _ _ _ _ HDi Hl). unfold c in *. lia. }
  destruct (_deep_merge_merges (recursion_limit E) _ c u D U _ _ Hc Hu Hdisj Hdepth)
    as (h' & F' & Hmerge & Hown & HF' & Hframe).
  rewrite Hmerge. eexists _, F'. split; [reflexivity |].
  cbn [trace objects]. split; [by rewrite <- (assoc_L (++)) |].
  split; [done |].
  rewrite Hframe.
  - rewrite <- (assoc_L (++)), lookup_app_l by done. done.
  - intros [[Hl%elem_of_singleton | Hl]%elem_of_union | Hl]%elem_of_union.
    + lia.
    + done.
    + specialize (HFu _ Hl). rewrite length_app in HFu. simpl in HFu.
      unfold c in *. lia.
Qed.
End LoadConfig.

Section StoreTheorems.
Local Open Scope nat_scope.
Implicit Types (h : heap) (F G : gset loc).

(** Two values built one after the other own their contents and share no
    object. *)
Lemma build_separate (v1 v2 : value) h :
  ∃ F1 F2,
    owns (build v2 (build v1 h).2).2 (build v1 h).1 v1 F1
    ∧ owns (build v2 (build v1 h).2).2 (build v2 (build v1 h).2).1 v2 F2
    ∧ F1 ## F2.
Proof.
  destruct (build_owns v1 h) as (e1 & F1 & Hh1 & Ho1 & HF1).
  destruct (build_owns v2 (build v1 h).2) as (e2 & F2 & Hh2 & Ho2 & HF2).
  exists F1, F2. rewrite Hh2. split; [| split; [done |]].
  - rewrite Hh1. by apply owns_extend.
  - apply elem_of_disjoint. intros l Hl1 Hl2.
    pose proof (owns_bound _ _ _ _ _ Ho1 Hl1) as Hb. specialize (HF2 l Hl2).
    rewrite Hh1 in HF2. lia.
Qed.

(** The objects of [DEFAULT_CONFIG], as the module builds them, own its
    contents. *)
Lemma initial_world_owns :
  ∃ F, owns (objects initial_world) (ORef DEFAULT_CONFIG_ref) (VDict DEFAULT_CONFIG) F.
Proof.
  destruct (build_owns (VDict DEFAULT_CONFIG) []) as (ext & F & Hh & Ho & _).
  exists F. unfold initial_world. cbn [objects]. rewrite Hh. exact Ho.
Qed.

(** X1.  The merge in place computes the merge of the contents.  For a
    base and an update that own their contents [B] and [U] and share no
    object, and a recursion limit of at least the depth of [U],
    [_deep_merge] on the objects returns; afterwards the base owns, and
    [read] returns, [_deep_merge B U]; its objects are among those of the
    two; and every other object of the store is as before. *)
Theorem deep_merge_in_place (fuel : nat) h (b u : loc) (B U : dict) Fb Fu :
  owns h (ORef b) (VDict B) Fb →
  owns h (ORef u) (VDict U) Fu →
  Fb ## Fu →
  depth (VDict U) ≤ fuel →
  ∃ h' F',
    Store._deep_merge fuel h b u = Some h'
    ∧ owns h' (ORef b) (VDict (Config._deep_merge B U)) F'
    ∧ F' ⊆ Fb ∪ Fu
    ∧ (∀ l, l ∉ Fb ∪ Fu → h' !! l = h !! l)
    ∧ ∃ n, ∀ k, n ≤ k → read k h' (ORef b) = Some (VDict (Config._deep_merge B U)).
Proof.
  intros Hb Hu Hdisj Hdepth.
  destruct (_deep_merge_merges fuel h b u B U Fb Fu Hb Hu Hdisj Hdepth)
    as (h' & F' & Hm & Ho & HF & Hframe).
  exists h', F'. repeat split; try done. by eapply owns_read.
Qed.

End StoreTheorems.

Lemma deep_merge_in_place_witness :
  ∃ h' F',
    Store._deep_merge 2%nat (build letter (objects initial_world)).2 DEFAULT_CONFIG_ref 5%nat
    = Some h'
    ∧ owns h' (ORef DEFAULT_CONFIG_ref)
        (VDict (Config._deep_merge DEFAULT_CONFIG letter_items)) F'.
Proof.
  destruct (build_separate (VDict DEFAULT_CONFIG) letter []) as (F1 & F2 & H1 & H2 & Hd).
  destruct (deep_merge_in_place 2%nat _ DEFAULT_CONFIG_ref 5%nat DEFAULT_CONFIG letter_items
              F1 F2 H1 H2 Hd) as (h' & F' & Hm & Ho & _).
  - vm_compute. lia.
  - exists h', F'. split; [exact Hm | exact Ho].
Defined.

Section LoadConfigTheorems.
Local Open Scope nat_scope.
Context (E : environment).

(** X2.  [_load_config] with a configuration file.  When the objects of
    [DEFAULT_CONFIG] own their contents [D], the file opens, and
    [yaml.safe_load] returns a dictionary [U] that nests no deeper than
    the recursion limit, [_load_config] returns a new object that owns
    [_deep_merge D U]; it opens and loads the file once; and the outer
    object [DEFAULT_CONFIG] keeps its items: a key that only the file has
    does not reach the defaults. *)
Theorem load_config_merges (path : string) (w : world) (D U : dict) (F : gset loc) :
  path ≠ EmptyString →
  owns (objects w) (ORef DEFAULT_CONFIG_ref) (VDict D) F →
  open_ E (trace w) path "r" "utf-8" = Ok tt →
  yaml_safe_load E (trace w ++ [EvOpen path "r" "utf-8" (Ok tt)]) path = Ok (VDict U) →
  depth (VDict U) ≤ recursion_limit E →
  ∃ w' F',
    _load_config E (Some path) w = (Ok (length (objects w)), w')
    ∧ trace w' = trace w ++ [EvOpen path "r" "utf-8" (Ok tt);
                             EvSafeLoad path (Ok (VDict U))]
    ∧ owns (objects w') (ORef (length (objects w)))
        (VDict (Config._deep_merge D U)) F'
    ∧ objects w' !! DEFAULT_CONFIG_ref = objects w !! DEFAULT_CONFIG_ref.
Proof. apply _load_config_merged. Qed.

End LoadConfigTheorems.

Lemma load_config_merges_witness :
  ∃ w' F',
    _load_config (env_of with_letter) (Some "letter.yaml"%string) initial_world
    = (Ok 4%nat, w')
    ∧ owns (objects w') (ORef 4%nat)
        (VDict (Config._deep_merge DEFAULT_CONFIG letter_items)) F'
    ∧ objects w' !! DEFAULT_CONFIG_ref = objects initial_world !! DEFAULT_CONFIG_ref.
Proof.
  destruct initial_world_owns as [F HF].
  destruct (load_config_merges (env_of with_letter) "letter.yaml" initial_world
              DEFAULT_CONFIG letter_items F) as (w' & F' & Hl & _ & Ho & Hd);
    [discriminate | exact HF | reflexivity | reflexivity | vm_compute; lia |].
  exists w', F'. split; [exact Hl | split; [exact Ho | exact Hd]].
Defined.
(* ===================================================================== *)
(** * More about the deep merge *)
(* ===================================================================== *)

Section MergeKeys.

Lemma dict_has_set_ne {V} (d : list (string * V)) k k' v :
  k ≠ k' → dict_has (dict_set d k v) k' = dict_has d k'.
Proof. intros. unfold dict_has. by rewrite dict_get_set_ne. Qed.

Lemma merge_item_has_other (base : dict) key k value :
  key ≠ k → dict_has (merge_item base key value) k = dict_has base k.
Proof. intros. unfold dict_has. by rewrite merge_item_other. Qed.

Lemma dict_has_keys {V} (d : list (string * V)) k : dict_has d k = true ↔ k ∈ keys d.
Proof.
  unfold dict_has. destruct (dict_get d k) eqn:Hg.
  - split; [intros _ | done]. destruct (decide (k ∈ keys d)) as [|Hn]; [done |].
    apply dict_get_None in Hn. congruence.
  - apply dict_get_None in Hg. split; [done | intros; done].
Qed.

Lemma new_keys_cons {V W} (base : list (string * V)) k (v : W) rest :
  new_keys base ((k, v) :: rest)
  = if dict_has base k then new_keys base rest else k :: new_keys base rest.
Proof. unfold new_keys. simpl. by destruct (dict_has base k). Qed.

Lemma new_keys_ext {V V' W} (b : list (string * V)) (b' : list (string * V'))
    (u : list (string * W)) :
  (∀ k, k ∈ keys u → dict_has b' k = dict_has b k) → new_keys b' u = new_keys b u.
Proof.
  unfold new_keys, keys. induction u as [|[k v] u IH]; intros H; [done |].
  cbn [fmap list_fmap fst List.filter]. rewrite H by (cbn; left).
  rewrite IH; [done |]. intros k' Hk'. apply H. cbn. by right.
Qed.

Lemma _deep_merge_keys (base update : dict) :
  NoDup (keys update) →
  keys (Config._deep_merge base update) = keys base ++ new_keys base update.
Proof.
  revert base. induction update as [|[k v] rest IH]; intros base Hnd.
  - rewrite _deep_merge_nil. unfold new_keys. simpl. by rewrite app_nil_r.
  - rewrite _deep_merge_cons. apply NoDup_cons in Hnd as [Hk Hnd].
    rewrite IH by done. rewrite merge_item_keys, new_keys_cons.
    rewrite (new_keys_ext base (merge_item base k v) rest).
    + destruct (dict_has base k); [done | by rewrite <- app_assoc].
    + intros k' Hk'. apply merge_item_has_other. intros ->. done.
Qed.

Lemma new_keys_fresh {V W} (base : list (string * V)) (update : list (string * W)) k :
  k ∈ new_keys base update → k ∉ keys base.
Proof.
  unfold new_keys. intros Hin%list_elem_of_In%filter_In. destruct Hin as [_ Hn].
  intros Hk%dict_has_keys. by rewrite Hk in Hn.
Qed.

Lemma new_keys_NoDup {V W} (base : list (string * V)) (update : list (string * W)) :
  NoDup (keys update) → NoDup (new_keys base update).
Proof.
  unfold new_keys. generalize (keys update). intros l. induction 1 as [|x l Hx Hl IH]; simpl.
  - constructor.
  - destruct (negb (dict_has base x)); [| done]. constructor; [| done].
    intros Hin%list_elem_of_In%filter_In. destruct Hin as [Hin%list_elem_of_In _]. done.
Qed.

(** X3.  The order of the keys after a merge.  For an update with
    distinct keys, the merged dictionary has the keys of the base in
    their order, followed by the keys that only the update has, in the
    order of the update; and when the keys of the base are distinct, so
    are those of the result. *)
Theorem deep_merge_key_order (base update : dict) :
  NoDup (keys update) →
  keys (Config._deep_merge base update) = keys base ++ new_keys base update
  ∧ (NoDup (keys base) → NoDup (keys (Config._deep_merge base update))).
Proof.
  intros Hnd. split; [by apply _deep_merge_keys |].
  intros Hb. rewrite _deep_merge_keys by done. apply NoDup_app. split; [done |].
  split; [| by apply new_keys_NoDup].
  intros k Hk Hnew. by apply new_keys_fresh in Hnew.
Qed.
End MergeKeys.

Lemma deep_merge_key_order_witness :
  keys (Config._deep_merge DEFAULT_CONFIG override)
  = ["pdf_options"; "css_styles"; "metadata"; "toc"]%string
  ∧ NoDup (keys (Config._deep_merge DEFAULT_CONFIG override)).
Proof.
  assert (NoDup (keys override)) as Hnd
    by (apply (bool_decide_unpack _); vm_compute; exact I).
  destruct (deep_merge_key_order DEFAULT_CONFIG override Hnd) as [H Hd].
  split; [rewrite H; reflexivity |].
  apply Hd. apply (bool_decide_unpack _). vm_compute. exact I.
Defined.

Section MergeTwice.

Lemma distinct_keys_dict (d : dict) :
  distinct_keys (VDict d) ↔ NoDup (keys d) ∧ Forall (fun kv => distinct_keys kv.2) d.
Proof.
  cbn [distinct_keys]. apply and_iff_compat_l.
  induction d as [|[k x] d IH].
  - split; [intros _; constructor | done].
  - rewrite Forall_cons, IH. done.
Qed.

(** Assigning the value a key has changes nothing. *)
Lemma dict_set_same {V} (d : list (string * V)) k v :
  dict_get d k = Some v → dict_set d k v = d.
Proof.
  induction d as [|[k0 v0] d IH]; [done |]. simpl.
  destruct (decide (k0 = k)) as [->|Hne]; [by intros [= ->] |].
  intros H. by rewrite IH.
Qed.

(** A loop whose every step changes nothing. *)
Lemma _deep_merge_stable (base update : dict) :
  Forall (fun kv => merge_item base kv.1 kv.2 = base) update →
  Config._deep_merge base update = base.
Proof.
  induction 1 as [|[k v] rest Hkv _ IH]; [done |].
  rewrite _deep_merge_cons. simpl in Hkv. by rewrite Hkv.
Qed.

Lemma dict_get_first {V} (d : list (string * V)) k v :
  NoDup (keys d) → (k, v) ∈ d → dict_get d k = Some v.
Proof.
  unfold keys. induction d as [|[k0 v0] d IH]; intros Hnd Hin.
  - by apply elem_of_nil in Hin.
  - cbn in Hnd. apply NoDup_cons in Hnd as [Hk0 Hnd]. simpl.
    apply elem_of_cons in Hin as [[= <- <-]|Hin]; [by rewrite decide_True |].
    rewrite decide_False; [by apply IH |].
    intros ->. apply Hk0. apply list_elem_of_fmap. by exists (k, v).
Qed.

Lemma merge_item_at (base : dict) k v :
  dict_get (merge_item base k v) k
  = Some match dict_get base k, v with
         | Some (VDict b), VDict u => VDict (Config._deep_merge b u)
         | _, _ => v
         end.
Proof.
  unfold merge_item.
  destruct (dict_get base k) as [[]|]; try destruct v; by rewrite dict_get_set_eq.
Qed.

(** Merging an update a second time, and merging a dictionary into
    itself, by induction on the nesting of the update. *)
Lemma _deep_merge_again (v : value) :
  distinct_keys v →
  match v with
  | VDict update =>
      Config._deep_merge update update = update
      ∧ ∀ base, Config._deep_merge (Config._deep_merge base update) update
                = Config._deep_merge base update
  | _ => True
  end.
Proof.
  induction v as [| | | | |d IH] using value_nested_ind; try done.
  intros [Hnd Hd]%distinct_keys_dict. split.
  - apply _deep_merge_stable. apply Forall_forall. intros [k x] Hin. simpl.
    unfold merge_item. rewrite (dict_get_first d k x Hnd Hin).
    rewrite Forall_forall in IH, Hd. specialize (IH _ Hin (Hd _ Hin)). simpl in IH.
    destruct x; try (by apply dict_set_same, dict_get_first).
    destruct IH as [-> _]. by apply dict_set_same, dict_get_first.
  - intros base. apply _deep_merge_stable. apply Forall_forall. intros [k x] Hin. simpl.
    pose proof (dict_get_first d k x Hnd Hin) as Hg.
    pose proof (_deep_merge_present base d k x Hnd Hg) as Hp.
    rewrite merge_item_at in Hp.
    rewrite Forall_forall in IH, Hd. specialize (IH _ Hin (Hd _ Hin)). simpl in IH.
    unfold merge_item at 1. rewrite Hp.
    destruct (dict_get base k) as [[]|]; destruct x; try (by apply dict_set_same);
      destruct IH as [Hs Ht]; rewrite ?Ht, ?Hs; by apply dict_set_same.
Qed.

(** X4.  Merging the same update a second time changes nothing, and
    neither does merging a dictionary into itself, when the keys of
    every dictionary of the update are distinct. *)
Theorem deep_merge_idempotent (base update : dict) :
  distinct_keys (VDict update) →
  Config._deep_merge (Config._deep_merge base update) update
  = Config._deep_merge base update
  ∧ Config._deep_merge update update = update.
Proof.
  intros H. destruct (_deep_merge_again (VDict update) H) as [Hself Htwice].
  split; [apply Htwice | exact Hself].
Qed.

End MergeTwice.

Lemma deep_merge_idempotent_witness :
  Config._deep_merge (Config._deep_merge DEFAULT_CONFIG override) override
  = Config._deep_merge DEFAULT_CONFIG override
  ∧ Config._deep_merge override override = override.
Proof.
  apply deep_merge_idempotent.
  cbn [distinct_keys override]. 
  repeat split; apply (bool_decide_unpack _); vm_compute; exact I.
Defined.

(** [options.update(other)]: the values of [other] win, the keys of
    [options] keep their places. *)
Section Options.
Context {V : Type}.
Implicit Types (d other : list (string * V)).

Lemma dict_update_cons d k v other :
  dict_update d ((k, v) :: other) = dict_update (dict_set d k v) other.
Proof. done. Qed.

Lemma dict_update_get d other k :
  NoDup (keys other) →
  dict_get (dict_update d other) k
  = match dict_get other k with Some v => Some v | None => dict_get d k end.
Proof.
  revert d. induction other as [|[k0 v0] other IH]; intros d Hnd; [done |].
  cbn in Hnd. apply NoDup_cons in Hnd as [Hk0 Hnd].
  rewrite dict_update_cons, IH by done. simpl.
  destruct (decide (k0 = k)) as [->|Hne].
  - apply dict_get_None in Hk0. rewrite Hk0. apply dict_get_set_eq.
  - by rewrite dict_get_set_ne.
Qed.

Lemma dict_update_keys d other :
  NoDup (keys other) →
  keys (dict_update d other) = keys d ++ new_keys d other.
Proof.
  revert d. induction other as [|[k v] rest IH]; intros d Hnd.
  - unfold new_keys. simpl. by rewrite app_nil_r.
  - rewrite dict_update_cons. cbn in Hnd. apply NoDup_cons in Hnd as [Hk Hnd].
    rewrite IH by done. rewrite keys_dict_set, new_keys_cons.
    rewrite (new_keys_ext d (dict_set d k v) rest).
    + destruct (dict_has d k); [done | by rewrite <- app_assoc].
    + intros k' Hk'. apply dict_has_set_ne. intros ->. done.
Qed.
End Options.

Section FullOptions.

(** X5.  The options of the first attempt (lines 299-300).  When the
    sections [pdf_options] and [metadata] of the configuration are
    dictionaries, the options are a dictionary of their own with the
    keys of [pdf_options] in their order, then the keys that only
    [metadata] has; under a key of [metadata] they hold its value, under
    any other key that of [pdf_options]. *)
Theorem full_options_lookup (h : heap) (self : converter) (p m : loc)
    (pdf_options metadata : odict) :
  getitem h (ORef (config self)) "pdf_options" = Ok (ORef p) →
  h !! p = Some pdf_options →
  getitem h (ORef (config self)) "metadata" = Ok (ORef m) →
  h !! m = Some metadata →
  NoDup (keys metadata) →
  ∃ options,
    full_options h self = Ok options
    ∧ keys options = keys pdf_options ++ new_keys pdf_options metadata
    ∧ ∀ k, dict_get options k
           = match dict_get metadata k with
             | Some v => Some v
             | None => dict_get pdf_options k
             end.
Proof.
  intros Hp HP Hm HM Hnd. exists (dict_update pdf_options metadata).
  split; [| split].
  - unfold full_options. rewrite Hp, HP, Hm. unfold update_from. by rewrite HM.
  - by apply dict_update_keys.
  - intros k. by apply dict_update_get.
Qed.
End FullOptions.

Lemma full_options_lookup_witness :
  ∃ options,
    full_options (objects initial_world) plain = Ok options
    ∧ keys options
      = ["page-size"; "margin-top"; "margin-right"; "margin-bottom"; "margin-left";
         "encoding"; "quiet"; "creator"; "producer"]%string
    ∧ dict_get options "creator" = Some (OStr "Markdown to PDF Converter").
Proof.
  destruct (full_options_lookup (objects initial_world) plain 0%nat 2%nat
              [ ("page-size"%string, OStr "A4"); ("margin-top"%string, OStr "20mm");
                ("margin-right"%string, OStr "20mm"); ("margin-bottom"%string, OStr "20mm");
                ("margin-left"%string, OStr "20mm"); ("encoding"%string, OStr "UTF-8");
                ("quiet"%string, OStr "") ]
              [ ("creator"%string, OStr "Markdown to PDF Converter");
                ("producer"%string, OStr "Python pdfkit/wkhtmltopdf") ])
    as (options & Hf & Hk & Hg);
    [reflexivity | reflexivity | reflexivity | reflexivity
    | apply (bool_decide_unpack _); vm_compute; exact I |].
  exists options. split; [exact Hf | split; [exact Hk | apply Hg]].
Defined.
(* ===================================================================== *)
(** * File names: the title without a heading, the extension *)
(* ===================================================================== *)

Section PathFacts.

Lemma startswith_nil (s : string) : startswith s EmptyString = true.
Proof. by destruct s. Qed.

Lemma contains_char_app (c : ascii) (a b : string) :
  contains (String c EmptyString) (a +:+ b)
  = contains (String c EmptyString) a || contains (String c EmptyString) b.
Proof.
  induction a as [|x a IH].
  - rewrite str_app_nil_l. by rewrite contains_nil.
  - rewrite str_app_cons, !contains_cons, IH.
    cbn [startswith]. by rewrite orb_assoc, !startswith_nil.
Qed.

(** The last occurrence of a character. *)
Lemma rfind_at_last (c : ascii) (a b : string) (pos : nat) :
  contains (String c EmptyString) b = false →
  rfind_at (String c EmptyString) (a +:+ String c b) pos
  = Z.of_nat (pos + String.length a).
Proof.
  intros Hb. revert pos. induction a as [|x a IH]; intros pos.
  - rewrite str_app_nil_l, rfind_at_cons, (rfind_at_not_found _ _ _ Hb).
    cbn [startswith]. rewrite decide_True, startswith_nil by done. simpl. f_equal. lia.
  - rewrite str_app_cons, rfind_at_cons, IH.
    rewrite (proj2 (Z.leb_le _ _)) by lia. simpl. f_equal. lia.
Qed.

Lemma slice_from_at (a b : string) :
  slice_from (a +:+ b) (Z.of_nat (String.length a)) = b.
Proof.
  unfold slice_from. rewrite clamp_id by (rewrite str_length_app; lia).
  apply str_drop_app.
Qed.

Lemma slice_to_at (a b : string) :
  slice_to (a +:+ b) (Z.of_nat (String.length a)) = a.
Proof.
  unfold slice_to. rewrite clamp_id by (rewrite str_length_app; lia).
  apply str_take_app.
Qed.

Lemma basename_bare (name : string) :
  contains "/" name = false → basename name = name.
Proof.
  intros H. unfold basename, rfind. rewrite (rfind_at_not_found "/" name 0 H).
  change (-1 + 1) with (Z.of_nat (String.length EmptyString)).
  apply (slice_from_at EmptyString name).
Qed.

Lemma basename_in_dir (dir name : string) :
  contains "/" name = false → basename (dir +:+ "/" +:+ name) = name.
Proof.
  intros H. unfold basename, rfind.
  change ("/" +:+ name) with (String "/" name).
  rewrite (rfind_at_last "/" dir name 0 H).
  change (String "/" name) with ("/" +:+ name).
  rewrite <- str_app_assoc.
  replace (Z.of_nat (0 + String.length dir) + 1)
    with (Z.of_nat (String.length (dir +:+ "/")))
    by (rewrite str_length_app; simpl; lia).
  apply slice_from_at.
Qed.

Lemma str_drop_app_l (i : nat) (a b : string) :
  (i ≤ String.length a)%nat → drop i (a +:+ b) = drop i a +:+ b.
Proof.
  revert a. induction i as [|i IH]; intros a Hi; [done |].
  destruct a as [|x a]; [simpl in Hi; lia |].
  rewrite str_app_cons. simpl. apply IH. simpl in Hi. lia.
Qed.

Lemma str_drop_length (i : nat) (s : string) :
  String.length (drop i s) = (String.length s - i)%nat.
Proof.
  revert s. induction i as [|i IH]; intros s; [simpl; lia |].
  destruct s as [|x s]; [done |]. simpl. apply IH.
Qed.

Lemma str_drop_S (i : nat) (s : string) (c : ascii) (rest : string) :
  drop i s = String c rest → drop (S i) s = rest.
Proof.
  revert s. induction i as [|i IH]; intros s H.
  - simpl in H. by subst s.
  - destruct s as [|x s]; [done |]. simpl in H. simpl. by apply IH.
Qed.

(** The character at [i]. *)
Lemma slice_one (s : string) (i : nat) (c : ascii) (rest : string) :
  drop i s = String c rest →
  slice s (Z.of_nat i) (Z.of_nat i + 1) = String c EmptyString.
Proof.
  intros H.
  assert (i < String.length s)%nat as Hi.
  { pose proof (str_drop_length i s) as Hl. rewrite H in Hl. simpl in Hl. lia. }
  unfold slice. rewrite clamp_id by lia.
  replace (Z.of_nat i + 1) with (Z.of_nat (S i)) by lia.
  rewrite clamp_id by lia. rewrite H.
  replace (S i - i)%nat with 1%nat by lia. done.
Qed.

(** The scan of the leading dots of a file name [stem.ext]. *)
Lemma splitext_scan_stem (stem rest : string) (n i : nat) :
  (i + n = String.length stem)%nat →
  drop i stem ≠ repeat_char "." (String.length (drop i stem)) →
  splitext_scan (stem +:+ rest) (Z.of_nat i) (Z.of_nat (String.length stem)) n
  = (stem, rest).
Proof.
  revert i. induction n as [|n IH]; intros i Hn Hdots.
  - exfalso. apply Hdots.
    assert (String.length (drop i stem) = 0)%nat as Hl
      by (rewrite str_drop_length; lia).
    rewrite Hl. by destruct (drop i stem).
  - cbn [splitext_scan].
    rewrite (proj2 (Z.ltb_lt _ _)) by lia.
    destruct (drop i stem) as [|c tail] eqn:Hd.
    { pose proof (str_drop_length i stem) as Hl. rewrite Hd in Hl. simpl in Hl. lia. }
    assert (drop i (stem +:+ rest) = String c (tail +:+ rest)) as Hd'.
    { rewrite str_drop_app_l by lia. by rewrite Hd. }
    rewrite (slice_one _ _ _ _ Hd').
    destruct (decide (c = "."%char)) as [->|Hc].
    + rewrite bool_decide_true by done. cbn [negb].
      replace (Z.of_nat i + 1) with (Z.of_nat (S i)) by lia.
      apply IH; [lia |]. rewrite (str_drop_S _ _ _ _ Hd).
      intros Heq. apply Hdots. simpl. by rewrite <- Heq.
    + rewrite bool_decide_false by congruence. cbn [negb].
      by rewrite slice_to_at, slice_from_at.
Qed.

Lemma splitext_stem (stem ext : string) :
  contains "/" stem = false → contains "/" ext = false →
  contains "." ext = false →
  stem ≠ repeat_char "." (String.length stem) →
  splitext (stem +:+ "." +:+ ext) = (stem, "." +:+ ext).
Proof.
  intros Hs He Hdot Hdots. unfold splitext, rfind.
  rewrite (rfind_at_not_found "/" _ 0).
  2:{ rewrite !contains_char_app, Hs, He. done. }
  change ("." +:+ ext) with (String "." ext).
  rewrite (rfind_at_last "." stem ext 0 Hdot).
  rewrite (proj2 (Z.ltb_lt _ _)) by lia.
  change (-1 + 1) with (Z.of_nat 0).
  replace (Z.of_nat (0 + String.length stem)) with (Z.of_nat (String.length stem)) by (f_equal; lia).
  apply splitext_scan_stem; [| done].
  rewrite <- Nat2Z.inj_sub by lia. rewrite Nat2Z.id. lia.
Qed.

Lemma splitext_no_dot (name : string) :
  contains "." name = false → splitext name = (name, EmptyString).
Proof.
  intros H. unfold splitext, rfind. rewrite (rfind_at_not_found "." name 0 H).
  destruct (rfind_at "/" name 0 <? -1) eqn:Hlt; [| done].
  apply Z.ltb_lt in Hlt. 
  destruct (contains "/" name) eqn:Hc.
  - exfalso. revert Hlt. generalize 0%nat. clear. induction name as [|c s IH]; intros pos.
    + simpl. lia.
    + rewrite rfind_at_cons. specialize (IH (S pos)).
      destruct (0 <=? rfind_at "/" s (S pos)) eqn:Hle; [lia |].
      destruct (startswith (String c s) "/"); lia.
  - rewrite (rfind_at_not_found "/" name 0 Hc) in Hlt. lia.
Qed.

End PathFacts.

Section FallbackTitle.

(** X6.  The title without a heading is the stem of the file name.
    For HTML without [<h1>] and an input named [stem.ext], alone or in a
    directory, where [ext] has no dot, neither has a slash and [stem]
    does not consist of dots, the title is [stem]; for a name without
    any dot it is the name. *)
Theorem fallback_title (dir stem ext html_content : string) :
  contains "<h1>" html_content = false →
  contains "/" stem = false → contains "/" ext = false → contains "." ext = false →
  stem ≠ repeat_char "." (String.length stem) →
  convert_title (stem +:+ "." +:+ ext) html_content = stem
  ∧ convert_title (dir +:+ "/" +:+ stem +:+ "." +:+ ext) html_content = stem
  ∧ (contains "." stem = false →
     convert_title (dir +:+ "/" +:+ stem) html_content = stem).
Proof.
  intros Hh Hs He Hdot Hdots. unfold convert_title. rewrite Hh.
  assert (contains "/" (stem +:+ "." +:+ ext) = false) as Hname.
  { rewrite !contains_char_app, Hs, He. done. }
  split; [| split].
  - rewrite basename_bare by done. by rewrite splitext_stem.
  - rewrite basename_in_dir by done. by rewrite splitext_stem.
  - intros Hnodot. rewrite basename_in_dir by done. by rewrite splitext_no_dot.
Qed.

End FallbackTitle.

Lemma fallback_title_witness :
  convert_title "my.notes.md" "<p>text</p>" = "my.notes"%string
  ∧ convert_title "docs/my.notes.md" "<p>text</p>" = "my.notes"%string.
Proof.
  destruct (fallback_title "docs" "my.notes" "md" "<p>text</p>") as (H1 & H2 & _);
    [reflexivity | reflexivity | reflexivity | reflexivity | discriminate |].
  split; [exact H1 | exact H2].
Defined.

Section Extension.
Context (E : environment).

Lemma lower_app (a b : string) : lower (a +:+ b) = lower a +:+ lower b.
Proof.
  induction a as [|c a IH]; [done |].
  rewrite str_app_cons. simpl. by rewrite IH.
Qed.

Lemma endswith_app (a b : string) : endswith (a +:+ b) b = true.
Proof.
  unfold endswith. rewrite str_length_app.
  rewrite (proj2 (Nat.leb_le _ _)) by lia.
  replace (String.length a + String.length b - String.length b)%nat
    with (String.length a) by lia.
  rewrite str_drop_app. by rewrite bool_decide_true.
Qed.

Lemma markdown_extension (stem ext : string) :
  lower ext = ".md"%string ∨ lower ext = ".markdown"%string →
  endswith_any (lower (stem +:+ ext)) [".md"; ".markdown"] = true.
Proof.
  intros H. unfold endswith_any. rewrite lower_app. cbn [existsb].
  destruct H as [-> | ->]; rewrite endswith_app; [done | by rewrite orb_true_r].
Qed.

(** X7.  The extension is compared without regard to case.  An input
    that exists, with an existing output directory, whose name ends in
    [.md] or [.markdown] in any mix of capitals passes the validation
    with the two checks and no warning. *)
Theorem extension_any_case (stem ext output_pdf : string) (w : world) :
  lower ext = ".md"%string ∨ lower ext = ".markdown"%string →
  os_path_isfile E (trace w) (stem +:+ ext) = true →
  os_path_isdir E (trace w ++ [EvIsFile (stem +:+ ext) true])
    (output_dir_of output_pdf) = true →
  _validate_inputs E (stem +:+ ext) output_pdf w
  = (Ok tt,
     World (objects w)
       (trace w ++ [EvIsFile (stem +:+ ext) true;
                    EvIsDir (output_dir_of output_pdf) true])).
Proof.
  intros Hext Hf Hd. rewrite (_validate_inputs_ok E _ _ _ Hf Hd).
  rewrite (markdown_extension _ _ Hext). by rewrite app_nil_r, <- app_assoc.
Qed.
End Extension.

Lemma extension_any_case_witness :
  _validate_inputs (env_of capitals) ("README" +:+ ".MD") "out.pdf" initial_world
  = (Ok tt,
     World (objects initial_world)
       (trace initial_world ++ [EvIsFile ("README" +:+ ".MD") true;
                                EvIsDir (output_dir_of "out.pdf") true])).
Proof.
  apply (extension_any_case (env_of capitals) "README" ".MD" "out.pdf" initial_world);
    [left; reflexivity | reflexivity | reflexivity].
Defined.

Section BlankHeading.
Context (E : environment).

(** X8.  A heading of white space only.  When the first [<h1>] of the
    HTML holds a text that is not empty but is stripped to nothing, the
    title that [convert] extracts is empty, and the document is then
    generated with the title [Document], not with the name of the file. *)
Theorem blank_heading_title (markdown_file pre t post : string) :
  contains "<h1>" (pre +:+ "<h1") = false →
  contains "</h1>" (t +:+ "</h1") = false →
  t ≠ EmptyString →
  strip t = EmptyString →
  let html_content := pre +:+ "<h1>" +:+ t +:+ "</h1>" +:+ post in
  convert_title markdown_file html_content = EmptyString
  ∧ ∀ self w,
      _generate_html_document E self html_content
        (convert_title markdown_file html_content) w
      = _generate_html_document E self html_content "Document" w.
Proof.
  intros Hpre Ht Hne Hstrip html_content.
  assert (convert_title markdown_file html_content = EmptyString) as Htitle.
  { unfold html_content. by rewrite title_first_h1. }
  split; [done |]. intros self w. by rewrite Htitle.
Qed.
End BlankHeading.

Lemma blank_heading_title_witness :
  convert_title "notes.md" ("<p>a</p>" +:+ "<h1>" +:+ "  " +:+ "</h1>" +:+ "<p>b</p>")
  = EmptyString.
Proof.
  destruct (blank_heading_title (env_of hard_day) "notes.md" "<p>a</p>" "  " "<p>b</p>")
    as [H _]; [reflexivity | reflexivity | discriminate | reflexivity |].
  exact H.
Defined.
(* ===================================================================== *)
(** * Loading a configuration that is missing, broken or empty *)
(* ===================================================================== *)

Section LoadConfigErrors.
Local Open Scope nat_scope.
Context (E : environment).
Implicit Types (h : heap) (F G : gset loc).

Lemma build_items_nil h : build_items [] h = ([], h).
Proof. done. Qed.

Lemma build_items_cons k x d h :
  build_items ((k, x) :: d) h
  = ((k, (build x h).1) :: (build_items d (build x h).2).1,
     (build_items d (build x h).2).2).
Proof.
  cbn [build_items]. fold build_items.
  destruct (build x h) as [x' h1]. cbn [fst snd].
  by destruct (build_items d h1).
Qed.

Lemma build_elements_cons x l h :
  build_elements (x :: l) h
  = ((build x h).1 :: (build_elements l (build x h).2).1,
     (build_elements l (build x h).2).2).
Proof.
  cbn [build_elements]. fold build_elements.
  destruct (build x h) as [x' h1]. cbn [fst snd].
  by destruct (build_elements l h1).
Qed.

(** The truth value of what [build] returns is that of the document. *)
Lemma truthy_build (v : value) h :
  truthy (build v h).2 (build v h).1 = value_truthy v.
Proof.
  destruct v as [| b | z | s | l | d]; try done.
  - rewrite build_list. cbn [fst snd truthy value_truthy].
    destruct l as [|x l]; [done |]. by rewrite build_elements_cons.
  - rewrite build_dict. cbn [fst snd truthy value_truthy].
    rewrite list_lookup_middle by done.
    destruct d as [|[k x] d]; [done |]. by rewrite build_items_cons.
Qed.

Lemma build_not_dict (v : value) h :
  is_dict v = false → ∀ r, (build v h).1 ≠ ORef r.
Proof.
  destruct v; try done; intros _ r; try done.
  by rewrite build_list.
Qed.

Lemma build_prefix (v : value) h : ∃ ext, (build v h).2 = h ++ ext.
Proof. destruct (build_owns v h) as (ext & F & H & _). by exists ext. Qed.

Lemma or_empty_build (v : value) (w : world) :
  or_empty v w
  = if value_truthy v
    then (Ok (build v (objects w)).1, World (build v (objects w)).2 (trace w))
    else (Ok (ORef (length (build v (objects w)).2)),
          World ((build v (objects w)).2 ++ [[]]) (trace w)).
Proof.
  unfold or_empty. rewrite <- (truthy_build v (objects w)).
  by destruct (build v (objects w)) as [v' h'].
Qed.

(** X9.  What makes [_load_config] fail.  With a configuration path,
    an [Exception] raised by [open] or by [yaml.safe_load] is raised
    again as a [ConfigurationError] whose message ends in its text, after
    the copy of [DEFAULT_CONFIG] and nothing else was made; and a
    document that is true but no dictionary (a text, a number, a list)
    ends in a [ConfigurationError] too, all objects there were being as
    before. *)
Theorem load_config_failure (path : string) (w : world) (items : odict) :
  path ≠ EmptyString →
  objects w !! DEFAULT_CONFIG_ref = Some items →
  let r := open_ E (trace w) path "r" "utf-8" in
  let t1 := trace w ++ [EvOpen path "r" "utf-8" r] in
  let doc := yaml_safe_load E t1 path in
  (∀ e, r = Raised e → isinstance e Exception = true →
     _load_config E (Some path) w
     = (Raised (new_error ConfigurationError
                  ("Failed to load config file: " +:+ exn_str e)),
        World (objects w ++ [items]) t1))
  ∧ (∀ e, r = Ok tt → doc = Raised e → isinstance e Exception = true →
       _load_config E (Some path) w
       = (Raised (new_error ConfigurationError
                    ("Failed to load config file: " +:+ exn_str e)),
          World (objects w ++ [items]) (t1 ++ [EvSafeLoad path doc])))
  ∧ (∀ v, r = Ok tt → doc = Ok v → value_truthy v = true → is_dict v = false →
       ∃ msg w',
         _load_config E (Some path) w
         = (Raised (new_error ConfigurationError msg), w')
         ∧ trace w' = t1 ++ [EvSafeLoad path doc]
         ∧ ∀ l, l < length (objects w) → objects w' !! l = objects w !! l).
Proof.
  intros Hpath Hitems r t1 doc.
  assert (∀ e, isinstance e Exception = true →
            List.find (fun h : pyclass * (exn → M loc) => isinstance e h.1)
              [ (Exception, fun e : exn =>
                   raise (new_error ConfigurationError
                            ("Failed to load config file: " +:+ exn_str e))) ]
            = Some (Exception, fun e : exn =>
                   raise (new_error ConfigurationError
                            ("Failed to load config file: " +:+ exn_str e)))) as Hfind.
  { intros e He. cbn [List.find fst]. by rewrite He. }
  split; [| split].
  - intros e Hr He. unfold _load_config. rewrite bool_decide_false by done.
    unfold dict_copy, copy, alloc, try_except, safe_load_or_empty, call,
      mbind, M_bind, option_bind.
    rewrite Hitems. cbn [objects trace]. fold r. rewrite Hr.
    rewrite (Hfind e He). cbn [snd]. unfold raise. unfold t1. by rewrite Hr.
  - intros e Hr Hdoc He. unfold _load_config. rewrite bool_decide_false by done.
    unfold dict_copy, copy, alloc, try_except, safe_load_or_empty, call,
      mbind, M_bind, option_bind.
    rewrite Hitems. cbn [objects trace]. fold r. rewrite Hr.
    cbn [objects trace]. unfold doc, t1 in Hdoc. rewrite Hr in Hdoc. rewrite Hdoc.
    rewrite (Hfind e He). cbn [snd]. unfold raise. unfold doc, t1. by rewrite Hr, Hdoc.
  - intros v Hr Hdoc Hv Hnd. unfold _load_config. rewrite bool_decide_false by done.
    unfold dict_copy, copy, alloc, try_except, safe_load_or_empty, call,
      mbind, M_bind, option_bind.
    rewrite Hitems. cbn [objects trace]. fold r. rewrite Hr.
    cbn [objects trace]. unfold doc, t1 in Hdoc |- *. rewrite Hr in Hdoc |- *.
    rewrite Hdoc. rewrite or_empty_build, Hv. cbn [objects trace].
    destruct (build_prefix v (objects w ++ [items])) as [ext Hext].
    pose proof (build_not_dict v (objects w ++ [items]) Hnd) as Hnot.
    destruct (build v (objects w ++ [items])) as [v' h'] eqn:Hb.
    cbn [fst snd] in *. subst h'.
    assert (self_deep_merge E (length (objects w)) v'
            = raise (Exn AttributeError "object has no attribute 'items'")) as ->.
    { destruct v'; try done. by destruct (Hnot l). }
    unfold raise at 1. rewrite Hfind by done. cbn [snd]. unfold raise.
    eexists _, _. split; [reflexivity |]. cbn [trace objects]. split; [done |].
    intros l Hl. rewrite <- (assoc_L (++)). by apply lookup_app_l.
Qed.

(** X10.  An empty configuration file.  When the document is false (an
    empty file, [{}], [[]], [0], an empty text), and the interpreter
    allows one call, [_load_config] returns a new dictionary with the
    contents of [DEFAULT_CONFIG], and every object there was is as
    before. *)
Theorem load_config_empty_document (path : string) (w : world) (D : dict)
    (F : gset loc) (v : value) :
  path ≠ EmptyString →
  owns (objects w) (ORef DEFAULT_CONFIG_ref) (VDict D) F →
  open_ E (trace w) path "r" "utf-8" = Ok tt →
  yaml_safe_load E (trace w ++ [EvOpen path "r" "utf-8" (Ok tt)]) path = Ok v →
  value_truthy v = false →
  0 < recursion_limit E →
  ∃ w' F',
    _load_config E (Some path) w = (Ok (length (objects w)), w')
    ∧ owns (objects w') (ORef (length (objects w))) (VDict D) F'
    ∧ ∀ l, l < length (objects w) → objects w' !! l = objects w !! l.
Proof.
  intros Hpath HD Hopen Hyaml Hv Hlimit.
  destruct (owns_ref_inv _ _ _ _ HD) as (ditems & D' & G & [= <-] & -> & Hd & HDi & HdG).
  unfold _load_config. rewrite bool_decide_false by done.
  unfold dict_copy, copy, alloc, try_except, safe_load_or_empty, call,
    mbind, M_bind, option_bind.
  rewrite Hd. cbn [objects trace]. rewrite Hopen.
  cbn [objects trace]. rewrite Hyaml. rewrite or_empty_build, Hv.
  cbn [objects trace self_deep_merge].
  destruct (build_prefix v (objects w ++ [ditems])) as [ext Hext].
  rewrite Hext.
  destruct (recursion_limit E) as [|n] eqn:Hn; [lia |].
  cbn [Store._deep_merge]. unfold option_bind, mbind.
  rewrite list_lookup_middle by done. cbn [foldl].
  eexists _, ({[length (objects w)]} ∪ G). split; [reflexivity |].
  cbn [objects]. split.
  - econstructor.
    + rewrite <- !(assoc_L (++)). by apply list_lookup_middle.
    + apply owns_items_frame with (objects w); [done |].
      intros l Hl. rewrite <- !(assoc_L (++)). apply lookup_app_l.
      by eapply owns_items_bound.
    + intros Hin. pose proof (owns_items_bound _ _ _ _ _ HDi Hin). lia.
  - intros l Hl. rewrite <- !(assoc_L (++)). by apply lookup_app_l.
Qed.
End LoadConfigErrors.

Lemma load_config_failure_witness :
  _load_config (env_of hard_day) (Some "missing.yaml"%string) initial_world
  = (Raised (new_error ConfigurationError
               "Failed to load config file: No such file or directory"),
     World (objects initial_world
              ++ [[("pdf_options"%string, ORef 0%nat); ("css_styles"%string, ORef 1%nat);
                   ("metadata"%string, ORef 2%nat)]])
       [EvOpen "missing.yaml" "r" "utf-8" (Raised (Exn OSError "No such file or directory"))])
  ∧ ∃ msg w',
      _load_config (env_of text_config) (Some "text.yaml"%string) initial_world
      = (Raised (new_error ConfigurationError msg), w').
Proof.
  split.
  - destruct (load_config_failure (env_of hard_day) "missing.yaml" initial_world
                [("pdf_options"%string, ORef 0%nat); ("css_styles"%string, ORef 1%nat);
                 ("metadata"%string, ORef 2%nat)]) as (H1 & _);
      [discriminate | reflexivity |].
    apply (H1 (Exn OSError "No such file or directory")); reflexivity.
  - destruct (load_config_failure (env_of text_config) "text.yaml" initial_world
                [("pdf_options"%string, ORef 0%nat); ("css_styles"%string, ORef 1%nat);
                 ("metadata"%string, ORef 2%nat)]) as (_ & _ & H3);
      [discriminate | reflexivity |].
    destruct (H3 (VStr "page-size Letter")) as (msg & w' & H & _);
      [reflexivity | reflexivity | reflexivity | reflexivity |].
    by exists msg, w'.
Defined.

Lemma load_config_empty_document_witness :
  ∃ w' F',
    _load_config (env_of empty_config) (Some "empty.yaml"%string) initial_world
    = (Ok 4%nat, w')
    ∧ owns (objects w') (ORef 4%nat) (VDict DEFAULT_CONFIG) F'.
Proof.
  destruct initial_world_owns as [F HF].
  destruct (load_config_empty_document (env_of empty_config) "empty.yaml" initial_world
              DEFAULT_CONFIG F VNone) as (w' & F' & Hl & Ho & _);
    [discriminate | exact HF | reflexivity | reflexivity | reflexivity
    | vm_compute; lia |].
  by exists w', F'.
Defined.
(* ===================================================================== *)
(** * What a conversion does and does not do *)
(* ===================================================================== *)

Section Only.
Context (E : environment) (P : event → Prop).
Context {A B : Type}.

Lemma only_ret (a : A) : only P (mret a).
Proof. intros w. split; [done |]. exists []. by rewrite app_nil_r. Qed.

Lemma only_raise (e : exn) : only P (raise e : M A).
Proof. intros w. split; [done |]. exists []. by rewrite app_nil_r. Qed.

Lemma only_emit (ev : event) : P ev → only P (emit ev).
Proof. intros H w. split; [done |]. exists [ev]. split; [done | by constructor]. Qed.

Lemma only_logger lvl msg : P (EvLog lvl msg) → only P (logger lvl msg).
Proof. apply only_emit. Qed.

Lemma only_ask (oracle : list event → A) (ev : A → event) :
  (∀ r, P (ev r)) → only P (ask oracle ev).
Proof. intros H w. split; [done |]. eexists [_]. split; [done | by constructor]. Qed.

Lemma only_call (oracle : list event → outcome A) (ev : outcome A → event) :
  (∀ r, P (ev r)) → only P (call oracle ev).
Proof. intros H w. split; [done |]. eexists [_]. split; [done | by constructor]. Qed.

Lemma only_lift (f : heap → outcome A) : only P (lift f).
Proof. intros w. split; [done |]. exists []. by rewrite app_nil_r. Qed.

Lemma only_bind (m : M A) (f : A → M B) :
  only P m → (∀ a, only P (f a)) → only P (m ≫= f).
Proof.
  intros Hm Hf w. unfold mbind, M_bind.
  destruct (Hm w) as [Ho (evs & Ht & HP)].
  destruct (m w) as [[a|e] w1]; cbn [snd] in *.
  - destruct (Hf a w1) as [Ho2 (evs2 & Ht2 & HP2)]. split; [congruence |].
    exists (evs ++ evs2). split; [by rewrite Ht2, Ht, (assoc_L (++)) |].
    by apply Forall_app.
  - split; [done | by exists evs].
Qed.

Lemma only_try (body : M A) (handlers : list (pyclass * (exn → M A))) :
  only P body → Forall (fun h => ∀ e, only P (h.2 e)) handlers →
  only P (try_except body handlers).
Proof.
  intros Hm Hh w. unfold try_except.
  destruct (Hm w) as [Ho (evs & Ht & HP)].
  destruct (body w) as [[a|e] w1]; cbn [snd] in *.
  - split; [done | by exists evs].
  - destruct (List.find _ handlers) as [h|] eqn:Hf.
    + apply find_some in Hf as [Hin%list_elem_of_In _].
      rewrite Forall_forall in Hh.
      destruct (Hh h Hin e w1) as [Ho2 (evs2 & Ht2 & HP2)]. split; [congruence |].
      exists (evs ++ evs2). split; [by rewrite Ht2, Ht, (assoc_L (++)) |].
      by apply Forall_app.
    + split; [done | by exists evs].
Qed.

Lemma only_leaving (dir : string) (block : M A) :
  P (EvCleanup dir) → only P block → only P (leaving dir block).
Proof.
  intros Hc Hm w. unfold leaving. destruct (Hm w) as [Ho (evs & Ht & HP)].
  destruct (block w) as [r w1]; cbn [snd objects trace] in *.
  split; [done |]. exists (evs ++ [EvCleanup dir]).
  split; [by rewrite Ht, (assoc_L (++)) |].
  apply Forall_app. split; [done | by constructor].
Qed.
End Only.

(** The steps of a proof of [only]: the rule of the construct, and the
    event of a call checked against [conversion_event]. *)
Ltac only_side :=
  cbn [conversion_event];
  first [ exact I | reflexivity | by eexists | by split
        | by (split; [eexists | ]) | by left | by (right; split; [| eexists]) ].

Ltac only_step :=
  first
    [ apply only_bind; [| intros ?]
    | apply only_try;
      [| repeat (apply Forall_cons; split; [intros ?; cbn [snd] |]);
         try apply Forall_nil_2]
    | apply only_leaving; [only_side |]
    | apply only_ret | apply only_raise
    | apply only_logger; only_side | apply only_emit; only_side
    | apply only_ask; intros ?; only_side | apply only_call; intros ?; only_side
    | apply only_lift
    | match goal with |- only _ (if ?b then _ else _) => destruct b end
    | match goal with |- only _ (match ?o with Some _ => _ | None => _ end) =>
        destruct o
      end ].

Section OnlyMethods.
Context (E : environment).

Lemma only_validate_inputs md out :
  only (conversion_event md out) (_validate_inputs E md out).
Proof. unfold _validate_inputs. repeat only_step. Qed.

Lemma only_read_markdown md out :
  only (conversion_event md out) (_read_markdown E md).
Proof. unfold _read_markdown, read_utf8, read_latin1, read_with. repeat only_step. Qed.

Lemma only_convert_to_html md out text :
  only (conversion_event md out) (_convert_to_html E text).
Proof. unfold _convert_to_html. repeat only_step. Qed.

Lemma only_generate_html_document md out self html title :
  only (conversion_event md out) (_generate_html_document E self html title).
Proof. unfold _generate_html_document, config_item. repeat only_step. Qed.

Lemma only_convert_to_pdf md out self html :
  only (conversion_event md out) (_convert_to_pdf E self html out).
Proof.
  unfold _convert_to_pdf, with_TemporaryDirectory, from_file. repeat only_step.
Qed.

Lemma only_convert self md out :
  only (conversion_event md out) (convert E self md out).
Proof.
  unfold convert, convert_body. repeat only_step;
    auto using only_validate_inputs, only_read_markdown, only_convert_to_html,
      only_generate_html_document, only_convert_to_pdf.
Qed.
End OnlyMethods.

Section Success.
Context (E : environment).

Lemma _read_markdown_ok md w text w' :
  _read_markdown E md w = (Ok text, w') →
  ∃ enc evs, trace w' = trace w ++ evs ∧ objects w' = objects w
             ∧ EvRead md enc (Ok text) ∈ evs.
Proof.
  unfold _read_markdown, read_utf8, read_latin1, read_with. run.
  repeat branch; tidy; intros [= <- <-]; cbn [trace objects];
    rewrite <- ?(assoc_L (++)); eexists _, _; (split; [reflexivity |]);
    (split; [reflexivity |]); cbn [app]; rewrite ?Hcall1, ?Hcall3, ?Hcall0, ?Hcall2.
  all: repeat first [apply list_elem_of_here | apply list_elem_of_further].
Qed.
End Success.

Section Success2.
Context (E : environment).

Lemma _convert_to_html_ok text w html w' :
  _convert_to_html E text w = (Ok html, w') →
  w' = World (objects w)
         (trace w ++ [EvLog INFO "Converting Markdown to HTML";
                      EvMarkdown text extensions "html5" (Ok html)]).
Proof.
  unfold _convert_to_html. run. repeat branch; intros [= <- <-].
  by rewrite <- (assoc_L (++)).
Qed.

Lemma _generate_html_document_ok self html title w doc w' :
  _generate_html_document E self html title w = (Ok doc, w') →
  ∃ vals now,
    doc = template E (if bool_decide (title = EmptyString) then "Document" else title)
            vals html now
    ∧ w' = World (objects w) (trace w ++ [EvStrftime "%Y-%m-%d %H:%M" now]).
Proof.
  unfold _generate_html_document, config_item. run.
  repeat branch; intros [= <- <-]. by eexists _, _.
Qed.

Lemma _convert_to_pdf_ok self doc out w w' :
  _convert_to_pdf E self doc out w = (Ok tt, w') →
  ∃ dir full options evs,
    trace w' = trace w ++ evs ∧ objects w' = objects w
    ∧ full_options (objects w) self = Ok full
    ∧ (options = full ∨ options = retry_options_of full)
    ∧ EvWrite (join dir "temp.html") doc (Ok tt) ∈ evs
    ∧ EvFromFile (join dir "temp.html") out options (Ok tt) ∈ evs.
Proof.
  unfold _convert_to_pdf. run.
  destruct (full_options (objects w) self) as [full|e] eqn:Hfull; [| done]. simpl.
  repeat branch; tidy; intros [= <-]; cbn [trace objects];
    rewrite <- ?(assoc_L (++)); cbn [app];
    eexists _, full, _, _; (split; [reflexivity |]); (split; [reflexivity |]);
    (split; [reflexivity |]).
  all: refine (conj _ (conj _ _));
    [| repeat first [apply list_elem_of_here | apply list_elem_of_further] ..];
    first [left; reflexivity | right; reflexivity].
Qed.
End Success2.

Section Success3.
Context (E : environment).

Lemma convert_body_ok self md out w b w' :
  convert_body E self md out w = (Ok b, w') →
  b = true ∧ objects w' = objects w
  ∧ ∃ evs encoding text html vals now dir options,
      trace w' = trace w ++ evs
      ∧ EvRead md encoding (Ok text) ∈ evs
      ∧ EvMarkdown text extensions "html5" (Ok html) ∈ evs
      ∧ EvWrite (join dir "temp.html")
          (template E
             (if bool_decide (convert_title md html = EmptyString)
              then "Document" else convert_title md html)
             vals html now) (Ok tt) ∈ evs
      ∧ EvFromFile (join dir "temp.html") out options (Ok tt) ∈ evs
      ∧ last evs = Some (EvLog INFO ("Successfully created PDF: " +:+ out)).
Proof.
  unfold convert_body. intros H.
  apply bind_inv_ok in H as ([] & w1 & Hv & H).
  apply bind_inv_ok in H as (text & w2 & Hr & H).
  apply bind_inv_ok in H as (html & w3 & Hh & H).
  apply bind_inv_ok in H as (doc & w4 & Hg & H).
  apply bind_inv_ok in H as ([] & w5 & Hp & H).
  apply bind_inv_ok in H as ([] & w6 & Hl & H).
  injection H as <- <-. injection Hl as <-.
  destruct (only_validate_inputs E md out w) as [Ho1 (evs1 & Ht1 & _)].
  rewrite Hv in Ho1, Ht1. cbn [snd] in Ho1, Ht1.
  apply _read_markdown_ok in Hr as (enc & evs2 & Ht2 & Ho2 & Hin2).
  apply _convert_to_html_ok in Hh.
  apply _generate_html_document_ok in Hg as (vals & now & -> & Hw4).
  apply _convert_to_pdf_ok in Hp as (dir & full & options & evs5 & Ht5 & Ho5 & _ & _ & Hw & Hf).
  subst w3 w4. cbn [objects trace] in *.
  split; [done |]. split; [congruence |].
  exists (evs1 ++ evs2 ++ [EvLog INFO "Converting Markdown to HTML";
                           EvMarkdown text extensions "html5" (Ok html)]
            ++ [EvStrftime "%Y-%m-%d %H:%M" now] ++ evs5
            ++ [EvLog INFO ("Successfully created PDF: " +:+ out)]),
    enc, text, html, vals, now, dir, options.
  split; [| split; [| split; [| split; [| split]]]].
  - rewrite Ht5, Ht2, Ht1. by rewrite <- !(assoc_L (++)).
  - rewrite !elem_of_app. auto.
  - rewrite !elem_of_app. right. right. left.
    apply list_elem_of_further, list_elem_of_here.
  - rewrite !elem_of_app. auto 10.
  - rewrite !elem_of_app. auto 10.
  - rewrite !(assoc_L (++)). apply last_snoc.
Qed.

Lemma convert_ok self md out w b w' :
  convert E self md out w = (Ok b, w') → convert_body E self md out w = (Ok b, w').
Proof.
  unfold convert, try_except.
  destruct (convert_body E self md out w) as [[b0|e] w1]; [done |].
  cbn [List.find fst snd].
  destruct (isinstance e ConversionError); [run; done |].
  destruct (isinstance e Exception); [run; done | done].
Qed.

(** X11.  What a successful conversion has done.  When [convert]
    returns, it returns [True], the configuration objects are as before,
    and among the events it added are: the reading of the input, giving
    a text; the rendering of that text with the eight extensions, giving
    the HTML; the writing of the document to [temp.html] in a temporary
    directory, the document being the template around that HTML with the
    title extracted from it ([Document] if that is empty); and a run of
    wkhtmltopdf on that file with the output path that succeeded.  The
    last event is the log line of the success. *)
Theorem convert_success (self : converter) (markdown_file output_pdf : string)
    (w w' : world) (b : bool) :
  convert E self markdown_file output_pdf w = (Ok b, w') →
  b = true ∧ objects w' = objects w
  ∧ ∃ evs encoding text html vals now dir options,
      trace w' = trace w ++ evs
      ∧ EvRead markdown_file encoding (Ok text) ∈ evs
      ∧ EvMarkdown text extensions "html5" (Ok html) ∈ evs
      ∧ EvWrite (join dir "temp.html")
          (template E
             (if bool_decide (convert_title markdown_file html = EmptyString)
              then "Document" else convert_title markdown_file html)
             vals html now) (Ok tt) ∈ evs
      ∧ EvFromFile (join dir "temp.html") output_pdf options (Ok tt) ∈ evs
      ∧ last evs = Some (EvLog INFO ("Successfully created PDF: " +:+ output_pdf)).
Proof. intros H. apply (convert_body_ok self). by apply convert_ok. Qed.

(** X12.  Every failure of [convert] is logged.  When [convert] raises
    an [Exception], the last event is an error log line: [Conversion
    failed] with the text of the exception when a [ConversionError] came
    up, or [Unexpected error during conversion] with the text of the
    exception that was wrapped. *)
Theorem convert_failure_logged (self : converter) (markdown_file output_pdf : string)
    (w : world) (e : exn) :
  (convert E self markdown_file output_pdf w).1 = Raised e →
  isinstance e Exception = true →
  ∃ msg, last (trace (convert E self markdown_file output_pdf w).2)
         = Some (EvLog ERROR msg)
         ∧ (msg = "Conversion failed: " +:+ exn_str e
            ∨ ∃ e0, isinstance e0 ConversionError = false
                    ∧ e = unexpected e0
                    ∧ msg = "Unexpected error during conversion: " +:+ exn_str e0).
Proof.
  unfold convert, try_except.
  destruct (convert_body E self markdown_file output_pdf w) as [[b0|e0] w1]; [done |].
  cbn [List.find fst snd].
  destruct (isinstance e0 ConversionError) eqn:Hc.
  - run. intros [= <-] _. eexists. split; [apply last_snoc | by left].
  - destruct (isinstance e0 Exception) eqn:Hx.
    + run. intros [= <-] _. eexists. split; [apply last_snoc |].
      right. by exists e0.
    + cbn [fst]. intros [= <-] He. congruence.
Qed.

(** X13.  A path that fails the validation stops the conversion at
    once.  For an input that is no file, [convert] does the one check,
    logs the error and raises it; for an output directory that is none,
    the two checks.  Nothing is opened, read, rendered or written. *)
Theorem convert_stops_at_validation (self : converter)
    (markdown_file output_pdf : string) (w : world) :
  let t1 := trace w ++ [EvIsFile markdown_file
                          (os_path_isfile E (trace w) markdown_file)] in
  let no_file := new_error InputValidationError
                   ("Input file does not exist: " +:+ markdown_file) in
  let no_dir := new_error InputValidationError
                  ("Output directory does not exist: "
                   +:+ output_dir_of output_pdf) in
  (os_path_isfile E (trace w) markdown_file = false →
   convert E self markdown_file output_pdf w
   = (Raised no_file,
      World (objects w)
        (t1 ++ [EvLog ERROR ("Conversion failed: " +:+ exn_str no_file)])))
  ∧ (os_path_isfile E (trace w) markdown_file = true →
     os_path_isdir E t1 (output_dir_of output_pdf) = false →
     convert E self markdown_file output_pdf w
     = (Raised no_dir,
        World (objects w)
          (t1 ++ [EvIsDir (output_dir_of output_pdf) false;
                  EvLog ERROR ("Conversion failed: " +:+ exn_str no_dir)]))).
Proof.
  intros t1 no_file no_dir. split.
  - intros Hf. unfold convert, try_except, convert_body.
    rewrite (bind_raised _ _ _ _ _ (_validate_inputs_no_file E _ _ _ Hf)).
    cbn [List.find fst snd]. rewrite isinstance_new_error.
    change (issubclass InputValidationError ConversionError) with true.
    cbv iota. run. unfold t1. by rewrite Hf.
  - intros Hf Hd. unfold convert, try_except, convert_body.
    unfold t1 in Hd. rewrite Hf in Hd.
    rewrite (bind_raised _ _ _ _ _ (_validate_inputs_no_dir E _ _ _ Hf Hd)).
    cbn [List.find fst snd]. rewrite isinstance_new_error.
    change (issubclass InputValidationError ConversionError) with true.
    cbv iota. run. unfold t1. rewrite Hf. by rewrite <- !(assoc_L (++)).
Qed.
(** X14.  What [convert] touches, whether it returns or raises.  It
    leaves the configuration objects as they are; it looks at the input
    path and at the directory of the output only, opens the input for
    reading only, writes [temp.html] in a temporary directory only, and
    hands the output path to wkhtmltopdf only; it loads no configuration
    and does not set up logging. *)
Theorem convert_touches (self : converter) (markdown_file output_pdf : string)
    (w : world) :
  objects (convert E self markdown_file output_pdf w).2 = objects w
  ∧ ∃ evs, trace (convert E self markdown_file output_pdf w).2 = trace w ++ evs
           ∧ Forall (conversion_event markdown_file output_pdf) evs.
Proof. apply only_convert. Qed.
End Success3.

Section ReadWithoutFallback.
Context (E : environment).

(** X15.  Only a decoding error leads to the second reading.  When the
    reading under UTF-8 raises an [Exception] that is no
    [UnicodeDecodeError] (the file cannot be opened, the disk fails),
    [_read_markdown] raises the [ConversionError] with its text at once:
    the file was opened once under UTF-8 and is not opened under
    latin-1. *)
Theorem read_error_no_fallback (markdown_file : string) (w w1 : world) (e : exn) :
  read_utf8 E markdown_file w = (Raised e, w1) →
  isinstance e UnicodeDecodeError = false →
  isinstance e Exception = true →
  _read_markdown E markdown_file w = (Raised (read_failed markdown_file e), w1)
  ∧ opens "latin-1" (trace w1) = opens "latin-1" (trace w)
  ∧ opens "utf-8" (trace w1) = S (opens "utf-8" (trace w)).
Proof.
  intros Hr Hd Hx.
  rewrite (_read_markdown_other_error E _ _ _ _ Hr Hd), Hx.
  split; [done |].
  pose proof (read_with_opens E markdown_file "utf-8" INFO
                ("Reading Markdown file: " +:+ markdown_file) w) as Ho.
  fold (read_utf8 E markdown_file) in Ho. rewrite Hr in Ho. cbn [snd] in Ho.
  split.
  - rewrite (Ho "latin-1"%string). rewrite bool_decide_false by done. lia.
  - rewrite (Ho "utf-8"%string). rewrite bool_decide_true by done. lia.
Qed.
End ReadWithoutFallback.

Lemma read_error_no_fallback_witness :
  _read_markdown (env_of hard_day) "missing.md" initial_world
  = (Raised (read_failed "missing.md" (Exn OSError "No such file or directory")),
     World (objects initial_world)
       [EvOpen "missing.md" "r" "utf-8"
          (Raised (Exn OSError "No such file or directory"))]).
Proof.
  destruct (read_error_no_fallback (env_of hard_day) "missing.md" initial_world
              (World (objects initial_world)
                 [EvOpen "missing.md" "r" "utf-8"
                    (Raised (Exn OSError "No such file or directory"))])
              (Exn OSError "No such file or directory")) as [H _];
    [reflexivity | reflexivity | reflexivity |].
  exact H.
Defined.

Lemma convert_success_witness :
  ∃ evs dir options,
    trace (convert (env_of with_letter) plain "notes.md" "out.pdf" initial_world).2
    = trace initial_world ++ evs
    ∧ EvFromFile (join dir "temp.html") "out.pdf" options (Ok tt) ∈ evs
    ∧ last evs = Some (EvLog INFO "Successfully created PDF: out.pdf").
Proof.
  destruct (convert_success (env_of with_letter) plain "notes.md" "out.pdf" initial_world
              (convert (env_of with_letter) plain "notes.md" "out.pdf" initial_world).2
              true)
    as (_ & _ & evs & enc & text & html & vals & now & dir & options
        & Ht & _ & _ & _ & Hf & Hl).
  - vm_compute. reflexivity.
  - exists evs, dir, options. split; [exact Ht | split; [exact Hf | exact Hl]].
Defined.

Lemma convert_failure_logged_witness :
  ∃ msg,
    last (trace (convert (env_of broken_markdown) plain "notes.md" "out.pdf"
                   initial_world).2)
    = Some (EvLog ERROR msg).
Proof.
  destruct (convert_failure_logged (env_of broken_markdown) plain "notes.md" "out.pdf"
              initial_world
              (new_error ConversionError
                 "Markdown to HTML conversion failed: unknown extension"))
    as (msg & Hl & _).
  - vm_compute. reflexivity.
  - reflexivity.
  - exists msg. exact Hl.
Defined.

Lemma convert_stops_at_validation_witness :
  trace (convert (env_of hard_day) plain "missing.md" "out.pdf" initial_world).2
  = [EvIsFile "missing.md" false;
     EvLog ERROR "Conversion failed: ('Input file does not exist: missing.md', None)"].
Proof.
  destruct (convert_stops_at_validation (env_of hard_day) plain "missing.md" "out.pdf"
              initial_world) as [H _].
  rewrite H; reflexivity.
Defined.
(* ===================================================================== *)
(** * Failures before the conversion starts *)
(* ===================================================================== *)

Section Startup.
Context (E : environment).

Lemma _load_config_events cp w :
  ∃ evs, trace (_load_config E cp w).2 = trace w ++ evs ∧ Forall init_event evs.
Proof.
  unfold _load_config, dict_copy, safe_load_or_empty, or_empty, self_deep_merge.
  run. repeat case_match; simplify_eq/=;
    rewrite <- ?(assoc_L (++)); eexists; (split; [try reflexivity |]).
  all: try (symmetry; apply app_nil_r).
  all: repeat constructor.
Qed.

Lemma _validate_dependencies_events w :
  ∃ r, trace (_validate_dependencies E w).2
       = trace w ++ [EvFromString "<html></html>" "/dev/null" r].
Proof.
  unfold _validate_dependencies. run. repeat case_match; simplify_eq/=; by eexists.
Qed.

Lemma __init___events cp w :
  ∃ evs, trace (__init__ E cp w).2 = trace w ++ evs ∧ Forall init_event evs.
Proof.
  unfold __init__, mbind, M_bind.
  destruct (_load_config_events cp w) as (evs & Ht & HP).
  destruct (_load_config E cp w) as [[config|e] w1]; cbn [snd] in *; [| by exists evs].
  destruct (_validate_dependencies_events w1) as (r & Hr).
  destruct (_validate_dependencies E w1) as [[[]|e] w2]; cbn [snd mret M_ret] in *;
    (exists (evs ++ [EvFromString "<html></html>" "/dev/null" r]);
     split; [by rewrite Hr, Ht, (assoc_L (++)) |];
     apply Forall_app; split; [done | by repeat constructor]).
Qed.

(** X16.  A failure of the construction of the converter ends the run
    without a log line.  When the command line is parsed, the logging is
    set up and [__init__] raises a [ConversionError] (the configuration
    cannot be loaded, wkhtmltopdf is missing), [main] returns 1 in the
    state [__init__] left: the events after the line [Starting
    conversion] are those of the configuration file and of the trial of
    wkhtmltopdf, none is a log line. *)
Theorem startup_failure_is_silent (w w1 w3 : world) (a : args) (e : exn) :
  argparse_parse_args E (trace w) = Ok a →
  setup_logging E (verbose a) (log a)
    (World (objects w) (trace w ++ [EvParseArgs (Ok a)])) = (Ok tt, w1) →
  let w2 := World (objects w1)
              (trace w1 ++ [EvLog INFO ("Starting conversion: " +:+ input a
                                        +:+ " -> " +:+ output a)]) in
  __init__ E (config_path a) w2 = (Raised e, w3) →
  isinstance e ConversionError = true →
  main E w = (Ok 1, w3)
  ∧ ∃ evs, trace w3 = trace w2 ++ evs ∧ Forall init_event evs.
Proof.
  intros Ha Hs w2 Hi He. split.
  - unfold main, try_except, main_body.
    unfold call at 1. unfold mbind at 1, M_bind at 1. rewrite Ha.
    unfold mbind at 1, M_bind at 1. rewrite Hs.
    unfold logger, emit. unfold mbind at 1, M_bind at 1.
    unfold mbind at 1, M_bind at 1. fold w2. rewrite Hi.
    cbn [List.find fst snd]. by rewrite He.
  - destruct (__init___events (config_path a) w2) as (evs & Ht & HP).
    rewrite Hi in Ht. by exists evs.
Qed.

(** X17.  Without wkhtmltopdf.  When the trial conversion of
    [__init__] raises an [OSError], [__init__] raises the
    [DependencyError] with the installation hints; [main], called
    without a configuration and a log file, then returns 1 after four
    events: the command line, the set-up of the logging, the line
    [Starting conversion] and the trial.  The input is not looked at. *)
Theorem missing_wkhtmltopdf (w : world) (a : args) (items : odict) (e : exn) :
  argparse_parse_args E (trace w) = Ok a →
  config_path a = None → log a = None →
  objects w !! DEFAULT_CONFIG_ref = Some items →
  let t := trace w ++ [EvParseArgs (Ok a);
                       EvBasicConfig (if verbose a then DEBUG else INFO) 1;
                       EvLog INFO ("Starting conversion: " +:+ input a
                                   +:+ " -> " +:+ output a)] in
  pdfkit_from_string E t "<html></html>" "/dev/null" = Raised e →
  isinstance e OSError = true →
  __init__ E None (World (objects w) t)
  = (Raised (new_error DependencyError wkhtmltopdf_not_found),
     World (objects w ++ [items])
       (t ++ [EvFromString "<html></html>" "/dev/null" (Raised e)]))
  ∧ main E w
    = (Ok 1,
       World (objects w ++ [items])
         (t ++ [EvFromString "<html></html>" "/dev/null" (Raised e)])).
Proof.
  intros Ha Hc Hl Hitems t Hf He.
  assert (__init__ E None (World (objects w) t)
          = (Raised (new_error DependencyError wkhtmltopdf_not_found),
             World (objects w ++ [items])
               (t ++ [EvFromString "<html></html>" "/dev/null" (Raised e)]))) as Hi.
  { unfold __init__. rewrite (bind_ok _ _ _ _ _ (_load_config_no_file E (World (objects w) t) items Hitems)).
    unfold _validate_dependencies, try_except, call, mbind, M_bind.
    cbn [objects trace]. rewrite Hf. cbn [List.find fst snd]. by rewrite He. }
  split; [done |].
  unfold main, try_except, main_body.
  unfold call at 1. unfold mbind at 1, M_bind at 1. rewrite Ha.
  unfold setup_logging. rewrite Hl, Hc. unfold logger, emit.
  unfold mbind at 1, M_bind at 1. unfold mbind at 1, M_bind at 1.
  cbn [objects trace]. rewrite <- !(assoc_L (++)). cbn [app]. fold t.
  unfold mbind at 1, M_bind at 1. rewrite Hi.
  cbn [List.find fst snd]. rewrite isinstance_new_error. done.
Qed.

(** X18.  What ends the run before a converter exists.  An exit of
    [parse_args] ([--version], a wrong command line) goes through [main]
    as it is, nothing else being done; and a log file that cannot be
    opened makes [main] log the error as critical and return 3, before
    any configuration is loaded. *)
Theorem early_exit (w : world) :
  (∀ e, argparse_parse_args E (trace w) = Raised e →
        isinstance e Exception = false → isinstance e KeyboardInterrupt = false →
        main E w = (Raised e, World (objects w) (trace w ++ [EvParseArgs (Raised e)])))
  ∧ (∀ a path e,
       argparse_parse_args E (trace w) = Ok a →
       log a = Some path → path ≠ EmptyString →
       logging_FileHandler E (trace w ++ [EvParseArgs (Ok a)]) path = Raised e →
       isinstance e ConversionError = false →
       isinstance e KeyboardInterrupt = false →
       isinstance e Exception = true →
       main E w
       = (Ok 3,
          World (objects w)
            (trace w ++ [EvParseArgs (Ok a); EvFileHandler path (Raised e);
                         EvLog CRITICAL ("Unexpected error: " +:+ exn_str e)]))).
Proof.
  split.
  - intros e Ha Hx Hk.
    assert (isinstance e ConversionError = false) as Hc.
    { destruct (isinstance e ConversionError) eqn:Hc; [| done].
      destruct conversion_error_classes as (_ & _ & _ & H).
      destruct (H _ Hc) as [Hx' _]. unfold isinstance in Hx. congruence. }
    unfold main, try_except, main_body.
    unfold call at 1. unfold mbind at 1, M_bind at 1. rewrite Ha.
    cbn [List.find fst snd]. by rewrite Hc, Hk, Hx.
  - intros a path e Ha Hl Hpath Hf Hc Hk Hx.
    unfold main, try_except, main_body.
    unfold call at 1. unfold mbind at 1, M_bind at 1. rewrite Ha.
    unfold setup_logging. rewrite Hl, bool_decide_false by done.
    unfold call at 1. unfold mbind at 1, M_bind at 1.
    unfold mbind at 1, M_bind at 1. unfold mbind at 1, M_bind at 1.
    cbn [objects trace]. rewrite Hf.
    cbn [List.find fst snd]. rewrite Hc, Hk, Hx. run.
    by rewrite <- !(assoc_L (++)).
Qed.
End Startup.

Lemma startup_failure_is_silent_witness :
  (main (env_of missing_config) initial_world).1 = Ok 1
  ∧ Forall (fun ev => match ev with EvLog _ msg => msg = "Starting conversion: notes.md -> out.pdf"%string | _ => True end)
      (trace (main (env_of missing_config) initial_world).2).
Proof.
  pose (E := env_of missing_config).
  pose (a := Args "notes.md" "out.pdf" (Some "missing.yaml"%string) false None).
  pose (w1 := World (objects initial_world)
                [EvParseArgs (Ok a); EvBasicConfig INFO 1]).
  pose (w2 := World (objects w1)
                (trace w1 ++ [EvLog INFO ("Starting conversion: " +:+ input a
                                          +:+ " -> " +:+ output a)])).
  destruct (startup_failure_is_silent E initial_world w1 (__init__ E (config_path a) w2).2
              a (new_error ConfigurationError
                   "Failed to load config file: No such file or directory"))
    as [Hm _]; [reflexivity | reflexivity | vm_compute; reflexivity | reflexivity |].
  unfold E in Hm. rewrite Hm. split; [reflexivity |]. vm_compute. repeat constructor.
Defined.

Lemma missing_wkhtmltopdf_witness :
  main (without_wkhtmltopdf (env_of hard_day)) initial_world
  = (Ok 1,
     World (objects initial_world
              ++ [[("pdf_options"%string, ORef 0%nat); ("css_styles"%string, ORef 1%nat);
                   ("metadata"%string, ORef 2%nat)]])
       [EvParseArgs (Ok (Args "notes.txt" "out.pdf" None false None));
        EvBasicConfig INFO 1;
        EvLog INFO "Starting conversion: notes.txt -> out.pdf";
        EvFromString "<html></html>" "/dev/null"
          (Raised (Exn OSError "No wkhtmltopdf executable found"))]).
Proof.
  destruct (missing_wkhtmltopdf (without_wkhtmltopdf (env_of hard_day)) initial_world
              (Args "notes.txt" "out.pdf" None false None)
              [("pdf_options"%string, ORef 0%nat); ("css_styles"%string, ORef 1%nat);
               ("metadata"%string, ORef 2%nat)]
              (Exn OSError "No wkhtmltopdf executable found")) as [_ H];
    [reflexivity | reflexivity | reflexivity | reflexivity | reflexivity | reflexivity |].
  exact H.
Defined.

Lemma early_exit_witness :
  main (env_of version_only) initial_world
  = (Raised (Exn SystemExit "0"),
     World (objects initial_world) [EvParseArgs (Raised (Exn SystemExit "0"))])
  ∧ (main (without_log_file (env_of hard_day)
             (Args "notes.txt" "out.pdf" None false (Some "/var/log/convert.log"%string)))
       initial_world).1 = Ok 3.
Proof.
  split.
  - destruct (early_exit (env_of version_only) initial_world) as [H _].
    apply H; reflexivity.
  - destruct (early_exit
                (without_log_file (env_of hard_day)
                   (Args "notes.txt" "out.pdf" None false
                      (Some "/var/log/convert.log"%string)))
                initial_world) as [_ H].
    rewrite (H (Args "notes.txt" "out.pdf" None false (Some "/var/log/convert.log"%string))
               "/var/log/convert.log"%string (Exn OSError "Permission denied"));
      [reflexivity | reflexivity | reflexivity | discriminate | reflexivity
      | reflexivity | reflexivity | reflexivity].
Defined.
